(** * Sin: training monitor, dataset aggregation, checkpoints and chat

    A shallow embedding of [src/brain/monitor.py] and [src/sin.py].

    Python objects that are mutated in place live in an explicit state;
    a statement that may raise is a computation in a state-and-exception
    monad whose state survives the exception, as the mutations of a Python
    program survive a [raise].  Float scalars (losses, metric values,
    modification times) are rationals. *)

From Stdlib Require Import List String Ascii Bool Arith ZArith QArith Lia Permutation Sorted.
Import ListNotations.
Close Scope Q_scope.
Set Warnings "-register-all".
Open Scope string_scope.
Open Scope list_scope.

(* ================================================================== *)
(** * Python runtime: exceptions, effects, dicts, strings             *)
(* ================================================================== *)

Module Py.

(** The exception classes that the modelled code can meet.  All of them
    derive from [Exception], so an [except Exception] clause catches each. *)
Inductive exn : Type :=
| AttributeError (name : string)
| KeyError (key : string)
| TypeError (what : string)
| ValueError (what : string)
| OSError (path : string)
| Failure (what : string).   (* any other exception of a collaborator *)

Inductive result (A : Type) : Type :=
| Ok (a : A)
| Raise (e : exn).
Arguments Ok {A} a.
Arguments Raise {A} e.

(** [str(e)], as far as the log messages use it. *)
Definition str_exn (e : exn) : string :=
  match e with
  | AttributeError n => "object has no attribute '" ++ n ++ "'"
  | KeyError k => "'" ++ k ++ "'"
  | TypeError w | ValueError w | Failure w => w
  | OSError p => "cannot access '" ++ p ++ "'"
  end.

(** ** Logging *)

Inductive level : Type := DEBUG | INFO | ERROR | CRITICAL.

(** A log record: level, message template, interpolated arguments. *)
Definition log_record : Type := (level * string * list string)%type.

(** ** State and exceptions *)

Definition M (S A : Type) : Type := S -> result A * S.

Definition ret {S A} (a : A) : M S A := fun s => (Ok a, s).

Definition bind {S A B} (c : M S A) (k : A -> M S B) : M S B :=
  fun s => match c s with
           | (Ok a, s') => k a s'
           | (Raise e, s') => (Raise e, s')
           end.

Definition raise {S A} (e : exn) : M S A := fun s => (Raise e, s).

(** [try: c  except Exception as e: h e] *)
Definition try_except {S A} (c : M S A) (h : exn -> M S A) : M S A :=
  fun s => match c s with
           | (Ok a, s') => (Ok a, s')
           | (Raise e, s') => h e s'
           end.

Definition gets {S A} (f : S -> A) : M S A := fun s => (Ok (f s), s).
Definition modify {S} (f : S -> S) : M S unit := fun s => (Ok tt, f s).
Definition lift_result {S A} (r : result A) : M S A := fun s => (r, s).

Declare Scope py_scope.
Delimit Scope py_scope with py.
Notation "x <- c ;; k" := (bind c (fun x => k))
  (at level 61, c at next level, right associativity) : py_scope.
Notation "c ;; k" := (bind c (fun _ => k))
  (at level 61, right associativity) : py_scope.
Open Scope py_scope.

(** [for x in l: body x]; an exception in the body leaves the loop. *)
Fixpoint for_each {S A} (l : list A) (body : A -> M S unit) : M S unit :=
  match l with
  | [] => ret tt
  | x :: t => body x ;; for_each t body
  end.

(** [c], started in a state where [P] holds, returns a value (it does not
    raise), and [Q] holds of that value and the state it ends in. *)
Definition returns {S A} (P : S -> Prop) (c : M S A) (Q : A -> S -> Prop) : Prop :=
  forall s, P s -> exists a s', c s = (Ok a, s') /\ Q a s'.

(** A loop that carries a local variable. *)
Fixpoint fold_m {S A B} (body : B -> A -> M S B) (l : list A) (acc : B) : M S B :=
  match l with
  | [] => ret acc
  | x :: t => acc' <- body acc x ;; fold_m body t acc'
  end.

(** [enumerate(l)] and [range(n)] *)
Definition enumerate {A} (l : list A) : list (nat * A) :=
  combine (seq 0 (List.length l)) l.

Definition range (n : Z) : list Z := map Z.of_nat (seq 0 (Z.to_nat n)).

(** [sorted(l, key=key, reverse=True)]: greatest key first; the sort is
    stable, so items with equal keys keep the order they had in [l]. *)
Fixpoint insert_desc {A} (key : A -> Q) (x : A) (l : list A) : list A :=
  match l with
  | [] => [x]
  | y :: t =>
      if Qle_bool (key y) (key x)
      then x :: y :: t
      else y :: insert_desc key x t
  end.

Fixpoint sorted_desc {A} (key : A -> Q) (l : list A) : list A :=
  match l with
  | [] => []
  | x :: t => insert_desc key x (sorted_desc key t)
  end.

(** ** Insertion-ordered dicts with string keys *)

Definition dict (V : Type) : Type := list (string * V).

Section Dict.
Context {V : Type}.

(** [d.get(k)] *)
Fixpoint get (k : string) (d : dict V) : option V :=
  match d with
  | [] => None
  | (k', v) :: t => if String.eqb k k' then Some v else get k t
  end.

(** [d[k] = v]: an existing key keeps its place, a new one goes last. *)
Fixpoint set (k : string) (v : V) (d : dict V) : dict V :=
  match d with
  | [] => [(k, v)]
  | (k', v') :: t =>
      if String.eqb k k' then (k, v) :: t else (k', v') :: set k v t
  end.

Definition keys (d : dict V) : list string := map fst d.
Definition values (d : dict V) : list V := map snd d.
Definition items (d : dict V) : list (string * V) := d.

(** [d[k]] *)
Definition getitem (k : string) (d : dict V) : result V :=
  match get k d with
  | Some v => Ok v
  | None => Raise (KeyError k)
  end.
End Dict.

(** Truth value of a container. *)
Definition truthy {A} (l : list A) : bool :=
  match l with [] => false | _ :: _ => true end.

(** ** Slices *)

(** [l[k:]] *)
Definition slice_from {A} (k : Z) (l : list A) : list A :=
  if (k <? 0)%Z
  then skipn (List.length l - Z.to_nat (- k)) l
  else skipn (Z.to_nat k) l.

(** ** Strings

    A [str] is held as its UTF-8 encoding. *)

Definition bytes (codes : list nat) : string :=
  string_of_list_ascii (map ascii_of_nat codes).

(** [p ++ rest = s] gives [Some rest]. *)
Fixpoint drop_prefix (p s : string) : option string :=
  match p, s with
  | EmptyString, _ => Some s
  | String a p', String b s' => if Ascii.eqb a b then drop_prefix p' s' else None
  | String _ _, EmptyString => None
  end.

(** [s.startswith(p)] *)
Definition startswith (p s : string) : bool :=
  match drop_prefix p s with Some _ => true | None => false end.

Definition rev_string (s : string) : string :=
  string_of_list_ascii (rev (list_ascii_of_string s)).

(** [s.endswith(suffix)] *)
Definition endswith (suffix s : string) : bool :=
  startswith (rev_string suffix) (rev_string s).

(** [sub in s] *)
Fixpoint substring_of (sub s : string) : bool :=
  startswith sub s ||
  match s with
  | EmptyString => false
  | String _ s' => substring_of sub s'
  end.

(** [s.split(sep)] for a non-empty [sep]: [skip] counts the characters of a
    separator just matched that are still to be passed over, [cur] is the
    piece being collected. *)
Fixpoint split_from (sep : string) (skip : nat) (cur : string) (s : string) : list string :=
  match s with
  | EmptyString => [cur]
  | String c s' =>
      match skip with
      | S k => split_from sep k cur s'
      | O =>
          if startswith sep s
          then cur :: split_from sep (String.length sep - 1) "" s'
          else split_from sep 0 (cur ++ String c "") s'
      end
  end.

Definition split (sep s : string) : list string := split_from sep 0 "" s.

(** [sep.join(parts)] *)
Fixpoint join (sep : string) (parts : list string) : string :=
  match parts with
  | [] => ""
  | [x] => x
  | x :: rest => x ++ sep ++ join sep rest
  end.

(** The code points on which [str.isspace] holds, UTF-8 encoded:
    U+0009..U+000D, U+001C..U+0020, U+0085, U+00A0, U+1680,
    U+2000..U+200A, U+2028, U+2029, U+202F, U+205F, U+3000. *)
Definition whitespace : list string :=
  map bytes
    ([[9]; [10]; [11]; [12]; [13]; [28]; [29]; [30]; [31]; [32];
      [194; 133]; [194; 160]; [225; 154; 128]]
     ++ map (fun b => [226; 128; b]) (seq 128 11)
     ++ [[226; 128; 168]; [226; 128; 169]; [226; 128; 175];
         [226; 129; 159]; [227; 128; 128]]).

(** The rest of [s] after one leading character among [chars], if any. *)
Fixpoint drop_one (chars : list string) (s : string) : option string :=
  match chars with
  | [] => None
  | c :: rest =>
      match drop_prefix c s with
      | Some r => Some r
      | None => drop_one rest s
      end
  end.

Fixpoint lstrip_chars (chars : list string) (fuel : nat) (s : string) : string :=
  match fuel with
  | O => s
  | S f =>
      match drop_one chars s with
      | Some r => lstrip_chars chars f r
      | None => s
      end
  end.

(** [s.lstrip()], [s.rstrip()], [s.strip()] *)
Definition lstrip (s : string) : string :=
  lstrip_chars whitespace (String.length s) s.

Definition rstrip (s : string) : string :=
  rev_string (lstrip_chars (map rev_string whitespace) (String.length s) (rev_string s)).

Definition strip (s : string) : string := rstrip (lstrip s).

(** [l[-1]] *)
Definition last_item {A} (l : list A) : result A :=
  match rev l with
  | x :: _ => Ok x
  | [] => Raise (Failure "list index out of range")
  end.

(** [l[0]] *)
Definition first_item {A} (l : list A) : result A :=
  match l with
  | x :: _ => Ok x
  | [] => Raise (Failure "list index out of range")
  end.

End Py.
Import Py.

(* ================================================================== *)
(** * [src/brain/monitor.py]: class [TrainingMonitor]                  *)
(* ================================================================== *)

Module Monitor.

(** [self.current_log]: the dict with the keys ["epochs"], ["train_loss"],
    ["val_loss"] and ["metrics"] that the methods index. *)
Record training_log : Type := mk_log {
  epochs : list Z;
  train_loss : list Q;
  val_loss : list Q;
  metrics : dict (list Q)
}.

(** What [plt.plot(x, y, label=...)] draws, and the two panels of the figure. *)
Record line : Type := mk_line { label : string; xs : list Z; ys : list Q }.
Record figure : Type := mk_figure { loss_panel : list line; metrics_panel : list line }.

(** The log directory on durable storage. *)
Record disk : Type := mk_disk {
  dir_exists : bool;
  writable : bool;
  training_log_json : option training_log;
  training_progress_png : option figure
}.

(** An instance: [log_dir] is bound by [__init__]; [current_log] is bound
    only if something has assigned it. *)
Record TrainingMonitor : Type := mk_monitor {
  log_dir : string;
  current_log : option training_log
}.

Record state : Type := mk_state {
  self : TrainingMonitor;
  storage : disk;
  logged : list log_record
}.

Definition logger (lv : level) (msg : string) (args : list string) : M state unit :=
  modify (fun s => mk_state (self s) (storage s) (logged s ++ [(lv, msg, args)])).

Definition set_storage (d : disk) : M state unit :=
  modify (fun s => mk_state (self s) d (logged s)).

Definition set_current_log (l : training_log) : M state unit :=
  modify (fun s => mk_state (mk_monitor (log_dir (self s)) (Some l)) (storage s) (logged s)).

(** The names bound in the body of [class TrainingMonitor]. *)
Definition class_attributes : list string :=
  ["__init__"; "log_epoch"; "_save_log"; "_plot_progress"; "get_best_epoch"].

(** The names [__init__] binds on the instance before it calls a method. *)
Definition init_attributes : list string := ["logger"; "log_dir"].

(** [self.<name>]: instance first, then class. *)
Definition getattr (name : string) : M state unit :=
  if existsb (String.eqb name) (init_attributes ++ class_attributes)
  then ret tt
  else raise (AttributeError name).

(** [self.current_log] *)
Definition get_current_log : M state training_log :=
  fun s => match current_log (self s) with
           | Some l => (Ok l, s)
           | None => (Raise (AttributeError "current_log"), s)
           end.

(** An in-place update of the object [self.current_log] refers to. *)
Definition update_log (f : training_log -> training_log) : M state unit :=
  l <- get_current_log ;; set_current_log (f l).

(** [Path.mkdir(exist_ok=True, parents=True)] *)
Definition mkdir : M state unit :=
  d <- gets storage ;;
  if dir_exists d then ret tt
  else if writable d
       then set_storage (mk_disk true true (training_log_json d) (training_progress_png d))
       else (p <- gets (fun s => log_dir (self s)) ;; raise (OSError p)).

(** [open(path, "w")] in the log directory. *)
Definition open_w (name : string) : M state unit :=
  d <- gets storage ;;
  if dir_exists d && writable d then ret tt
  else (p <- gets (fun s => log_dir (self s)) ;; raise (OSError (p ++ "/" ++ name))).

(** [__init__(self, log_dir)], run on the fresh instance. *)
Definition __init__ : M state unit :=
  try_except
    (mkdir ;;
     getattr "reset_logs" ;;           (* self.reset_logs() *)
     logger INFO "Training monitor initialized" [])
    (fun e =>
       logger CRITICAL "Failed to initialize monitor: {}" [str_exn e] ;;
       raise e).

(** [TrainingMonitor(log_dir)] on a given disk. *)
Definition construct (dir : string) (d : disk) (lg : list log_record) : result unit * state :=
  __init__ (mk_state (mk_monitor dir None) d lg).

Definition append_epoch (epoch : Z) (l : training_log) : training_log :=
  mk_log (epochs l ++ [epoch]) (train_loss l) (val_loss l) (metrics l).

Definition append_train_loss (loss : Q) (l : training_log) : training_log :=
  mk_log (epochs l) (train_loss l ++ [loss]) (val_loss l) (metrics l).

(** [if metric in log["metrics"]: log["metrics"][metric].append(value)] *)
Definition append_metric (kv : string * Q) (l : training_log) : training_log :=
  match get (fst kv) (metrics l) with
  | Some series =>
      mk_log (epochs l) (train_loss l) (val_loss l)
             (set (fst kv) (series ++ [snd kv]) (metrics l))
  | None => l
  end.

(** Truth value of [val_metrics]: [None] and [{}] are false. *)
Definition metrics_given (val_metrics : option (dict Q)) : list (string * Q) :=
  match val_metrics with
  | Some m => items m
  | None => []
  end.

Definition _save_log : M state unit :=
  open_w "training_log.json" ;;
  l <- get_current_log ;;
  d <- gets storage ;;
  set_storage (mk_disk (dir_exists d) (writable d) (Some l) (training_progress_png d)).

(** [plt.plot(x, y, label=...)]: the two sequences must be equally long. *)
Definition plt_plot (x : list Z) (y : list Q) (lbl : string) : result line :=
  if Nat.eqb (List.length x) (List.length y)
  then Ok (mk_line lbl x y)
  else Raise (ValueError "x and y must have same first dimension").

Fixpoint plot_metrics (x : list Z) (ms : list (string * list Q)) : result (list line) :=
  match ms with
  | [] => Ok []
  | (metric, vals) :: rest =>
      if truthy vals
      then match plt_plot x vals metric with
           | Ok ln => match plot_metrics x rest with
                      | Ok lns => Ok (ln :: lns)
                      | Raise e => Raise e
                      end
           | Raise e => Raise e
           end
      else plot_metrics x rest
  end.

Definition draw (l : training_log) : result figure :=
  match plt_plot (epochs l) (train_loss l) "Train" with
  | Raise e => Raise e
  | Ok train =>
      match (if truthy (val_loss l)
             then match plt_plot (epochs l) (val_loss l) "Val" with
                  | Ok v => Ok [train; v]
                  | Raise e => Raise e
                  end
             else Ok [train]) with
      | Raise e => Raise e
      | Ok loss_lines =>
          match plot_metrics (epochs l) (items (metrics l)) with
          | Raise e => Raise e
          | Ok metric_lines => Ok (mk_figure loss_lines metric_lines)
          end
      end
  end.

Definition _plot_progress : M state unit :=
  l <- get_current_log ;;
  fig <- lift_result (draw l) ;;
  open_w "training_progress.png" ;;    (* plt.savefig *)
  d <- gets storage ;;
  set_storage (mk_disk (dir_exists d) (writable d) (training_log_json d) (Some fig)).

Definition log_epoch (epoch : Z) (loss : Q) (val_metrics : option (dict Q)) : M state unit :=
  try_except
    (update_log (append_epoch epoch) ;;
     update_log (append_train_loss loss) ;;
     for_each (metrics_given val_metrics) (fun kv => update_log (append_metric kv)) ;;
     _save_log ;;
     _plot_progress ;;
     logger DEBUG "Logged epoch {} data" [])
    (fun e =>
       logger ERROR "Failed to log epoch {}: {}" [str_exn e] ;;
       raise e).

(** [numpy.argmax] of a sequence: the index of the first greatest element,
    [ValueError] on an empty one. *)
Fixpoint argmax_from (best : Q) (best_i i : nat) (l : list Q) : nat :=
  match l with
  | [] => best_i
  | x :: t =>
      if Qle_bool x best
      then argmax_from best best_i (S i) t
      else argmax_from x i (S i) t
  end.

Definition np_argmax (l : list Q) : result nat :=
  match l with
  | [] => Raise (ValueError "attempt to get argmax of an empty sequence")
  | x :: t => Ok (argmax_from x 0 1 t)
  end.

Definition get_best_epoch (metric : string) : M state Z :=
  l <- get_current_log ;;
  match get metric (metrics l) with
  | None | Some [] => ret (-1)%Z
  | Some vals =>
      i <- lift_result (np_argmax vals) ;;
      ret (Z.of_nat i + 1)%Z
  end.

(** ** Auxiliary definitions for the properties *)

(** The values that [val_metrics] reports under [name], in order (a dict
    reports at most one). *)
Definition reported (name : string) (val_metrics : option (dict Q)) : list Q :=
  map snd (filter (fun kv => String.eqb (fst kv) name) (metrics_given val_metrics)).

(** The log after one [log_epoch], as a function of the log before. *)
Definition logged_epoch (epoch : Z) (loss : Q) (val_metrics : option (dict Q))
    (l : training_log) : training_log :=
  fold_left (fun l kv => append_metric kv l) (metrics_given val_metrics)
            (append_train_loss loss (append_epoch epoch l)).

(** A computation that leaves the instance as it is. *)
Definition keeps_self {A} (c : M state A) : Prop :=
  forall s, self (snd (c s)) = self s.

(** A usable log directory with nothing in it. *)
Definition empty_disk : disk := mk_disk true true None None.

Definition with_log (l : training_log) : state :=
  mk_state (mk_monitor "data/logs" (Some l)) empty_disk [].

(** A log with no record and no tracked metric name. *)
Definition untracked_log : training_log := mk_log [] [] [] [].

(** A log with no record that tracks ["accuracy"]. *)
Definition accuracy_log : training_log := mk_log [] [] [] [("accuracy", [])].

(** A log with no record that tracks the names [tracked]. *)
Definition fresh_log (tracked : list string) : training_log :=
  mk_log [] [] [] (map (fun k => (k, [])) tracked).

(** Every sequence of the log has one entry for each of [n] epochs, and no
    validation loss is recorded. *)
Definition aligned (n : nat) (l : training_log) : Prop :=
  List.length (epochs l) = n
  /\ List.length (train_loss l) = n
  /\ val_loss l = []
  /\ NoDup (keys (metrics l))
  /\ Forall (fun kv => List.length (snd kv) = n) (metrics l).

(** The log directory exists and can be written to. *)
Definition usable (d : disk) : Prop :=
  dir_exists d = true /\ writable d = true.

Definition spec_series : list Q := [5 # 10; 9 # 10; 9 # 10; 3 # 10]%Q.

End Monitor.

(* ================================================================== *)
(** * [src/sin.py]: class [Sin]                                        *)
(* ================================================================== *)

Module Sin.

(** A dataset: what a loader of the trainer returns, or the
    [torch.utils.data.ConcatDataset] of several of them. *)
Inductive dataset (sample : Type) : Type :=
| Dataset (samples : list sample)
| ConcatDataset (datasets : list (dataset sample)).
Arguments Dataset {sample} samples.
Arguments ConcatDataset {sample} datasets.

(** [len(d)] *)
Fixpoint len {sample} (d : dataset sample) : nat :=
  match d with
  | Dataset l => List.length l
  | ConcatDataset ds => list_sum (map len ds)
  end.

(** Truth value of a dataset argument: [None] and empty ones are false. *)
Definition nonempty {sample} (d : option (dataset sample)) : bool :=
  match d with
  | None => false
  | Some d => negb (Nat.eqb (len d) 0)
  end.

(** What [json.load] returns. *)
Inductive json : Type :=
| JNull
| JBool (b : bool)
| JNum (q : Q)
| JStr (s : string)
| JList (l : list json)
| JDict (d : list (string * json)).

(** [key in data] *)
Definition json_contains (key : string) (data : json) : result bool :=
  match data with
  | JDict d => Ok (existsb (fun kv => String.eqb key (fst kv)) d)
  | JList l =>
      Ok (existsb (fun x => match x with JStr s => String.eqb key s | _ => false end) l)
  | JStr s => Ok (substring_of key s)
  | JNull | JBool _ | JNum _ => Raise (TypeError "argument is not iterable")
  end.

(** A value held by a result of [compare_models]: a metric, or the
    ["improvement"] mapping. *)
Inductive value : Type :=
| Num (q : Q)
| Mapping (d : dict Q).

(** An entry of the models directory. *)
Record dir_entry : Type := mk_entry {
  name : string;
  is_file : bool;
  st_mtime : Q;
  unlink_error : option exn     (* what [unlink] raises on it, if anything *)
}.

(** The collaborators of [Sin], none of which is defined in [sin.py]:
    the model, the trainer, the evaluator and the memory of package [brain],
    [torch], and the conversations directory.  [backend] is everything the
    numeric side keeps (parameters, gradients, mode, optimizer, schedule). *)
Class Collaborators : Type := {
  sample : Type;
  batch : Type;
  tensor : Type;
  weights : Type;
  backend : Type;
  memory : Type;
  (* brain.model.SinModel *)
  generate_response : string -> M backend string;
  state_dict : backend -> weights;
  load_state_dict : weights -> M backend unit;
  model_train : M backend unit;
  model_save : string -> M backend unit;
  (* torch *)
  torch_load : string -> result weights;
  new_optimizer : Z -> M backend unit;
  zero_grad : M backend unit;
  backward : tensor -> M backend unit;
  optimizer_step : M backend unit;
  scheduler_step : M backend unit;
  item : tensor -> Q;
  (* brain.trainer.SinTrainer *)
  load_json_data : string -> result (dataset sample);
  load_text_data : string -> result (dataset sample);
  get_data_loader : dataset sample -> M backend (list batch);
  train_step : batch -> M backend tensor;
  (* brain.evaluator.ModelEvaluator *)
  evaluate_dataset : dataset sample -> Z -> M backend (dict Q);
  (* brain.memory.SinMemory *)
  add_interaction : string -> string -> M memory unit;
  context : memory -> list string;
  memory_save : string -> M memory unit;
  (* os, json: the conversations directory *)
  listdir : string -> result (list string);
  json_load : string -> result json
}.

Section WithCollaborators.
Context `{C : Collaborators}.

(** The [Sin] object and what it reaches. *)
Record state : Type := mk_state {
  model : backend;
  mem : memory;
  monitor : Monitor.state;
  evaluator_calls : list (dataset sample * Z);
  models_dir : list dir_entry;
  logged : list log_record
}.

Definition on_model {A} (c : M backend A) : M state A :=
  fun s => let (r, b) := c (model s) in
           (r, mk_state b (mem s) (monitor s) (evaluator_calls s) (models_dir s) (logged s)).

Definition on_memory {A} (c : M memory A) : M state A :=
  fun s => let (r, m) := c (mem s) in
           (r, mk_state (model s) m (monitor s) (evaluator_calls s) (models_dir s) (logged s)).

Definition on_monitor {A} (c : M Monitor.state A) : M state A :=
  fun s => let (r, m) := c (monitor s) in
           (r, mk_state (model s) (mem s) m (evaluator_calls s) (models_dir s) (logged s)).

Definition logger (lv : level) (msg : string) (args : list string) : M state unit :=
  modify (fun s => mk_state (model s) (mem s) (monitor s) (evaluator_calls s)
                            (models_dir s) (logged s ++ [(lv, msg, args)])).

Definition record_call (d : dataset sample) (n : Z) : M state unit :=
  modify (fun s => mk_state (model s) (mem s) (monitor s) (evaluator_calls s ++ [(d, n)])
                            (models_dir s) (logged s)).

Definition set_models_dir (l : list dir_entry) : M state unit :=
  modify (fun s => mk_state (model s) (mem s) (monitor s) (evaluator_calls s) l (logged s)).

Definition data_dir : string := "data".
Definition the_models_dir : string := data_dir ++ "/models".
Definition conversations_dir : string := data_dir ++ "/conversations".
Definition canonical_model : string := "sin_model.pt".

(** ** [evaluate] *)

Definition evaluate (d : option (dataset sample)) (sample_size : Z) : M state (dict Q) :=
  if negb (nonempty d)
  then ret []                                   (* if not dataset: return {} *)
  else match d with
       | Some ds => record_call ds sample_size ;; on_model (evaluate_dataset ds sample_size)
       | None => ret []
       end.

(** ** [chat] *)

Definition fallback_message : string := "Не могу сформулировать ответ".
Definition error_message : string := "Произошла ошибка при генерации ответа".

(** [list(ctx)[-4:]] *)
Definition last4 (ctx : list string) : list string := slice_from (-4) ctx.

Definition chat (user_input : string) : M state string :=
  logger INFO "Received user input: {}" [user_input] ;;
  try_except
    (logger DEBUG "Adding interaction to memory" [] ;;
     on_memory (add_interaction user_input "") ;;
     ctx <- gets (fun s => context (mem s)) ;;
     let context_text := join (bytes [10]) (last4 ctx) in
     logger DEBUG "Current context: {}" [context_text] ;;
     let prompt := (context_text ++ bytes [10] ++ "Sin:")%string in
     logger DEBUG "Generated prompt: {}" [prompt] ;;
     logger INFO "Generating response..." [] ;;
     response <- on_model (generate_response prompt) ;;
     logger DEBUG "Raw response: {}" [response] ;;
     after <- lift_result (last_item (split "Sin:" response)) ;;
     let clean_response := strip after in
     first <- lift_result (first_item (split (bytes [10]) clean_response)) ;;
     let clean_response := strip first in
     logger DEBUG "Cleaned response: {}" [clean_response] ;;
     on_memory (add_interaction user_input clean_response) ;;
     logger INFO "Returning response: {}" [clean_response] ;;
     ret (if String.eqb clean_response "" then fallback_message else clean_response))
    (fun e =>
       logger ERROR "Error in chat(): {}" [str_exn e] ;;
       ret error_message).

(** ** [_load_all_datasets] *)

(** One turn of the loop over the directory; [datasets] is the list built
    so far. *)
Definition load_file (datasets : list (dataset sample)) (filename : string)
  : M state (list (dataset sample)) :=
  let filepath := (conversations_dir ++ "/" ++ filename)%string in
  try_except
    (if endswith ".json" filename then
       data <- lift_result (json_load filepath) ;;
       has <- lift_result (json_contains "dialogues" data) ;;
       if has : bool
       then d <- lift_result (load_json_data filepath) ;; ret (datasets ++ [d])
       else ret datasets
     else if endswith ".txt" filename then
       d <- lift_result (load_text_data filepath) ;; ret (datasets ++ [d])
     else ret datasets)
    (fun e =>
       logger ERROR "Error loading {}: {}" [filename; str_exn e] ;;
       ret datasets).

Definition _load_all_datasets : M state (option (dataset sample)) :=
  filenames <- lift_result (listdir conversations_dir) ;;
  datasets <- fold_m load_file filenames [] ;;
  ret (if truthy datasets then Some (ConcatDataset datasets) else None).

(** ** [save] *)

Definition save : M state unit :=
  try_except
    (logger INFO "Saving model..." [] ;;
     let model_path := (the_models_dir ++ "/" ++ canonical_model)%string in
     on_model (model_save model_path) ;;
     logger INFO "Model saved to {}" [model_path] ;;
     logger INFO "Saving memory..." [] ;;
     let memory_path := (data_dir ++ "/memory.json")%string in
     on_memory (memory_save memory_path) ;;
     logger INFO "Memory saved to {}" [memory_path])
    (fun e =>
       logger ERROR "Failed to save: {}" [str_exn e] ;;
       raise e).

(** ** [train] *)

(** One turn of the loop over the batches; [total_loss] is the accumulator. *)
Definition train_batch (total_loss : Q) (ib : nat * batch) : M state Q :=
  on_model zero_grad ;;
  loss <- on_model (train_step (snd ib)) ;;
  on_model (backward loss) ;;
  on_model optimizer_step ;;
  let total_loss := (total_loss + item loss)%Q in
  (if Nat.eqb (fst ib mod 50) 0
   then logger DEBUG "Epoch {} | Batch {} | Loss: {:.4f}" []
   else ret tt) ;;
  ret total_loss.

(** One turn of the loop over [range(epochs)]. *)
Definition train_epoch (train_dataset : dataset sample)
    (val_dataset : option (dataset sample)) (epoch : Z) : M state unit :=
  logger INFO "Starting epoch {}/{}" [] ;;
  on_model model_train ;;
  try_except
    (batches <- on_model (get_data_loader train_dataset) ;;
     total_loss <- fold_m train_batch (enumerate batches) 0%Q ;;
     on_model scheduler_step ;;
     val_metrics <-
       (if nonempty val_dataset
        then logger INFO "Running validation..." [] ;;
             m <- evaluate val_dataset 100 ;;
             logger INFO "Validation metrics: {}" [] ;;
             ret (Some m)
        else ret None) ;;
     on_monitor (Monitor.log_epoch (epoch + 1) total_loss val_metrics) ;;
     logger INFO "Epoch {} complete | Avg Loss: {:.4f}" [])
    (fun e =>
       logger ERROR "Error during epoch {}: {}" [str_exn e] ;;
       raise e).

Definition train (epochs : Z) (val_dataset : option (dataset sample))
  : M state Monitor.training_log :=
  logger INFO "Starting training for {} epochs" [] ;;
  try_except
    (loaded <- _load_all_datasets ;;
     train_dataset <-
       (match loaded with
        | Some ds =>
            if nonempty loaded then ret ds
            else logger ERROR "No training data found" [] ;;
                 raise (ValueError "No training data found")
        | None =>
            logger ERROR "No training data found" [] ;;
            raise (ValueError "No training data found")
        end) ;;
     logger INFO "Loaded dataset with {} samples" [] ;;
     (if nonempty val_dataset
      then logger INFO "Running initial validation..." [] ;;
           evaluate val_dataset 100 ;;
           logger INFO "Initial metrics: {}" []
      else ret tt) ;;
     on_model (new_optimizer epochs) ;;
     for_each (range epochs) (train_epoch train_dataset val_dataset) ;;
     on_monitor (Monitor.get_best_epoch "accuracy") ;;
     logger INFO "Training complete! Best epoch: {}" [] ;;
     save ;;
     on_monitor Monitor.get_current_log)
    (fun e =>
       logger CRITICAL "Training failed: {}" [str_exn e] ;;
       raise e).

(** ** [compare_models] *)

(** [Path(path).name]: the last component that is neither empty nor ["."]. *)
Definition path_name (path : string) : string :=
  match rev (filter (fun c => negb (String.eqb c "" || String.eqb c "."))
                    (split "/" path)) with
  | c :: _ => c
  | [] => ""
  end.

(** [v - w] *)
Definition subtract (v w : value) : result Q :=
  match v, w with
  | Num a, Num b => Ok (a - b)%Q
  | _, _ => Raise (TypeError "unsupported operand type(s) for -")
  end.

(** [{k: v - base[k] for k, v in metrics.items()}], [acc] being the dict
    built so far. *)
Fixpoint differences (base : dict value) (metrics : list (string * value))
    (acc : dict Q) : result (dict Q) :=
  match metrics with
  | [] => Ok acc
  | (k, v) :: rest =>
      match getitem k base with
      | Raise e => Raise e
      | Ok b =>
          match subtract v b with
          | Raise e => Raise e
          | Ok d => differences base rest (set k d acc)
          end
      end
  end.

(** One turn of the loop over [results.items()].  [base] is the object
    that is the first value of [results], so it is read from [results] as
    they are now. *)
Definition add_improvement (results : dict (dict value)) (name : string)
  : result (dict (dict value)) :=
  match first_item (values results), getitem name results with
  | Ok base, Ok metrics =>
      match differences base (items metrics) [] with
      | Ok imp => Ok (set name (set "improvement" (Mapping imp) metrics) results)
      | Raise e => Raise e
      end
  | Raise e, _ | _, Raise e => Raise e
  end.

Fixpoint add_improvements (results : dict (dict value)) (names : list string)
  : result (dict (dict value)) :=
  match names with
  | [] => Ok results
  | n :: rest =>
      match add_improvement results n with
      | Ok results' => add_improvements results' rest
      | Raise e => Raise e
      end
  end.

(** One turn of the loop over [model_paths]. *)
Definition compare_one (test_dataset : option (dataset sample))
    (results : dict (dict value)) (path : string) : M state (dict (dict value)) :=
  sd <- lift_result (torch_load path) ;;
  on_model (load_state_dict sd) ;;
  metrics <- evaluate test_dataset 100 ;;
  ret (set (path_name path) (map (fun kv => (fst kv, Num (snd kv))) metrics) results).

Definition compare_models (model_paths : list string)
    (test_dataset : option (dataset sample)) : M state (dict (dict value)) :=
  original_state <- gets (fun s => state_dict (model s)) ;;
  try_except
    (results <- fold_m (compare_one test_dataset) model_paths [] ;;
     on_model (load_state_dict original_state) ;;
     if Nat.ltb 1 (List.length results)
     then lift_result (add_improvements results (keys results))
     else ret results)
    (fun e =>
       on_model (load_state_dict original_state) ;;
       raise e).

(** ** [_cleanup_old_models] *)

(** [models_dir.glob('*.pt')] *)
Definition glob_pt (dir : list dir_entry) : list dir_entry :=
  filter (fun f => endswith ".pt" (name f)) dir.

(** [old_model.unlink()] *)
Definition unlink (f : dir_entry) : M state unit :=
  match unlink_error f with
  | Some e => raise e
  | None =>
      dir <- gets models_dir ;;
      set_models_dir (filter (fun g => negb (String.eqb (name g) (name f))) dir)
  end.

Definition remove_old (old_model : dir_entry) : M state unit :=
  try_except
    (unlink old_model ;;
     logger INFO "Removed old model: {}" [name old_model])
    (fun e =>
       logger ERROR "Failed to remove {}: {}" [name old_model; str_exn e]).

Definition candidates (dir : list dir_entry) : list dir_entry :=
  sorted_desc st_mtime (filter is_file (glob_pt dir)).

Definition _cleanup_old_models (max_models : Z) : M state unit :=
  dir <- gets models_dir ;;
  let models := candidates dir in
  for_each (slice_from max_models models) remove_old.

(** ** Auxiliary definitions for the properties *)

(** What reading one file of the conversations directory comes to: a
    dataset, nothing (a file that is passed over), or an exception. *)
Definition attempt (filename : string) : result (option (dataset sample)) :=
  let filepath := (conversations_dir ++ "/" ++ filename)%string in
  if endswith ".json" filename then
    match json_load filepath with
    | Raise e => Raise e
    | Ok data =>
        match json_contains "dialogues" data with
        | Raise e => Raise e
        | Ok false => Ok None
        | Ok true =>
            match load_json_data filepath with
            | Ok d => Ok (Some d)
            | Raise e => Raise e
            end
        end
    end
  else if endswith ".txt" filename then
    match load_text_data filepath with
    | Ok d => Ok (Some d)
    | Raise e => Raise e
    end
  else Ok None.

(** The datasets of the files that load, in directory order. *)
Definition successes (filenames : list string) : list (dataset sample) :=
  flat_map (fun f => match attempt f with Ok (Some d) => [d] | _ => [] end) filenames.

(** The error records of the files that fail, in directory order. *)
Definition failures (filenames : list string) : list log_record :=
  flat_map (fun f => match attempt f with
                     | Raise e => [(ERROR, "Error loading {}: {}", [f; str_exn e])]
                     | Ok _ => []
                     end) filenames.

Definition add_logged (records : list log_record) (s : state) : state :=
  mk_state (model s) (mem s) (monitor s) (evaluator_calls s) (models_dir s)
           (logged s ++ records).

(** A computation on the backend that cannot raise. *)
Definition succeeds {S A} (c : M S A) : Prop :=
  forall b, exists a b', c b = (Ok a, b').

(** The record that [remove_old] writes for an entry. *)
Definition removal_record (f : dir_entry) : log_record :=
  match unlink_error f with
  | None => (INFO, "Removed old model: {}", [name f])
  | Some e => (ERROR, "Failed to remove {}: {}", [name f; str_exn e])
  end.

(** [f] is one of [old] and can be unlinked. *)
Definition removed_by (old : list dir_entry) (f : dir_entry) : bool :=
  existsb (fun o => String.eqb (name f) (name o)
                    && match unlink_error o with None => true | Some _ => false end) old.

(** A versioned snapshot: a regular [*.pt] file other than the canonical
    [sin_model.pt]. *)
Definition versioned (f : dir_entry) : bool :=
  is_file f && endswith ".pt" (name f) && negb (String.eqb (name f) canonical_model).

(** Greatest modification time first. *)
Definition newest_first : list dir_entry -> Prop :=
  StronglySorted (fun a b => (st_mtime b <= st_mtime a)%Q).

(** The results of [compare_models] as a dict of dicts: no key twice. *)
Definition well_formed (results : dict (dict value)) : Prop :=
  NoDup (keys results) /\ Forall (fun e => NoDup (keys (snd e))) results.

(** [imp] holds, for every key of [m], the value of [m] less that of [base]. *)
Definition differences_of (base m : dict value) (imp : dict Q) : Prop :=
  forall k, In k (keys m) ->
  exists a b, get k m = Some (Num a) /\ get k base = Some (Num b)
              /\ get k imp = Some (a - b)%Q.

(** The result [r] has an ["improvement"] mapping that holds, for every
    metric of [r], that metric less the same metric of [base]. *)
Definition improved_against (base r : dict value) : Prop :=
  exists imp, get "improvement" r = Some (Mapping imp)
    /\ forall k v, k <> "improvement" -> get k r = Some v ->
         exists a b, v = Num a /\ get k base = Some (Num b)
                     /\ get k imp = Some (a - b)%Q.

(** The monitor holds the log [l] in a usable directory, and the
    evaluator has been called with [calls] so far. *)
Definition monitoring (l : Monitor.training_log) (calls : list (dataset sample * Z))
    (s : state) : Prop :=
  Monitor.current_log (Monitor.self (monitor s)) = Some l
  /\ Monitor.usable (Monitor.storage (monitor s))
  /\ evaluator_calls s = calls.

(** What one evaluation of the dataset [v] may return: a dict that the
    evaluator gives in some state, with a value for each name of [tracked]. *)
Definition produced (v : dataset sample) (tracked : list string) (m : dict Q) : Prop :=
  NoDup (keys m)
  /\ (forall k, In k tracked -> exists x, get k m = Some x)
  /\ exists b b', evaluate_dataset v 100 b = (Ok m, b').

(** The sum that the loop over the batches accumulates, from [0]. *)
Definition total_of (losses : list Q) : Q := fold_left Qplus losses 0%Q.

(** [state_dict()] as a [torch.nn.Module] has it: the object returned
    holds the live tensors of the model, so it is the same object whatever
    the parameters are at the time, and loading it into the model copies
    every tensor onto itself. *)
Definition by_reference : Prop :=
  (forall b0 b : backend, state_dict b0 = state_dict b)
  /\ (forall b : backend, load_state_dict (state_dict b) b = (Ok tt, b)).

(** The prompt that [chat] builds from the context of the memory. *)
Definition prompt_of (ctx : list string) : string :=
  (join (bytes [10]) (last4 ctx) ++ bytes [10] ++ "Sin:")%string.

(** [response.split("Sin:")[-1].strip().split("\n")[0].strip()]: a split
    has at least one piece. *)
Definition cleaned (response : string) : string :=
  strip (hd ""%string (split (bytes [10]) (strip (last (split "Sin:" response) ""%string)))).

End WithCollaborators.

(** ** A small world to run the code in *)

Definition snapshot (n : string) (t : Q) (err : option exn) : dir_entry :=
  mk_entry n true t err.

(** Weights are a number; the evaluator reports a tenth of it as accuracy;
    every batch costs a loss of 1; the conversations directory holds a
    dialogue file, a malformed one and a text file. *)
Definition toy : Collaborators := {|
  sample := nat;
  batch := unit;
  tensor := Q;
  weights := Z;
  backend := Z;
  memory := list string;
  generate_response := fun prompt b => (Ok "Sin: hello", b);
  state_dict := fun b => b;
  load_state_dict := fun w _ => (Ok tt, w);
  model_train := ret tt;
  model_save := fun _ => ret tt;
  torch_load := fun path =>
    if String.eqb path "a.pt" then Ok 1%Z
    else if String.eqb path "models/b.pt" then Ok 3%Z
    else Raise (OSError path);
  new_optimizer := fun _ => ret tt;
  zero_grad := ret tt;
  backward := fun _ => ret tt;
  optimizer_step := fun b => (Ok tt, (b + 1)%Z);
  scheduler_step := ret tt;
  item := fun t => t;
  load_json_data := fun _ => Ok (Dataset [1; 2]);
  load_text_data := fun _ => Ok (Dataset [3]);
  get_data_loader := fun _ => ret [tt];
  train_step := fun _ => ret 1%Q;
  evaluate_dataset := fun _ _ b => (Ok [("accuracy", (b # 10)%Q)], b);
  add_interaction := fun u r m => (Ok tt, m ++ [u; r]);
  context := fun m => m;
  memory_save := fun _ => ret tt;
  listdir := fun _ => Ok ["a.json"; "bad.json"; "c.txt"; "notes.md"];
  json_load := fun path =>
    if String.eqb path "data/conversations/a.json"
    then Ok (JDict [("dialogues", JList [])])
    else Raise (ValueError "Expecting value")
|}.

Definition toy_state (log : Monitor.training_log) (dir : list dir_entry) : @state toy :=
  @mk_state toy 0%Z [] (Monitor.with_log log) [] dir [].

(** What [state_dict()] and [torch.load] return in a world where the model
    is a [torch.nn.Module]: the live tensors of the model, or tensors read
    from a file. *)
Inductive tensors : Type :=
| Live
| Stored (w : Z).

(** The small world with such a model: the parameters are a number,
    [state_dict()] returns the live tensors, and [load_state_dict] copies
    into them, so that loading the live tensors changes nothing. *)
Definition torch_world : Collaborators := {|
  sample := nat;
  batch := unit;
  tensor := Q;
  weights := tensors;
  backend := Z;
  memory := list string;
  generate_response := fun prompt b => (Ok "Sin: hello", b);
  state_dict := fun _ => Live;
  load_state_dict := fun t b => (Ok tt, match t with Live => b | Stored w => w end);
  model_train := ret tt;
  model_save := fun _ => ret tt;
  torch_load := fun path =>
    if String.eqb path "a.pt" then Ok (Stored 1)
    else if String.eqb path "models/b.pt" then Ok (Stored 3)
    else Raise (OSError path);
  new_optimizer := fun _ => ret tt;
  zero_grad := ret tt;
  backward := fun _ => ret tt;
  optimizer_step := fun b => (Ok tt, (b + 1)%Z);
  scheduler_step := ret tt;
  item := fun t => t;
  load_json_data := fun _ => Ok (Dataset [1; 2]);
  load_text_data := fun _ => Ok (Dataset [3]);
  get_data_loader := fun _ => ret [tt];
  train_step := fun _ => ret 1%Q;
  evaluate_dataset := fun _ _ b => (Ok [("accuracy", (b # 10)%Q)], b);
  add_interaction := fun u r m => (Ok tt, m ++ [u; r]);
  context := fun m => m;
  memory_save := fun _ => ret tt;
  listdir := fun _ => Ok ["a.json"; "bad.json"; "c.txt"; "notes.md"];
  json_load := fun path =>
    if String.eqb path "data/conversations/a.json"
    then Ok (JDict [("dialogues", JList [])])
    else Raise (ValueError "Expecting value")
|}.

(** A model of that world whose parameters are [0]. *)
Definition torch_state : @state torch_world :=
  @mk_state torch_world 0%Z [] (Monitor.with_log Monitor.accuracy_log) [] [] [].

(** What comparing [a.pt] (accuracy 1/10) with [models/b.pt] (accuracy
    3/10) returns in this world. *)
Definition toy_results : dict (dict value) :=
  [ ("a.pt", [ ("accuracy", Num (1 # 10));
               ("improvement", Mapping [("accuracy", ((1 # 10) - (1 # 10))%Q)]) ]);
    ("b.pt", [ ("accuracy", Num (3 # 10));
               ("improvement", Mapping [("accuracy", ((3 # 10) - (1 # 10))%Q)]) ]) ].

(** Eight versioned snapshots, oldest first; the second oldest cannot be
    removed. *)
Definition eight_snapshots : list dir_entry :=
  [ snapshot "v1.pt" 1 None; snapshot "v2.pt" 2 (Some (OSError "v2.pt"));
    snapshot "v3.pt" 3 None; snapshot "v4.pt" 4 None; snapshot "v5.pt" 5 None;
    snapshot "v6.pt" 6 None; snapshot "v7.pt" 7 None; snapshot "v8.pt" 8 None ].

(** The canonical snapshot, written last, beside five versioned ones. *)
Definition five_and_latest : list dir_entry :=
  [ snapshot "v1.pt" 1 None; snapshot "v2.pt" 2 None; snapshot "v3.pt" 3 None;
    snapshot "v4.pt" 4 None; snapshot "v5.pt" 5 None;
    snapshot canonical_model 9 None ].

End Sin.

(* ================================================================== *)
(** * [src/core/personality.py]: class [PersonalityCore]              *)
(* ================================================================== *)

Module Personality.

(** What [self.current_archetype] holds: the string ['neutral'], or one of
    the dicts of [ARCHETYPES]. *)
Inductive archetype : Type :=
| Key (name : string)
| Entry (d : dict (list string)).

Definition analytic : string := "аналитичный".
Definition thinking : string := "🤔 ".

Definition ARCHETYPES : dict (dict (list string)) :=
  [ ("neutral", [("traits", [])]);
    ("scientist",
     [ ("traits", [analytic; "любопытный"]);
       ("phrases", ["По моим расчетам..."; "Это интересно с научной точки зрения..."]) ]);
    ("artist",
     [ ("traits", ["креативный"; "эмоциональный"]);
       ("phrases", ["Я чувствую, что..."; "Это вдохновляет!"]) ]) ].

Record PersonalityCore : Type := mk_core {
  current_archetype : archetype;
  custom_traits : list string
}.

(** [PersonalityCore()] *)
Definition __init__ : PersonalityCore := mk_core (Key "neutral") [].

(** [self.current_archetype = self.ARCHETYPES.get(name, 'neutral')] *)
Definition set_archetype (name : string) : M PersonalityCore unit :=
  modify (fun self =>
            mk_core (match get name ARCHETYPES with
                     | Some d => Entry d
                     | None => Key "neutral"
                     end)
                    (custom_traits self)).

Definition add_trait (trait : string) : M PersonalityCore unit :=
  modify (fun self => mk_core (current_archetype self) (custom_traits self ++ [trait])).

(** [self.current_archetype['traits']]: a string cannot be indexed by a
    string. *)
Definition archetype_traits (a : archetype) : result (list string) :=
  match a with
  | Key _ => Raise (TypeError "string indices must be integers")
  | Entry d => getitem "traits" d
  end.

Definition format_response (message : string) : M PersonalityCore string :=
  base <- (fun self => (archetype_traits (current_archetype self), self)) ;;
  custom <- gets custom_traits ;;
  let traits := base ++ custom in
  ret (if existsb (String.eqb analytic) traits
       then (thinking ++ message)%string
       else message).

(** [add_trait] for each of [traits], in order. *)
Definition add_traits (traits : list string) : M PersonalityCore unit :=
  for_each traits add_trait.

End Personality.

(* ================================================================== *)
(** * Further definitions for the monitor                              *)
(* ================================================================== *)

Module MonitorAux.
Import Monitor.

(** The invariant of the log: as many losses as epochs, no metric name
    twice, and no series longer than the list of epochs. *)
Definition consistent (l : training_log) : Prop :=
  List.length (train_loss l) = List.length (epochs l)
  /\ NoDup (keys (metrics l))
  /\ Forall (fun kv => List.length (snd kv) <= List.length (epochs l)) (metrics l).

(** The arguments of one call of [log_epoch]. *)
Definition call : Type := (Z * Q * option (dict Q))%type.

(** [log_epoch] called for each of [calls] in turn, by a caller that goes
    on after a call that raises. *)
Definition run_calls (calls : list call) (s : state) : state :=
  fold_left (fun s c => snd (log_epoch (fst (fst c)) (snd (fst c)) (snd c) s)) calls s.

(** What [val_metrics] is when it is a dict: no key twice. *)
Definition is_dict (val_metrics : option (dict Q)) : Prop :=
  match val_metrics with
  | Some m => NoDup (keys m)
  | None => True
  end.

(** The state in which [log_epoch] leaves a monitor with the log [l'],
    the disk [d] and one more log record. *)
Definition left_with (s : state) (l' : training_log) (d : disk) (r : log_record) : state :=
  mk_state (mk_monitor (log_dir (self s)) (Some l')) d (logged s ++ [r]).

(** A log of one epoch, validated with an accuracy of 1/2. *)
Definition one_epoch_log : training_log :=
  mk_log [1%Z] [1%Q] [] [("accuracy", [(1 # 2)%Q])].

End MonitorAux.

(* ================================================================== *)
(** * [src/sin.py]: the other methods of [Sin]                         *)
(* ================================================================== *)

Module SinRest.
Import Sin.

(** ** Paths *)

(** The root of a POSIX path: ["//"] for exactly two leading slashes,
    ["/"] for any other number of them. *)
Definition posix_root (p : string) : string :=
  if startswith "//" p && negb (startswith "///" p) then "//"
  else if startswith "/" p then "/"
  else "".

(** The components of a path: the empty ones and ["."] are dropped. *)
Definition posix_parts (p : string) : list string :=
  filter (fun c => negb (String.eqb c "" || String.eqb c ".")) (split "/" p).

(** [str(Path(p))] *)
Definition posix_str (p : string) : string :=
  match posix_root p, posix_parts p with
  | EmptyString, [] => "."
  | root, parts => (root ++ join "/" parts)%string
  end.

(** [str(Path(a) / b)]: a rooted [b] replaces [a]. *)
Definition joined (a b : string) : string :=
  posix_str (if startswith "/" b then b else (a ++ "/" ++ b)%string).

Section Rest.
Context `{C : Collaborators}.

(** More of the collaborators: the clock, the file system under [data],
    and the memory's constructor and loader. *)

(** [datetime.now().strftime('%Y%m%d_%H%M%S')] *)
Variable stamp : string.

(** What the models directory lists once [SinModel.save(path)] has
    returned, given what it listed before. *)
Variable saved : string -> list dir_entry -> list dir_entry.

(** [memory_path.exists()], [SinMemory.load(path)] and [SinMemory()] *)
Variable memory_exists : bool.
Variable memory_load : string -> M memory unit.
Variable new_memory : result memory.

Definition set_memory (m : memory) : M state unit :=
  modify (fun s => mk_state (model s) m (monitor s) (evaluator_calls s)
                            (models_dir s) (logged s)).

(** ** [load] *)

Definition load : M state unit :=
  try_except
    (let memory_path := (data_dir ++ "/memory.json")%string in
     if memory_exists
     then logger INFO "Loading memory..." [] ;;
          on_memory (memory_load memory_path) ;;
          logger INFO "Memory loaded successfully" []
     else ret tt)
    (fun e =>
       logger ERROR "Failed to load memory: {}" [str_exn e] ;;
       m <- lift_result new_memory ;;
       set_memory m).

(** ** [get_training_report] *)

(** What reading [data/logs/training_log.json] comes to when the monitor
    writes to another directory, or to this one under another spelling:
    nothing, the log that the file holds, or what [json.load] raises. *)
Variable report_elsewhere : state -> result (option Monitor.training_log).

(** The file read is always [data/logs/training_log.json].  It is the log
    file of the monitor when the monitor's directory is [data/logs], as
    the one that [TrainingMonitor()] makes in [__init__]. *)
Definition get_training_report : M state (option Monitor.training_log) :=
  fun s =>
    if String.eqb (posix_str (Monitor.log_dir (Monitor.self (monitor s)))) "data/logs"
    then (Ok (Monitor.training_log_json (Monitor.storage (monitor s))), s)
    else (report_elsewhere s, s).

(** ** [save_model] *)

(** The file name that [save_model] settles on. *)
Definition snapshot_name (model_name : option string) : string :=
  match model_name with
  | None => ("sin_model_" ++ stamp ++ ".pt")%string
  | Some n =>
      if String.eqb n "" then ("sin_model_" ++ stamp ++ ".pt")%string
      else if negb (endswith ".pt" n) then (n ++ ".pt")%string
      else n
  end.

Definition save_model (model_name : option string) : M state string :=
  try_except
    (let model_name := snapshot_name model_name in
     let model_path := joined the_models_dir model_name in
     on_model (model_save model_path) ;;
     dir <- gets models_dir ;;
     set_models_dir (saved model_path dir) ;;
     logger INFO "Model manually saved to {}" [model_path] ;;
     _cleanup_old_models 5 ;;
     ret model_path)
    (fun e =>
       logger ERROR "Manual save failed: {}" [str_exn e] ;;
       raise e).

(** ** [list_models] *)

(** [f.stat().st_mtime] of an entry that is not a regular file: a
    directory has one, a link whose target is missing raises
    [FileNotFoundError]. *)
Variable stat_other : dir_entry -> result Q.

(** [f.stat().st_mtime]: [list_models] asks it of every entry that the
    glob yields, with no [is_file()] test before. *)
Definition stat_mtime (f : dir_entry) : result Q :=
  if is_file f then Ok (st_mtime f) else stat_other f.

(** The keys of [sorted(..., key=...)]: one is computed for each item, in
    order, before any two are compared; the first that raises ends the
    call. *)
Fixpoint keyed (l : list dir_entry) : result (list (Q * dir_entry)) :=
  match l with
  | [] => Ok []
  | f :: t =>
      match stat_mtime f with
      | Raise e => Raise e
      | Ok k =>
          match keyed t with
          | Raise e => Raise e
          | Ok kt => Ok ((k, f) :: kt)
          end
      end
  end.

Definition list_models : M state (list string) :=
  dir <- gets models_dir ;;
  ranked <- lift_result (keyed (glob_pt dir)) ;;
  ret (map (fun kf => name (snd kf)) (sorted_desc fst ranked)).

(** ** [__init__] and [_load_model]

    The object is being built, so the state threaded here is what the
    logger of [sin.py] has written; the constructors of the collaborators
    are given as their results. *)

(** [Path.mkdir] of the two directories, [model_path.exists()],
    [SinModel.load(path)], [SinModel()], [SinTrainer(model)],
    [model.tokenizer] and [ModelEvaluator(model, tokenizer)] *)
Variable mkdir_models : result unit.
Variable mkdir_conversations : result unit.
Variable model_exists : bool.
Variable SinModel_load : string -> result backend.
Variable SinModel_new : result backend.
Variable SinTrainer_new : backend -> result unit.
Variable tokenizer_of : backend -> result unit.
Variable ModelEvaluator_new : backend -> result unit.

Definition _load_model : result backend :=
  let model_path := joined the_models_dir canonical_model in
  if model_exists then SinModel_load model_path else SinModel_new.

Definition log (lv : level) (msg : string) (args : list string)
  : M (list log_record) unit :=
  modify (fun lg => lg ++ [(lv, msg, args)]).

(** [TrainingMonitor()], on the disk [d]; [monitor_logged] is what the
    logger of [monitor.py] has written. *)
Definition new_monitor (d : Monitor.disk) (monitor_logged : list log_record)
  : M (list log_record) Monitor.state :=
  fun lg =>
    match Monitor.construct "data/logs" d monitor_logged with
    | (Ok _, m) => (Ok m, lg)
    | (Raise e, _) => (Raise e, lg)
    end.

(** [self.load()] on the object built so far. *)
Definition load_built (s : state) : M (list log_record) state :=
  fun lg =>
    let start := mk_state (model s) (mem s) (monitor s) (evaluator_calls s)
                          (models_dir s) lg in
    match load start with
    | (Ok _, s') => (Ok s', logged s')
    | (Raise e, s') => (Raise e, logged s')
    end.

Definition __init__ (d : Monitor.disk) (monitor_logged : list log_record)
    (dir : list dir_entry) : M (list log_record) state :=
  try_except
    (lift_result mkdir_models ;;
     lift_result mkdir_conversations ;;
     log INFO "Initializing model..." [] ;;
     the_model <- lift_result _load_model ;;
     log INFO "Initializing memory..." [] ;;
     the_memory <- lift_result new_memory ;;
     log INFO "Initializing trainer..." [] ;;
     lift_result (SinTrainer_new the_model) ;;
     log INFO "Initializing evaluator..." [] ;;
     lift_result (tokenizer_of the_model) ;;
     lift_result (ModelEvaluator_new the_model) ;;
     log INFO "Initializing monitor..." [] ;;
     the_monitor <- new_monitor d monitor_logged ;;
     log INFO "Loading saved state..." [] ;;
     built <- load_built (mk_state the_model the_memory the_monitor [] dir []) ;;
     log INFO "Sin initialization complete" [] ;;
     lg <- gets (fun lg => lg) ;;
     ret (mk_state (model built) (mem built) (monitor built) (evaluator_calls built)
                   (models_dir built) lg))
    (fun e =>
       log CRITICAL "Initialization failed: {}" [str_exn e] ;;
       raise e).

(** ** Auxiliary definitions for the properties *)

(** A computation that leaves the monitor, its directory and its log
    records as they are. *)
Definition keeps_monitor {A} (c : M state A) : Prop :=
  forall s, monitor (snd (c s)) = monitor s.

(** A computation that leaves the directory of the monitor as it is. *)
Definition keeps_log_dir {A} (c : M state A) : Prop :=
  forall s, Monitor.log_dir (Monitor.self (monitor (snd (c s))))
            = Monitor.log_dir (Monitor.self (monitor s)).

(** The monitor's log file holds the monitor's current log. *)
Definition in_step (s : state) : Prop :=
  exists l, Monitor.current_log (Monitor.self (monitor s)) = Some l
            /\ Monitor.training_log_json (Monitor.storage (monitor s)) = Some l.

(** The names of [names], each at its first occurrence. *)
Fixpoint first_occurrences (seen names : list string) : list string :=
  match names with
  | [] => []
  | n :: rest =>
      if existsb (String.eqb n) seen
      then first_occurrences seen rest
      else n :: first_occurrences (seen ++ [n]) rest
  end.

(** No line feed in [s]. *)
Definition one_line (s : string) : Prop :=
  ~ In (ascii_of_nat 10) (list_ascii_of_string s).

(** The log after the epochs [first], [first + 1], ... have been logged
    with the loss [loss] and the metrics [ms], one dict for each epoch. *)
Fixpoint logged_epochs (first : Z) (loss : Q) (ms : list (dict Q))
    (l : Monitor.training_log) : Monitor.training_log :=
  match ms with
  | [] => l
  | m :: rest =>
      logged_epochs (first + 1) loss rest (Monitor.logged_epoch first loss (Some m) l)
  end.

(** The value of [name] in each dict of [ms] that has one, in order. *)
Definition reported_by (name : string) (ms : list (dict Q)) : list Q :=
  flat_map (fun m => match get name m with Some x => [x] | None => [] end) ms.

End Rest.

(** The small world again, with a disk that is full and a trainer whose
    steps fail: saving the model raises, and so does a training step. *)
Definition broken : Collaborators := {|
  sample := nat;
  batch := unit;
  tensor := Q;
  weights := Z;
  backend := Z;
  memory := list string;
  generate_response := fun prompt b => (Ok "Sin: hello", b);
  state_dict := fun b => b;
  load_state_dict := fun w _ => (Ok tt, w);
  model_train := ret tt;
  model_save := fun path => raise (OSError "No space left on device");
  torch_load := fun path => Ok 1%Z;
  new_optimizer := fun _ => ret tt;
  zero_grad := ret tt;
  backward := fun _ => ret tt;
  optimizer_step := fun b => (Ok tt, (b + 1)%Z);
  scheduler_step := ret tt;
  item := fun t => t;
  load_json_data := fun _ => Ok (Dataset [1; 2]);
  load_text_data := fun _ => Ok (Dataset [3]);
  get_data_loader := fun _ => ret [tt];
  train_step := fun _ => raise (Failure "CUDA out of memory");
  evaluate_dataset := fun _ _ b => (Ok [("accuracy", (b # 10)%Q)], b);
  add_interaction := fun u r m => (Ok tt, m ++ [u; r]);
  context := fun m => m;
  memory_save := fun _ => ret tt;
  listdir := fun _ => Ok ["c.txt"];
  json_load := fun path => Raise (ValueError "Expecting value")
|}.

Definition broken_state : @state broken :=
  @mk_state broken 0%Z [] (Monitor.with_log Monitor.accuracy_log) [] [] [].

(** The world [w] with other files in the conversations directory. *)
Definition with_files (files : list string) (w : Collaborators) : Collaborators := {|
  sample := @sample w;
  batch := @batch w;
  tensor := @tensor w;
  weights := @weights w;
  backend := @backend w;
  memory := @memory w;
  generate_response := @generate_response w;
  state_dict := @state_dict w;
  load_state_dict := @load_state_dict w;
  model_train := @model_train w;
  model_save := @model_save w;
  torch_load := @torch_load w;
  new_optimizer := @new_optimizer w;
  zero_grad := @zero_grad w;
  backward := @backward w;
  optimizer_step := @optimizer_step w;
  scheduler_step := @scheduler_step w;
  item := @item w;
  load_json_data := @load_json_data w;
  load_text_data := @load_text_data w;
  get_data_loader := @get_data_loader w;
  train_step := @train_step w;
  evaluate_dataset := @evaluate_dataset w;
  add_interaction := @add_interaction w;
  context := @context w;
  memory_save := @memory_save w;
  listdir := fun _ => Ok files;
  json_load := @json_load w
|}.

(** A state of such a world, with a monitor that holds the log [log]. *)
Definition state_with_files (files : list string) (log : Monitor.training_log)
  : @state (with_files files toy) :=
  @mk_state (with_files files toy) 0%Z [] (Monitor.with_log log) [] [] [].

(** A models directory with a snapshot, a directory named [runs.pt] and a
    link [gone.pt] whose target is missing; [broken_link] is what [stat]
    does on the entries that are not regular files. *)
Definition with_link : list dir_entry :=
  [ snapshot "v1.pt" 1 None; mk_entry "runs.pt" false 0 None;
    snapshot "v2.pt" 2 None; mk_entry "gone.pt" false 0 None ].

Definition broken_link (f : dir_entry) : result Q :=
  if String.eqb (name f) "gone.pt" then Raise (OSError "gone.pt") else Ok 5%Q.

(** What the models directory lists once a snapshot has been written at
    time 10. *)
Definition written (path : string) (dir : list dir_entry) : list dir_entry :=
  dir ++ [snapshot (path_name path) 10 None].

End SinRest.

(* ================================================================== *)
(** * Properties of the runtime                                        *)
(* ================================================================== *)

Module PyFacts.

(** ** Dict lemmas *)

Lemma get_set {V} (name k : string) (v : V) (d : dict V) :
  get name (set k v d) = if String.eqb name k then Some v else get name d.
Proof.
  induction d as [| [k' v'] t IH]; simpl.
  - reflexivity.
  - destruct (String.eqb k k') eqn:Hk; simpl.
    + apply String.eqb_eq in Hk. subst k'.
      destruct (String.eqb name k); reflexivity.
    + destruct (String.eqb name k') eqn:Hn.
      * apply String.eqb_eq in Hn. subst k'.
        rewrite String.eqb_sym in Hk. rewrite Hk. reflexivity.
      * exact IH.
Qed.

Lemma keys_set_present {V} (k : string) (v w : V) (d : dict V) :
  get k d = Some w -> keys (set k v d) = keys d.
Proof.
  unfold keys. induction d as [| [k' v'] t IH]; simpl; intros H.
  - discriminate.
  - destruct (String.eqb k k') eqn:Hk; simpl.
    + apply String.eqb_eq in Hk. now subst.
    + now rewrite IH.
Qed.

Lemma get_not_key {V} (k : string) (d : dict V) :
  ~ In k (keys d) -> get k d = None.
Proof.
  unfold keys. induction d as [| [k' v'] t IH]; simpl; intros H.
  - reflexivity.
  - destruct (String.eqb k k') eqn:E.
    + apply String.eqb_eq in E. subst. tauto.
    + apply IH. tauto.
Qed.

Lemma get_In {V} (k : string) (v : V) (d : dict V) :
  get k d = Some v -> In (k, v) d.
Proof.
  induction d as [| [k' v'] t IH]; simpl; intros H.
  - discriminate.
  - destruct (String.eqb k k') eqn:E.
    + apply String.eqb_eq in E. inversion H. subst. left. reflexivity.
    + right. apply IH. assumption.
Qed.

Lemma get_key {V} (k : string) (v : V) (d : dict V) :
  get k d = Some v -> In k (keys d).
Proof.
  intros H. apply get_In in H. unfold keys.
  change k with (fst (k, v)). apply in_map. assumption.
Qed.

Lemma keys_set_In {V} (x k : string) (v : V) (d : dict V) :
  In x (keys (set k v d)) -> x = k \/ In x (keys d).
Proof.
  unfold keys. induction d as [| [k' v'] t IH]; simpl.
  - intuition.
  - destruct (String.eqb k k') eqn:E; simpl.
    + apply String.eqb_eq in E. subst. tauto.
    + intros [H | H]; [tauto |]. apply IH in H. tauto.
Qed.

Lemma set_NoDup {V} (k : string) (v : V) (d : dict V) :
  NoDup (keys d) -> NoDup (keys (set k v d)).
Proof.
  induction d as [| [k' v'] t IH]; simpl; intros H.
  - constructor; [intros [] | constructor].
  - inversion H as [| ? ? Hnotin Hnd]; subst.
    destruct (String.eqb k k') eqn:E; simpl.
    + apply String.eqb_eq in E. subst. constructor; assumption.
    + constructor; [| apply IH; assumption].
      intros Hin. apply keys_set_In in Hin. destruct Hin as [-> | Hin].
      * rewrite String.eqb_refl in E. discriminate.
      * apply Hnotin. assumption.
Qed.

Lemma set_Forall {V} (P : V -> Prop) (k : string) (v : V) (d : dict V) :
  P v -> Forall (fun e => P (snd e)) d -> Forall (fun e => P (snd e)) (set k v d).
Proof.
  intros Hv. induction d as [| [k' v'] t IH]; simpl; intros H.
  - constructor; [assumption | constructor].
  - inversion H; subst.
    destruct (String.eqb k k'); constructor; auto.
Qed.

(** ** Rules for [returns] *)

Lemma returns_ret {S A} (P : S -> Prop) (a : A) (Q : A -> S -> Prop) :
  (forall s, P s -> Q a s) -> returns P (ret a) Q.
Proof. intros H s Hs. exists a, s. split; [reflexivity | auto]. Qed.

Lemma returns_bind {S A B} (P : S -> Prop) (R : A -> S -> Prop) (Q : B -> S -> Prop)
    (c : M S A) (k : A -> M S B) :
  returns P c R -> (forall a, returns (R a) (k a) Q) -> returns P (bind c k) Q.
Proof.
  intros Hc Hk s Hs. destruct (Hc s Hs) as (a & s1 & E & Ha).
  destruct (Hk a s1 Ha) as (b & s2 & E' & Hb).
  exists b, s2. unfold bind. rewrite E. auto.
Qed.

Lemma returns_try {S A} (P : S -> Prop) (Q : A -> S -> Prop) (c : M S A) h :
  returns P c Q -> returns P (try_except c h) Q.
Proof.
  intros Hc s Hs. destruct (Hc s Hs) as (a & s1 & E & Ha).
  exists a, s1. unfold try_except. rewrite E. auto.
Qed.

Lemma returns_post {S A} (P : S -> Prop) (Q Q' : A -> S -> Prop) (c : M S A) :
  (forall a s, Q a s -> Q' a s) -> returns P c Q -> returns P c Q'.
Proof.
  intros H Hc s Hs. destruct (Hc s Hs) as (a & s1 & E & Ha).
  exists a, s1. auto.
Qed.

Lemma returns_fact {S A} (F : Prop) (P : S -> Prop) (Q : A -> S -> Prop) (c : M S A) :
  (F -> returns P c Q) -> returns (fun s => F /\ P s) c Q.
Proof. intros H s [Hf Hs]. apply H; assumption. Qed.

Lemma returns_some {S A X} (P : X -> S -> Prop) (Q : A -> S -> Prop) (c : M S A) :
  (forall x, returns (P x) c Q) -> returns (fun s => exists x, P x s) c Q.
Proof. intros H s [x Hs]. eapply H. eassumption. Qed.

Lemma returns_fold {S A B} (J : S -> Prop) (f : B -> A -> B)
    (body : B -> A -> M S B) (l : list A) :
  (forall acc x, returns J (body acc x) (fun r s => r = f acc x /\ J s)) ->
  forall acc, returns J (fold_m body l acc) (fun r s => r = fold_left f l acc /\ J s).
Proof.
  intros Hbody. induction l as [| x t IH]; intros acc; simpl.
  - apply returns_ret. auto.
  - eapply returns_bind; [apply Hbody |].
    intros a. simpl. apply returns_fact. intros ->. apply IH.
Qed.

End PyFacts.
Import PyFacts.

(* ================================================================== *)
(** * Properties of [TrainingMonitor]                                  *)
(* ================================================================== *)

Module MonitorFacts.
Import Monitor.

Lemma keeps_self_ret {A} (a : A) : keeps_self (ret a).
Proof. intros s. reflexivity. Qed.

Lemma keeps_self_raise {A} e : keeps_self (@raise state A e).
Proof. intros s. reflexivity. Qed.

Lemma keeps_self_gets {A} (f : state -> A) : keeps_self (gets f).
Proof. intros s. reflexivity. Qed.

Lemma keeps_self_lift {A} (r : result A) : keeps_self (lift_result r).
Proof. intros s. reflexivity. Qed.

Lemma keeps_self_bind {A B} (c : M state A) (k : A -> M state B) :
  keeps_self c -> (forall a, keeps_self (k a)) -> keeps_self (bind c k).
Proof.
  intros Hc Hk s. unfold bind.
  specialize (Hc s). destruct (c s) as [[a | e] s']; simpl in *.
  - rewrite Hk. exact Hc.
  - exact Hc.
Qed.

Lemma keeps_self_try {A} (c : M state A) (h : exn -> M state A) :
  keeps_self c -> (forall e, keeps_self (h e)) -> keeps_self (try_except c h).
Proof.
  intros Hc Hh s. unfold try_except.
  specialize (Hc s). destruct (c s) as [[a | e] s']; simpl in *.
  - exact Hc.
  - rewrite Hh. exact Hc.
Qed.

Lemma keeps_self_logger lv msg args : keeps_self (logger lv msg args).
Proof. intros s. reflexivity. Qed.

Lemma keeps_self_set_storage d : keeps_self (set_storage d).
Proof. intros s. reflexivity. Qed.

Lemma keeps_self_get_current_log : keeps_self get_current_log.
Proof. intros s. unfold get_current_log. destruct (current_log (self s)); reflexivity. Qed.

Lemma keeps_self_if {A} (b : bool) (c1 c2 : M state A) :
  keeps_self c1 -> keeps_self c2 -> keeps_self (if b then c1 else c2).
Proof. destruct b; auto. Qed.

Create HintDb keeps discriminated.
#[local] Hint Resolve keeps_self_ret keeps_self_raise keeps_self_gets keeps_self_lift
  keeps_self_logger keeps_self_set_storage keeps_self_get_current_log : keeps.
#[local] Hint Extern 2 (keeps_self (bind _ _)) => apply keeps_self_bind; [ | intros ] : keeps.
#[local] Hint Extern 2 (keeps_self (try_except _ _)) => apply keeps_self_try; [ | intros ] : keeps.
#[local] Hint Extern 2 (keeps_self (if _ then _ else _)) => apply keeps_self_if : keeps.

Lemma keeps_self_open_w n : keeps_self (open_w n).
Proof. unfold open_w. auto 10 with keeps. Qed.

Lemma keeps_self_save_log : keeps_self _save_log.
Proof. unfold _save_log. pose proof keeps_self_open_w. auto 10 with keeps. Qed.

Lemma keeps_self_plot_progress : keeps_self _plot_progress.
Proof. unfold _plot_progress. pose proof keeps_self_open_w. auto 10 with keeps. Qed.

(** ** [log_epoch] *)

Lemma update_log_run (f : training_log -> training_log) s l :
  current_log (self s) = Some l ->
  update_log f s =
  (Ok tt, mk_state (mk_monitor (log_dir (self s)) (Some (f l))) (storage s) (logged s)).
Proof.
  intros H. unfold update_log, bind, get_current_log. rewrite H. reflexivity.
Qed.

Lemma for_each_update_log kvs : forall s l,
  current_log (self s) = Some l ->
  for_each kvs (fun kv => update_log (append_metric kv)) s =
  (Ok tt, mk_state (mk_monitor (log_dir (self s))
                               (Some (fold_left (fun l kv => append_metric kv l) kvs l)))
                   (storage s) (logged s)).
Proof.
  induction kvs as [| kv t IH]; intros s l H; simpl.
  - unfold ret. destruct s as [[d c] st lg]; simpl in *. now subst.
  - unfold bind. rewrite (update_log_run _ s l H).
    erewrite IH by reflexivity. reflexivity.
Qed.

Lemma log_epoch_self epoch loss vm s l :
  current_log (self s) = Some l ->
  self (snd (log_epoch epoch loss vm s)) =
  mk_monitor (log_dir (self s)) (Some (logged_epoch epoch loss vm l)).
Proof.
  intros H. unfold log_epoch, try_except.
  unfold bind at 1. rewrite (update_log_run _ s l H).
  unfold bind at 1. erewrite update_log_run by reflexivity.
  unfold bind at 1. cbn [self log_dir storage logged].
  erewrite for_each_update_log by reflexivity.
  cbn [self log_dir storage logged].
  match goal with
  | |- context [bind _save_log ?k ?s0] =>
      assert (Hk : keeps_self (bind _save_log k));
      [ pose proof keeps_self_save_log; pose proof keeps_self_plot_progress;
        auto 10 with keeps
      | specialize (Hk s0); destruct (bind _save_log k s0) as [[a | e] s'] ]
  end; simpl in Hk.
  - simpl. rewrite Hk. reflexivity.
  - unfold bind, logger, modify, raise. simpl. rewrite Hk. reflexivity.
Qed.

Lemma append_metric_frame kv l :
  epochs (append_metric kv l) = epochs l /\
  train_loss (append_metric kv l) = train_loss l /\
  val_loss (append_metric kv l) = val_loss l /\
  keys (metrics (append_metric kv l)) = keys (metrics l).
Proof.
  unfold append_metric. destruct (get (fst kv) (metrics l)) eqn:H; simpl; auto.
  repeat split. eapply keys_set_present; eauto.
Qed.

Lemma append_metric_get kv l name :
  get name (metrics (append_metric kv l)) =
  option_map (fun series => series ++ (if String.eqb (fst kv) name then [snd kv] else []))
             (get name (metrics l)).
Proof.
  unfold append_metric. destruct (get (fst kv) (metrics l)) eqn:H; simpl.
  - rewrite get_set. rewrite (String.eqb_sym name).
    destruct (String.eqb (fst kv) name) eqn:E.
    + apply String.eqb_eq in E. subst name. rewrite H. reflexivity.
    + destruct (get name (metrics l)); simpl; [rewrite app_nil_r |]; reflexivity.
  - destruct (String.eqb (fst kv) name) eqn:E.
    + apply String.eqb_eq in E. subst name. rewrite H. reflexivity.
    + destruct (get name (metrics l)); simpl; [rewrite app_nil_r |]; reflexivity.
Qed.

Lemma fold_append_metric_frame kvs : forall l,
  let l' := fold_left (fun l kv => append_metric kv l) kvs l in
  epochs l' = epochs l /\ train_loss l' = train_loss l /\
  val_loss l' = val_loss l /\ keys (metrics l') = keys (metrics l).
Proof.
  induction kvs as [| kv t IH]; intros l; simpl.
  - auto.
  - destruct (IH (append_metric kv l)) as (A & B & C & D).
    destruct (append_metric_frame kv l) as (A' & B' & C' & D').
    repeat split; congruence.
Qed.

Lemma fold_append_metric_get name kvs : forall l,
  get name (metrics (fold_left (fun l kv => append_metric kv l) kvs l)) =
  option_map
    (fun series => series ++ map snd (filter (fun kv => String.eqb (fst kv) name) kvs))
    (get name (metrics l)).
Proof.
  induction kvs as [| kv t IH]; intros l; simpl.
  - destruct (get name (metrics l)); simpl; [rewrite app_nil_r |]; reflexivity.
  - rewrite IH, append_metric_get.
    destruct (get name (metrics l)) as [series |]; simpl; [| reflexivity].
    destruct (String.eqb (fst kv) name); simpl.
    + rewrite <- app_assoc. reflexivity.
    + rewrite app_nil_r. reflexivity.
Qed.

(** A dict reports at most one value under a name. *)
Lemma reported_dict name (m : dict Q) :
  NoDup (keys m) ->
  reported name (Some m) = match get name m with Some v => [v] | None => [] end.
Proof.
  unfold reported, metrics_given, items, keys.
  induction m as [| [k v] t IH]; simpl; intros Hnd.
  - reflexivity.
  - inversion Hnd as [| ? ? Hnotin Hnd']; subst.
    rewrite (String.eqb_sym name k).
    destruct (String.eqb k name) eqn:E; simpl.
    + apply String.eqb_eq in E. subst k. f_equal.
      assert (Hnone : get name t = None).
      { clear -Hnotin. induction t as [| [k' v'] t IH]; simpl in *; [reflexivity |].
        destruct (String.eqb name k') eqn:E.
        - apply String.eqb_eq in E. subst. tauto.
        - apply IH. tauto. }
      rewrite IH, Hnone by assumption. reflexivity.
    + apply IH. assumption.
Qed.

(** C1 (the code, evaluated): constructing a [TrainingMonitor] always
    raises.  Where the log directory exists or can be made, [__init__]
    reaches [self.reset_logs()], a name that neither the class nor the
    instance binds, so the call raises [AttributeError]; otherwise [mkdir]
    has raised already.  No current log is bound and nothing is written to
    the log file. *)
Theorem construct_raises (dir : string) (d : disk) (lg : list log_record) :
  fst (construct dir d lg) =
    Raise (if dir_exists d || writable d
           then AttributeError "reset_logs" else OSError dir)
  /\ current_log (self (snd (construct dir d lg))) = None
  /\ training_log_json (storage (snd (construct dir d lg))) = training_log_json d.
Proof.
  destruct d as [ex wr js png].
  destruct ex, wr; repeat split; reflexivity.
Qed.




Example log_epoch_accuracy_run :
  option_map metrics
    (current_log (self (snd (log_epoch 1 1 (Some [("accuracy", (1 # 2)%Q); ("bleu", (1 # 4)%Q)])
                                       (with_log accuracy_log)))))
  = Some [("accuracy", [(1 # 2)%Q])].
Proof. vm_compute. reflexivity. Qed.

(** ** [get_best_epoch] *)

(** The scan of [np.argmax], with its invariant: [seen] has been scanned,
    [best] is its element at [best_i], no element of [seen] is greater and
    every earlier one is smaller. *)
Lemma argmax_from_first_max (l : list Q) : forall (seen : list Q) (best : Q) (best_i : nat),
  best_i < List.length seen ->
  nth best_i seen 0%Q = best ->
  (forall j, j < List.length seen -> (nth j seen 0 <= best)%Q) ->
  (forall j, j < best_i -> (nth j seen 0 < best)%Q) ->
  let r := argmax_from best best_i (List.length seen) l in
  r < List.length (seen ++ l)
  /\ (forall j, j < List.length (seen ++ l) ->
                (nth j (seen ++ l) 0 <= nth r (seen ++ l) 0)%Q)
  /\ (forall j, j < r -> (nth j (seen ++ l) 0 < nth r (seen ++ l) 0)%Q).
Proof.
  induction l as [| x t IH]; intros seen best best_i Hlt Hbest Hmax Hfirst; simpl.
  - rewrite app_nil_r. rewrite Hbest. auto.
  - assert (Hlen : List.length (seen ++ [x]) = S (List.length seen))
      by (rewrite length_app; simpl; lia).
    assert (Hsplit : seen ++ x :: t = (seen ++ [x]) ++ t)
      by (rewrite <- app_assoc; reflexivity).
    destruct (Qle_bool x best) eqn:Hcmp.
    + apply Qle_bool_iff in Hcmp.
      rewrite Hsplit, <- Hlen. apply IH.
      * rewrite Hlen. lia.
      * rewrite app_nth1 by assumption. assumption.
      * intros j Hj. rewrite Hlen in Hj.
        destruct (Nat.eq_dec j (List.length seen)) as [-> | Hne].
        -- rewrite nth_middle. assumption.
        -- rewrite app_nth1 by lia. apply Hmax. lia.
      * intros j Hj. rewrite app_nth1 by lia. apply Hfirst. assumption.
    + assert (Hgt : (best < x)%Q).
      { apply Qnot_le_lt. intros Hle. apply Qle_bool_iff in Hle. congruence. }
      rewrite Hsplit, <- Hlen. apply IH.
      * rewrite Hlen. lia.
      * apply nth_middle.
      * intros j Hj. rewrite Hlen in Hj.
        destruct (Nat.eq_dec j (List.length seen)) as [-> | Hne].
        -- rewrite nth_middle. apply Qle_refl.
        -- rewrite app_nth1 by lia. apply Qlt_le_weak.
           eapply Qle_lt_trans; [apply Hmax; lia | exact Hgt].
      * intros j Hj. rewrite app_nth1 by lia.
        eapply Qle_lt_trans; [apply Hmax; lia | exact Hgt].
Qed.

Lemma np_argmax_first_max (x : Q) (t : list Q) :
  exists i, np_argmax (x :: t) = Ok i
    /\ i < List.length (x :: t)
    /\ (forall j, j < List.length (x :: t) -> (nth j (x :: t) 0 <= nth i (x :: t) 0)%Q)
    /\ (forall j, j < i -> (nth j (x :: t) 0 < nth i (x :: t) 0)%Q).
Proof.
  exists (argmax_from x 0 1 t). split; [reflexivity |].
  apply (argmax_from_first_max t [x] x 0); simpl.
  - lia.
  - reflexivity.
  - intros j Hj. assert (j = 0) by lia. subst. apply Qle_refl.
  - intros j Hj. lia.
Qed.

(** C3: [get_best_epoch(metric)] returns [-1] when the metric has no
    recorded values (no series under that name, or an empty one);
    otherwise it returns [i + 1] for the least index [i] at which the
    series is greatest: no value of the series exceeds the one at [i], and
    every value before [i] is smaller.  The state is left as it is. *)
Theorem get_best_epoch_first_max (metric : string) (s : state) (l : training_log) :
  current_log (self s) = Some l ->
  match get metric (metrics l) with
  | None | Some [] => get_best_epoch metric s = (Ok (-1)%Z, s)
  | Some series =>
      exists i,
        get_best_epoch metric s = (Ok (Z.of_nat i + 1)%Z, s)
        /\ i < List.length series
        /\ (forall j, j < List.length series -> (nth j series 0 <= nth i series 0)%Q)
        /\ (forall j, j < i -> (nth j series 0 < nth i series 0)%Q)
  end.
Proof.
  intros H. unfold get_best_epoch, bind, get_current_log. rewrite H.
  destruct (get metric (metrics l)) as [[| x t] |]; try reflexivity.
  destruct (np_argmax_first_max x t) as (i & Hrun & Hi & Hmax & Hfirst).
  exists i. unfold lift_result. rewrite Hrun. auto.
Qed.

(** The series of the specification, [0.5, 0.9, 0.9, 0.3], under ["accuracy"]. *)
Lemma get_best_epoch_first_max_witness :
  exists i,
    get_best_epoch "accuracy" (with_log (mk_log [] [] [] [("accuracy", spec_series)]))
    = (Ok (Z.of_nat i + 1)%Z, with_log (mk_log [] [] [] [("accuracy", spec_series)]))
    /\ i < List.length spec_series
    /\ (forall j, j < List.length spec_series -> (nth j spec_series 0 <= nth i spec_series 0)%Q)
    /\ (forall j, j < i -> (nth j spec_series 0 < nth i spec_series 0)%Q).
Proof.
  exact (get_best_epoch_first_max "accuracy"
           (with_log (mk_log [] [] [] [("accuracy", spec_series)]))
           (mk_log [] [] [] [("accuracy", spec_series)]) eq_refl).
Defined.

(** The series of the specification, [0.5, 0.9, 0.9, 0.3], has its best
    epoch at 2; a name without a series, or with an empty one, gives -1. *)
Example get_best_epoch_examples :
  fst (get_best_epoch "accuracy" (with_log (mk_log [] [] [] [("accuracy", spec_series)])))
    = Ok 2%Z
  /\ fst (get_best_epoch "accuracy" (with_log untracked_log)) = Ok (-1)%Z
  /\ fst (get_best_epoch "accuracy" (with_log accuracy_log)) = Ok (-1)%Z.
Proof. vm_compute. repeat split; reflexivity. Qed.

(** ** When [log_epoch] returns *)

Lemma in_get_unique {V} (k : string) (v : V) (d : dict V) :
  NoDup (keys d) -> In (k, v) d -> get k d = Some v.
Proof.
  unfold keys. induction d as [| [k' v'] t IH]; simpl; intros Hnd Hin.
  - contradiction.
  - inversion Hnd as [| ? ? Hnotin Hnd']; subst.
    destruct Hin as [Heq | Hin].
    + inversion Heq; subst. rewrite String.eqb_refl. reflexivity.
    + destruct (String.eqb k k') eqn:E; [| apply IH; assumption].
      apply String.eqb_eq in E. subst. exfalso. apply Hnotin.
      change k' with (fst (k', v)). apply in_map. assumption.
Qed.

Lemma logged_epoch_fields epoch loss vm l :
  epochs (logged_epoch epoch loss vm l) = epochs l ++ [epoch]
  /\ train_loss (logged_epoch epoch loss vm l) = train_loss l ++ [loss]
  /\ val_loss (logged_epoch epoch loss vm l) = val_loss l
  /\ keys (metrics (logged_epoch epoch loss vm l)) = keys (metrics l)
  /\ forall name,
       get name (metrics (logged_epoch epoch loss vm l)) =
       option_map (fun series => series ++ reported name vm) (get name (metrics l)).
Proof.
  unfold logged_epoch.
  destruct (fold_append_metric_frame (metrics_given vm)
              (append_train_loss loss (append_epoch epoch l))) as (A & B & D & E).
  repeat split; try assumption.
  intros name. rewrite fold_append_metric_get. reflexivity.
Qed.

Lemma logged_epoch_aligned n epoch loss (m : dict Q) l :
  aligned n l ->
  NoDup (keys m) ->
  (forall k, In k (keys (metrics l)) -> exists v, get k m = Some v) ->
  aligned (S n) (logged_epoch epoch loss (Some m) l).
Proof.
  intros (He & Ht & Hv & Hnd & Hall) Hm Hrep.
  destruct (logged_epoch_fields epoch loss (Some m) l) as (A & B & D & E & G).
  unfold aligned. rewrite A, B, D, E, !length_app, He, Ht. simpl.
  repeat split; try lia; try assumption.
  rewrite Forall_forall in *. intros [k series'] Hin. simpl.
  assert (Hget : get k (metrics (logged_epoch epoch loss (Some m) l)) = Some series')
    by (apply in_get_unique; [rewrite E |]; assumption).
  rewrite G in Hget.
  destruct (get k (metrics l)) as [series |] eqn:Hold; [| discriminate].
  simpl in Hget. inversion Hget; subst series'.
  destruct (Hrep k (get_key _ _ _ Hold)) as (v & Hv').
  rewrite (reported_dict k m Hm), Hv', length_app. simpl.
  pose proof (Hall _ (get_In _ _ _ Hold)) as Hlen. simpl in Hlen. lia.
Qed.

Lemma plot_metrics_aligned (x : list Z) (ms : list (string * list Q)) :
  Forall (fun kv => List.length (snd kv) = List.length x) ms ->
  exists lns, plot_metrics x ms = Ok lns.
Proof.
  induction ms as [| [k vals] t IH]; simpl; intros H.
  - eexists. reflexivity.
  - inversion H as [| ? ? Hk Ht]; subst. simpl in Hk.
    destruct (IH Ht) as (lns & Hl). rewrite Hl.
    destruct (truthy vals); [| eexists; reflexivity].
    unfold plt_plot. rewrite Hk, Nat.eqb_refl. eexists. reflexivity.
Qed.

Lemma draw_aligned n l : aligned n l -> exists fig, draw l = Ok fig.
Proof.
  intros (He & Ht & Hv & Hnd & Hall). unfold draw, plt_plot.
  rewrite He, Ht, Nat.eqb_refl, Hv. simpl.
  destruct (plot_metrics_aligned (epochs l) (metrics l)) as (lns & Hl).
  { rewrite He. assumption. }
  unfold items. rewrite Hl. eexists. reflexivity.
Qed.

(** With a usable log directory and a log that stays aligned, [log_epoch]
    returns, the log is the one before with the epoch added, and it has
    been written to the log file. *)
Lemma log_epoch_returns n epoch loss (m : dict Q) s l :
  current_log (self s) = Some l ->
  usable (storage s) ->
  aligned n l ->
  NoDup (keys m) ->
  (forall k, In k (keys (metrics l)) -> exists v, get k m = Some v) ->
  exists s',
    log_epoch epoch loss (Some m) s = (Ok tt, s')
    /\ current_log (self s') = Some (logged_epoch epoch loss (Some m) l)
    /\ usable (storage s')
    /\ training_log_json (storage s') = Some (logged_epoch epoch loss (Some m) l)
    /\ aligned (S n) (logged_epoch epoch loss (Some m) l).
Proof.
  intros Hlog [Hex Hwr] Hal Hm Hrep.
  pose proof (logged_epoch_aligned n epoch loss m l Hal Hm Hrep) as Hal'.
  destruct (draw_aligned _ _ Hal') as (fig & Hfig).
  destruct s as [[dir cl] [ex wr js png] lg]. simpl in *. subst.
  unfold log_epoch, try_except.
  unfold bind at 1. erewrite update_log_run by reflexivity.
  unfold bind at 1. erewrite update_log_run by reflexivity.
  unfold bind at 1. cbn [self log_dir storage logged].
  erewrite for_each_update_log by reflexivity.
  cbn [self log_dir storage logged].
  change (fold_left _ (metrics_given (Some m)) _) with (logged_epoch epoch loss (Some m) l).
  remember (logged_epoch epoch loss (Some m) l) as l' eqn:Hl'.
  unfold _save_log, _plot_progress, open_w, logger, set_storage, get_current_log.
  unfold bind, gets, modify, lift_result, ret. simpl.
  rewrite Hfig. simpl.
  eexists. split; [reflexivity |]. simpl. unfold usable. simpl. auto.
Qed.

(** [get_best_epoch] returns whenever there is a current log, and changes
    nothing. *)
Lemma get_best_epoch_returns metric s l :
  current_log (self s) = Some l ->
  exists z, get_best_epoch metric s = (Ok z, s).
Proof.
  intros H. unfold get_best_epoch, bind, get_current_log. rewrite H.
  destruct (get metric (metrics l)) as [[| x t] |];
    eexists; reflexivity.
Qed.

Lemma fresh_log_keys tracked : keys (metrics (fresh_log tracked)) = tracked.
Proof.
  unfold fresh_log, keys. simpl. rewrite map_map. simpl. apply map_id.
Qed.

Lemma fresh_log_get tracked k :
  In k tracked -> get k (metrics (fresh_log tracked)) = Some [].
Proof.
  unfold fresh_log. simpl. induction tracked as [| x t IH]; simpl; intros H.
  - contradiction.
  - destruct (String.eqb k x) eqn:E; [reflexivity |].
    destruct H as [-> | H]; [rewrite String.eqb_refl in E; discriminate | auto].
Qed.

Lemma fresh_log_aligned tracked : NoDup tracked -> aligned 0 (fresh_log tracked).
Proof.
  intros H. unfold aligned. rewrite fresh_log_keys.
  repeat split; try assumption; try reflexivity.
  unfold fresh_log. simpl. apply Forall_forall. intros kv Hin.
  apply in_map_iff in Hin. destruct Hin as (k & <- & _). reflexivity.
Qed.

End MonitorFacts.

(* ================================================================== *)
(** * Properties of [Sin]                                              *)
(* ================================================================== *)

Module SinFacts.
Import Sin.

Section Facts.
Context {C : Collaborators}.

(** ** [evaluate] *)

(** C9: on a falsy dataset argument ([None], or a dataset of length 0)
    [evaluate] returns the empty mapping and leaves the whole state as it
    is, the record of the calls made to the evaluator included; on any
    other argument it makes exactly one call to the evaluator, with that
    dataset and sample size, and returns what the evaluator returns. *)
Theorem evaluate_calls_evaluator_iff_nonempty
    (d : option (dataset sample)) (sample_size : Z) (s : state) :
  (nonempty d = false -> evaluate d sample_size s = (Ok [], s))
  /\ (nonempty d = true ->
      exists ds, d = Some ds
        /\ evaluator_calls (snd (evaluate d sample_size s))
           = evaluator_calls s ++ [(ds, sample_size)]
        /\ fst (evaluate d sample_size s)
           = fst (evaluate_dataset ds sample_size (model s))).
Proof.
  unfold evaluate. split; intros H; rewrite H; simpl.
  - reflexivity.
  - destruct d as [ds |]; [| discriminate]. exists ds.
    unfold bind, record_call, modify, on_model. simpl.
    destruct (evaluate_dataset ds sample_size (model s)) as [r b].
    repeat split; reflexivity.
Qed.

(** ** [chat] *)

Lemma fallback_message_nonempty : fallback_message <> "".
Proof. discriminate. Qed.

Lemma error_message_nonempty : error_message <> "".
Proof. discriminate. Qed.

(** Splits a hypothesis on the run of a [bind] into the runs of its parts;
    a part that raises cannot lead to a returned value. *)
Ltac run_bind H :=
  match type of H with
  | bind ?c ?k ?s = (Ok _, _) =>
      let r := fresh "r" in
      let s1 := fresh "s" in
      let E := fresh "E" in
      unfold bind at 1 in H;
      destruct (c s) as [r s1] eqn:E;
      destruct r; [| discriminate H]
  end.

Lemma split_from_nonempty (sep x : string) : forall skip cur,
  split_from sep skip cur x <> [].
Proof.
  induction x as [| c x IH]; intros skip cur; simpl; [discriminate |].
  destruct skip as [| k]; [| apply IH].
  destruct (startswith sep (String c x)); [discriminate | apply IH].
Qed.

Lemma last_item_nonempty {A} (l : list A) (d : A) :
  l <> [] -> last_item l = Ok (last l d).
Proof.
  intros H. unfold last_item.
  rewrite (app_removelast_last d H) at 1. rewrite rev_unit. reflexivity.
Qed.

Lemma first_item_nonempty {A} (l : list A) (d : A) :
  l <> [] -> first_item l = Ok (hd d l).
Proof. destruct l; [contradiction | reflexivity]. Qed.

(** C10: for every user input and every state of the collaborators,
    [chat] returns (it raises nothing) and the string it returns is not
    empty.  It is the fixed error message when recording the input in the
    memory, generating the response or recording the cleaned response
    raises; otherwise it is the cleaned response, or the fixed fallback
    message when the cleaned response is empty. *)
Theorem chat_returns_nonempty (user_input : string) (s : state) :
  exists (r : string) (s' : state),
    chat user_input s = (Ok r, s') /\ r <> ""
    /\ r = match add_interaction user_input "" (mem s) with
           | (Raise _, _) => error_message
           | (Ok _, m1) =>
               match generate_response (prompt_of (context m1)) (model s) with
               | (Raise _, _) => error_message
               | (Ok response, _) =>
                   match add_interaction user_input (cleaned response) m1 with
                   | (Raise _, _) => error_message
                   | (Ok _, _) =>
                       if String.eqb (cleaned response) "" then fallback_message
                       else cleaned response
                   end
               end
           end.
Proof.
  unfold chat, try_except, bind, logger, modify, on_memory, on_model, gets,
    lift_result, ret, prompt_of, cleaned.
  cbn [model mem monitor evaluator_calls models_dir logged].
  destruct (add_interaction user_input "" (mem s)) as [[[] | e1] m1].
  2: { eexists. eexists. split; [reflexivity |].
       split; [apply error_message_nonempty | reflexivity]. }
  cbn [model mem monitor evaluator_calls models_dir logged].
  destruct (generate_response _ (model s)) as [[response | e2] b1].
  2: { eexists. eexists. split; [reflexivity |].
       split; [apply error_message_nonempty | reflexivity]. }
  cbn [model mem monitor evaluator_calls models_dir logged].
  rewrite (last_item_nonempty (split "Sin:" response) ""%string)
    by apply split_from_nonempty.
  rewrite (first_item_nonempty (split (bytes [10]) _) ""%string)
    by apply split_from_nonempty.
  destruct (add_interaction user_input _ m1) as [[[] | e3] m2].
  2: { eexists. eexists. split; [reflexivity |].
       split; [apply error_message_nonempty | reflexivity]. }
  eexists. eexists. split; [reflexivity |]. split; [| reflexivity].
  match goal with |- (if String.eqb ?x "" then _ else _) <> _ =>
    destruct (String.eqb x "") eqn:Hx
  end.
  - apply fallback_message_nonempty.
  - apply String.eqb_neq in Hx. exact Hx.
Qed.

(** ** [compare_models] *)

(** C4 (the code, evaluated): [compare_models] keeps the object that
    [state_dict()] returned before the first load and loads it back before
    it returns or re-raises, but it takes no copy of that object.  Where
    [state_dict()] hands out the live tensors of the model, as that of a
    [torch.nn.Module] does, loading the object back changes nothing: on the
    normal path and on the exception path alike, the call leaves the model
    with the parameters that the loop over the paths left, which are those
    of the last file loaded, not the ones held before the call. *)
Theorem compare_models_restore_is_void
    (model_paths : list string) (test_dataset : option (dataset sample)) (s : state) :
  by_reference ->
  model (snd (compare_models model_paths test_dataset s))
  = model (snd (fold_m (compare_one test_dataset) model_paths [] s)).
Proof.
  intros [Hsame Hself].
  assert (Hload : forall s1 : state,
            on_model (load_state_dict (state_dict (model s))) s1 = (Ok tt, s1)).
  { intros s1. unfold on_model. rewrite (Hsame (model s) (model s1)), Hself.
    destruct s1; reflexivity. }
  unfold compare_models. unfold bind at 1. unfold gets at 1.
  unfold try_except. unfold bind at 1.
  destruct (fold_m (compare_one test_dataset) model_paths [] s) as [[results | e] s1].
  - unfold bind at 1. rewrite Hload.
    match goal with |- context [if ?b then _ else _] => destruct b end.
    + unfold lift_result.
      destruct (add_improvements results (keys results)) as [final | e]; [reflexivity |].
      unfold bind. rewrite Hload. reflexivity.
    + reflexivity.
  - unfold bind. rewrite Hload. reflexivity.
Qed.

(** ** [_load_all_datasets] *)

Lemma add_logged_nil (s : state) : add_logged [] s = s.
Proof. destruct s. unfold add_logged. simpl. rewrite app_nil_r. reflexivity. Qed.

Lemma add_logged_app (a b : list log_record) (s : state) :
  add_logged b (add_logged a s) = add_logged (a ++ b) s.
Proof. unfold add_logged. simpl. rewrite app_assoc. reflexivity. Qed.

(** One turn of the loop: it never raises; a file that loads adds its
    dataset, one that fails adds an error record and nothing else. *)
Lemma load_file_run (datasets : list (dataset sample)) (filename : string) (s : state) :
  load_file datasets filename s =
  (Ok (datasets ++ successes [filename]), add_logged (failures [filename]) s).
Proof.
  unfold load_file, successes, failures, attempt. simpl.
  unfold try_except, bind, lift_result, ret.
  destruct (endswith ".json" filename).
  - destruct (json_load _) as [data | e]; simpl.
    + destruct (json_contains "dialogues" data) as [[|] | e]; simpl.
      * destruct (load_json_data _) as [d | e]; simpl;
          rewrite ?add_logged_nil, ?app_nil_r; reflexivity.
      * rewrite add_logged_nil, app_nil_r. reflexivity.
      * rewrite app_nil_r. reflexivity.
    + rewrite app_nil_r. reflexivity.
  - destruct (endswith ".txt" filename).
    + destruct (load_text_data _) as [d | e]; simpl;
        rewrite ?add_logged_nil, ?app_nil_r; reflexivity.
    + simpl. rewrite add_logged_nil, app_nil_r. reflexivity.
Qed.

Lemma successes_app (a b : list string) : successes (a ++ b) = successes a ++ successes b.
Proof. unfold successes. apply flat_map_app. Qed.

Lemma failures_app (a b : list string) : failures (a ++ b) = failures a ++ failures b.
Proof. unfold failures. apply flat_map_app. Qed.

Lemma successes_cons (f : string) (t : list string) :
  successes (f :: t) = successes [f] ++ successes t.
Proof. apply (successes_app [f] t). Qed.

Lemma failures_cons (f : string) (t : list string) :
  failures (f :: t) = failures [f] ++ failures t.
Proof. apply (failures_app [f] t). Qed.

Lemma load_files_run (filenames : list string) : forall (datasets : list (dataset sample)) (s : state),
  fold_m load_file filenames datasets s =
  (Ok (datasets ++ successes filenames), add_logged (failures filenames) s).
Proof.
  induction filenames as [| f t IH]; intros datasets s.
  - simpl. unfold ret. rewrite add_logged_nil, app_nil_r. reflexivity.
  - rewrite (successes_cons f t), (failures_cons f t).
    cbn [fold_m]. unfold bind. rewrite load_file_run, IH.
    rewrite add_logged_app, <- app_assoc. reflexivity.
Qed.

Lemma load_all_datasets_run (filenames : list string) (s : state) :
  listdir conversations_dir = Ok filenames ->
  _load_all_datasets s =
  (Ok (match successes filenames with
       | [] => None
       | ds => Some (ConcatDataset ds)
       end),
   add_logged (failures filenames) s).
Proof.
  intros H. unfold _load_all_datasets, bind, lift_result. rewrite H.
  rewrite load_files_run. simpl.
  destruct (successes filenames); reflexivity.
Qed.

(** C7: aggregation over the conversations directory never raises on
    account of a file.  It returns [None] exactly when no file loaded;
    otherwise it returns the [ConcatDataset] of the datasets of the files
    that loaded, in directory order.  A file whose reading or loading
    raises contributes an error record that names it and is otherwise as
    if it were not in the directory: the files before and after it are
    aggregated all the same. *)
Theorem load_all_datasets_isolates_failures (filenames : list string) (s : state) :
  listdir conversations_dir = Ok filenames ->
  _load_all_datasets s =
    (Ok (match successes filenames with
         | [] => None
         | ds => Some (ConcatDataset ds)
         end),
     add_logged (failures filenames) s)
  /\ (fst (_load_all_datasets s) = Ok None <-> successes filenames = [])
  /\ (forall before f after e,
        filenames = before ++ f :: after ->
        attempt f = Raise e ->
        successes filenames = successes before ++ successes after
        /\ failures filenames
           = failures before ++ (ERROR, "Error loading {}: {}", [f; str_exn e])
                                :: failures after).
Proof.
  intros H. rewrite (load_all_datasets_run filenames s H). split; [reflexivity |]. split.
  - simpl. destruct (successes filenames); split; intros E;
      try reflexivity; discriminate.
  - intros before f after e -> Hf.
    rewrite successes_app, failures_app, successes_cons, failures_cons.
    unfold successes at 2, failures at 2. simpl. rewrite Hf. simpl.
    split; reflexivity.
Qed.

(** ** [_cleanup_old_models] *)

Lemma insert_desc_perm (x : dir_entry) (l : list dir_entry) :
  Permutation (insert_desc st_mtime x l) (x :: l).
Proof.
  induction l as [| y t IH]; simpl.
  - apply Permutation_refl.
  - destruct (Qle_bool (st_mtime y) (st_mtime x)).
    + apply Permutation_refl.
    + eapply Permutation_trans; [apply perm_skip, IH | apply perm_swap].
Qed.

Lemma sorted_desc_perm (l : list dir_entry) : Permutation (sorted_desc st_mtime l) l.
Proof.
  induction l as [| x t IH]; simpl.
  - apply Permutation_refl.
  - eapply Permutation_trans; [apply insert_desc_perm | apply perm_skip, IH].
Qed.

Lemma insert_desc_sorted (x : dir_entry) (l : list dir_entry) :
  newest_first l -> newest_first (insert_desc st_mtime x l).
Proof.
  unfold newest_first. induction l as [| y t IH]; simpl; intros Hs.
  - constructor; constructor.
  - apply StronglySorted_inv in Hs. destruct Hs as [Ht Hy].
    destruct (Qle_bool (st_mtime y) (st_mtime x)) eqn:Hcmp.
    + apply Qle_bool_iff in Hcmp.
      constructor; [constructor; assumption |].
      constructor; [assumption |].
      rewrite Forall_forall in *. intros z Hz.
      eapply Qle_trans; [apply Hy; assumption | assumption].
    + assert (Hlt : (st_mtime x < st_mtime y)%Q).
      { apply Qnot_le_lt. intros Hle. apply Qle_bool_iff in Hle. congruence. }
      constructor; [apply IH; assumption |].
      rewrite Forall_forall in *. intros z Hz.
      apply (Permutation_in _ (insert_desc_perm x t)) in Hz.
      destruct Hz as [<- | Hz]; [apply Qlt_le_weak; assumption | apply Hy; assumption].
Qed.

Lemma sorted_desc_sorted (l : list dir_entry) : newest_first (sorted_desc st_mtime l).
Proof.
  induction l as [| x t IH]; simpl.
  - constructor.
  - apply insert_desc_sorted. assumption.
Qed.

Lemma newest_first_split (l1 l2 : list dir_entry) :
  newest_first (l1 ++ l2) ->
  forall k o, In k l1 -> In o l2 -> (st_mtime o <= st_mtime k)%Q.
Proof.
  unfold newest_first. induction l1 as [| a t IH]; simpl; intros Hs k o Hk Ho.
  - contradiction.
  - apply StronglySorted_inv in Hs. destruct Hs as [Ht Ha].
    destruct Hk as [<- | Hk].
    + rewrite Forall_forall in Ha. apply Ha. apply in_or_app. right. assumption.
    + eapply IH; eassumption.
Qed.

Lemma filter_twice {A} (f g : A -> bool) (l : list A) :
  filter f (filter g l) = filter (fun x => g x && f x) l.
Proof.
  induction l as [| x t IH]; simpl; [reflexivity |].
  destruct (g x); simpl; [destruct (f x) |]; rewrite IH; reflexivity.
Qed.

Lemma filter_all {A} (l : list A) : filter (fun _ => true) l = l.
Proof. induction l as [| x t IH]; simpl; [| rewrite IH]; reflexivity. Qed.

(** The loop over the old models: it never raises; it removes the entries
    that can be unlinked, and writes one record for each old model. *)
Lemma remove_all_run (old : list dir_entry) : forall s : state,
  for_each old remove_old s =
  (Ok tt,
   mk_state (model s) (mem s) (monitor s) (evaluator_calls s)
            (filter (fun f => negb (removed_by old f)) (models_dir s))
            (logged s ++ map removal_record old)).
Proof.
  induction old as [| o t IH]; intros s; simpl.
  - unfold ret. destruct s; simpl. rewrite filter_all, app_nil_r. reflexivity.
  - unfold bind at 1. unfold remove_old at 1, try_except, bind, unlink, removal_record.
    destruct (unlink_error o) as [e |] eqn:Herr; simpl.
    + rewrite IH. simpl. rewrite <- app_assoc. simpl.
      do 2 f_equal. apply filter_ext. intros f.
      rewrite andb_false_r. reflexivity.
    + rewrite IH. simpl. rewrite <- app_assoc. simpl.
      do 2 f_equal. rewrite filter_twice. apply filter_ext. intros f.
      rewrite andb_true_r, negb_orb. reflexivity.
Qed.

Lemma same_name_same_entry (l : list dir_entry) :
  NoDup (map name l) ->
  forall a b, In a l -> In b l -> name a = name b -> a = b.
Proof.
  induction l as [| x t IH]; simpl; intros Hnd a b Ha Hb Hn.
  - contradiction.
  - inversion Hnd as [| ? ? Hnotin Hnd']; subst.
    destruct Ha as [<- | Ha], Hb as [<- | Hb].
    + reflexivity.
    + exfalso. apply Hnotin. rewrite Hn. apply in_map. assumption.
    + exfalso. apply Hnotin. rewrite <- Hn. apply in_map. assumption.
    + apply IH; assumption.
Qed.

Lemma candidates_In (dir : list dir_entry) (f : dir_entry) :
  In f (candidates dir) <->
  In f dir /\ is_file f = true /\ endswith ".pt" (name f) = true.
Proof.
  unfold candidates, glob_pt. split.
  - intros H. apply (Permutation_in _ (sorted_desc_perm _)) in H.
    apply filter_In in H. destruct H as [H Hfile].
    apply filter_In in H. tauto.
  - intros (Hin & Hfile & Hpt).
    apply (Permutation_in _ (Permutation_sym (sorted_desc_perm _))).
    apply filter_In. split; [| assumption].
    apply filter_In. tauto.
Qed.

Lemma candidates_NoDup (dir : list dir_entry) :
  NoDup (map name dir) -> NoDup (candidates dir).
Proof.
  intros H. unfold candidates, glob_pt.
  apply (Permutation_NoDup (Permutation_sym (sorted_desc_perm _))).
  apply NoDup_filter, NoDup_filter. eapply NoDup_map_inv. eassumption.
Qed.

Lemma NoDup_app_disjoint {A} (l1 l2 : list A) (x : A) :
  NoDup (l1 ++ l2) -> In x l1 -> ~ In x l2.
Proof.
  induction l1 as [| a t IH]; simpl; intros Hnd H1 H2.
  - contradiction.
  - inversion Hnd as [| ? ? Hnotin Hnd']; subst.
    destruct H1 as [-> | H1].
    + apply Hnotin. apply in_or_app. right. assumption.
    + apply (IH Hnd' H1 H2).
Qed.

Lemma removed_by_iff (old : list dir_entry) (f : dir_entry) :
  removed_by old f = true <->
  exists o, In o old /\ name f = name o /\ unlink_error o = None.
Proof.
  unfold removed_by. rewrite existsb_exists. split.
  - intros (o & Ho & H). apply andb_true_iff in H. destruct H as [Hn He].
    exists o. apply String.eqb_eq in Hn. destruct (unlink_error o); [discriminate | auto].
  - intros (o & Ho & Hn & He). exists o. split; [assumption |].
    rewrite He, andb_true_r. apply String.eqb_eq. assumption.
Qed.

(** C6 (amended): pruning with [max_models >= 0] ranks every regular
    [*.pt] file of the models directory, the canonical [sin_model.pt]
    among them, by modification time, keeps the [max_models] most recently
    modified and tries to delete each of the others.  A deletion that
    fails is logged and skipped: the loop goes on, never raises, and in
    the end the directory has lost exactly the old files that could be
    deleted. *)
Theorem cleanup_keeps_newest_pt_files (max_models : Z) (s : state) :
  (0 <= max_models)%Z ->
  NoDup (map name (models_dir s)) ->
  let models := candidates (models_dir s) in
  let kept := firstn (Z.to_nat max_models) models in
  let old := skipn (Z.to_nat max_models) models in
  let s' := snd (_cleanup_old_models max_models s) in
  fst (_cleanup_old_models max_models s) = Ok tt
  /\ (forall f, In f models <->
                In f (models_dir s) /\ is_file f = true /\ endswith ".pt" (name f) = true)
  /\ List.length kept = Nat.min (Z.to_nat max_models) (List.length models)
  /\ (forall k o, In k kept -> In o old -> (st_mtime o <= st_mtime k)%Q)
  /\ (forall k, In k kept -> In k (models_dir s'))
  /\ (forall f, In f (models_dir s') <->
                In f (models_dir s) /\ ~ (In f old /\ unlink_error f = None))
  /\ logged s' = logged s ++ map removal_record old.
Proof.
  intros Hmax Hnd models kept old s'.
  assert (Hrun : _cleanup_old_models max_models s =
                 (Ok tt,
                  mk_state (model s) (mem s) (monitor s) (evaluator_calls s)
                           (filter (fun f => negb (removed_by old f)) (models_dir s))
                           (logged s ++ map removal_record old))).
  { unfold _cleanup_old_models, bind, gets, slice_from.
    destruct (max_models <? 0)%Z eqn:Hneg; [apply Z.ltb_lt in Hneg; lia |].
    apply remove_all_run. }
  subst s'. rewrite Hrun. simpl.
  split; [reflexivity |].
  split; [intros f; apply candidates_In |].
  split; [apply length_firstn |].
  split.
  { apply newest_first_split. subst kept old. rewrite firstn_skipn.
    apply sorted_desc_sorted. }
  assert (Hgone : forall f,
            In f (filter (fun f => negb (removed_by old f)) (models_dir s)) <->
            In f (models_dir s) /\ ~ (In f old /\ unlink_error f = None));
    [| split; [| split; [exact Hgone | reflexivity]]].
  2: { intros k Hk. apply Hgone.
       assert (Hm : In k models)
         by (rewrite <- (firstn_skipn (Z.to_nat max_models) models);
             apply in_or_app; left; exact Hk).
       split; [apply candidates_In in Hm; tauto |].
       intros [Hold _]. revert Hold. apply (NoDup_app_disjoint kept old); [| exact Hk].
       subst kept old. rewrite firstn_skipn. apply candidates_NoDup. exact Hnd. }
  intros f. rewrite filter_In, negb_true_iff. split.
  - intros [Hin Hrem]. split; [assumption |].
    intros [Hold Herr].
    assert (removed_by old f = true) as Hyes; [| congruence].
    apply removed_by_iff. exists f. auto.
  - intros [Hin Hnot]. split; [assumption |].
    destruct (removed_by old f) eqn:Hrem; [| reflexivity].
    exfalso. apply removed_by_iff in Hrem. destruct Hrem as (o & Ho & Hn & He).
    assert (Ho' : In o (models_dir s)).
    { assert (In o models) as Hm
        by (rewrite <- (firstn_skipn (Z.to_nat max_models) models);
            apply in_or_app; right; exact Ho).
      apply candidates_In in Hm. tauto. }
    assert (f = o) by (eapply same_name_same_entry; eassumption).
    subst o. apply Hnot. auto.
Qed.

(** ** The improvements of [compare_models] *)

Lemma differences_run (base : dict value) (ms : list (string * value)) :
  forall (acc imp : dict Q),
  NoDup (keys ms) ->
  differences base ms acc = Ok imp ->
  differences_of base ms imp
  /\ (forall k, ~ In k (keys ms) -> get k imp = get k acc).
Proof.
  unfold differences_of.
  induction ms as [| [k0 v0] rest IH]; intros acc imp Hnd Hrun; simpl in *.
  - inversion Hrun; subst. split; [intros k [] | reflexivity].
  - inversion Hnd as [| ? ? Hnotin Hnd']; subst.
    unfold getitem in Hrun.
    destruct (get k0 base) as [b0 |] eqn:Hb; [| discriminate].
    destruct v0 as [a | ?], b0 as [b | ?]; simpl in Hrun; try discriminate.
    destruct (IH _ _ Hnd' Hrun) as [Hin Hout]. split.
    + intros k Hk. destruct (String.eqb k k0) eqn:E.
      * apply String.eqb_eq in E. subst k. exists a, b.
        repeat split; [assumption |].
        rewrite (Hout k0 Hnotin), get_set, String.eqb_refl. reflexivity.
      * destruct Hk as [Hk | Hk].
        -- subst. rewrite String.eqb_refl in E. discriminate.
        -- apply Hin. assumption.
    + intros k Hk. rewrite Hout by tauto. rewrite get_set.
      destruct (String.eqb k k0) eqn:E; [| reflexivity].
      apply String.eqb_eq in E. subst. tauto.
Qed.

(** The turns of the loop after the first: the first entry [(n0, base)] is
    what every later turn reads its baseline from, and no turn touches it. *)
Lemma add_improvements_rest (n0 : string) (base : dict value) (names : list string) :
  forall (cur final : dict (dict value)),
  add_improvements ((n0, base) :: cur) names = Ok final ->
  ~ In n0 names ->
  NoDup names ->
  (forall n, In n names -> exists m, get n cur = Some m /\ NoDup (keys m)) ->
  exists cur',
    final = (n0, base) :: cur'
    /\ (forall n, ~ In n names -> get n cur' = get n cur)
    /\ (forall n, In n names ->
          exists m imp, get n cur = Some m
            /\ get n cur' = Some (set "improvement" (Mapping imp) m)
            /\ differences_of base m imp).
Proof.
  induction names as [| n rest IH]; intros cur final Hrun Hn0 Hnd Hwf; simpl in Hrun.
  - inversion Hrun; subst. exists cur. repeat split; auto. intros n [].
  - inversion Hnd as [| ? ? Hnotin Hnd']; subst.
    assert (Hne : String.eqb n n0 = false).
    { apply String.eqb_neq. intros ->. apply Hn0. left. reflexivity. }
    destruct (Hwf n (or_introl eq_refl)) as (m & Hm & Hmnd).
    unfold add_improvement in Hrun. simpl in Hrun.
    unfold getitem in Hrun. simpl in Hrun. rewrite Hne, Hm in Hrun.
    destruct (differences base (items m) []) as [imp |] eqn:Hdiff; [| discriminate].
    simpl in Hrun.
    destruct (differences_run base m [] imp Hmnd Hdiff) as [Hspec _].
    destruct (IH (set n (set "improvement" (Mapping imp) m) cur) final Hrun)
      as (cur' & Hfinal & Hout & Hin).
    + intros H. apply Hn0. right. assumption.
    + assumption.
    + intros x Hx. destruct (Hwf x (or_intror Hx)) as (mx & Hmx & Hndx).
      exists mx. split; [| assumption].
      rewrite get_set. destruct (String.eqb x n) eqn:E; [| assumption].
      apply String.eqb_eq in E. subst. contradiction.
    + exists cur'. split; [assumption |]. split.
      * intros x Hx. rewrite Hout by (intros H; apply Hx; right; assumption).
        rewrite get_set. destruct (String.eqb x n) eqn:E; [| reflexivity].
        apply String.eqb_eq in E. subst. exfalso. apply Hx. left. reflexivity.
      * intros x [<- | Hx].
        -- exists m, imp. repeat split; try assumption.
           rewrite (Hout n Hnotin), get_set, String.eqb_refl. reflexivity.
        -- destruct (Hin x Hx) as (mx & impx & Hmx & Hfx & Hsx).
           exists mx, impx. repeat split; try assumption.
           rewrite get_set in Hmx. destruct (String.eqb x n) eqn:E; [| assumption].
           apply String.eqb_eq in E. subst. contradiction.
Qed.

Lemma improved_by_set (base first m : dict value) (imp : dict Q) :
  differences_of base m imp ->
  (forall k, k <> "improvement" -> get k first = get k base) ->
  improved_against first (set "improvement" (Mapping imp) m).
Proof.
  intros Hspec Hfirst. exists imp. split.
  - rewrite get_set, String.eqb_refl. reflexivity.
  - intros k v Hk Hv. rewrite get_set in Hv.
    destruct (String.eqb k "improvement") eqn:E;
      [apply String.eqb_eq in E; contradiction |].
    destruct (Hspec k (get_key _ _ _ Hv)) as (a & b & Ha & Hb & Hi).
    exists a, b. rewrite Hfirst by assumption. split; [congruence | tauto].
Qed.

(** The whole loop, on results that hold at least one entry. *)
Lemma add_improvements_run (raw final : dict (dict value)) :
  well_formed raw ->
  raw <> [] ->
  add_improvements raw (keys raw) = Ok final ->
  exists first,
    first_item (values final) = Ok first
    /\ forall name r, get name final = Some r -> improved_against first r.
Proof.
  intros [Hkeys Hentries] Hne Hrun.
  destruct raw as [| [n0 base0] tl]; [contradiction |]. clear Hne.
  simpl in Hkeys. inversion Hkeys as [| ? ? Hnotin Hnd]; subst.
  inversion Hentries as [| ? ? Hbase Htl]; subst. simpl in Hbase.
  simpl in Hrun. unfold add_improvement in Hrun. simpl in Hrun.
  unfold getitem in Hrun. simpl in Hrun. rewrite String.eqb_refl in Hrun.
  destruct (differences base0 (items base0) []) as [imp0 |] eqn:Hdiff; [| discriminate].
  simpl in Hrun.
  destruct (differences_run base0 base0 [] imp0 Hbase Hdiff) as [Hspec0 _].
  set (first := set "improvement" (Mapping imp0) base0) in *.
  assert (Hfirst : forall k, k <> "improvement" -> get k first = get k base0).
  { intros k Hk. unfold first. rewrite get_set.
    destruct (String.eqb k "improvement") eqn:E; [| reflexivity].
    apply String.eqb_eq in E. contradiction. }
  destruct (add_improvements_rest n0 first (keys tl) tl final Hrun Hnotin Hnd)
    as (cur' & Hfinal & Hout & Hin).
  { intros n Hn. unfold keys in Hn. apply in_map_iff in Hn.
    destruct Hn as ([n' m] & <- & Hin). simpl.
    destruct (get n' tl) as [m' |] eqn:Hget.
    - exists m'. split; [reflexivity |].
      apply get_In in Hget. rewrite Forall_forall in Htl. apply (Htl _ Hget).
    - exfalso. clear -Hin Hget.
      induction tl as [| [k v] t IH]; simpl in *; [contradiction |].
      destruct (String.eqb n' k) eqn:E; [discriminate |].
      destruct Hin as [Heq | Hin]; [| auto].
      inversion Heq; subst. rewrite String.eqb_refl in E. discriminate. }
  subst final. exists first. split; [reflexivity |].
  intros name r Hr. simpl in Hr.
  destruct (String.eqb name n0) eqn:E.
  - inversion Hr; subst r. unfold first.
    apply (improved_by_set base0); [assumption |]. exact Hfirst.
  - destruct (in_dec string_dec name (keys tl)) as [Hk | Hk].
    + destruct (Hin name Hk) as (m & imp & Hm & Hf & Hs).
      rewrite Hf in Hr. inversion Hr; subst r.
      apply (improved_by_set first); [assumption | reflexivity].
    + rewrite (Hout name Hk), (get_not_key _ _ Hk) in Hr. discriminate.
Qed.

Section Comparison.

(** What the evaluator returns is a dict: it has no key twice. *)
Hypothesis evaluator_returns_dict :
  forall ds n b m b', evaluate_dataset ds n b = (Ok m, b') -> NoDup (keys m).

Lemma evaluate_returns_dict d n s m s' :
  evaluate d n s = (Ok m, s') -> NoDup (keys m).
Proof.
  unfold evaluate. destruct (nonempty d); simpl.
  - destruct d as [ds |].
    + unfold bind, record_call, modify, on_model. simpl.
      destruct (evaluate_dataset ds n (model s)) as [[m0 | e] b] eqn:E; intros H;
        inversion H; subst. eapply evaluator_returns_dict; eassumption.
    + intros H. inversion H. constructor.
  - intros H. inversion H. constructor.
Qed.

Lemma keys_numbers (m : dict Q) :
  keys (map (fun kv => (fst kv, Num (snd kv))) m) = keys m.
Proof. unfold keys. rewrite map_map. reflexivity. Qed.

Lemma compare_fold_well_formed test (paths : list string) :
  forall acc s raw s',
  fold_m (compare_one test) paths acc s = (Ok raw, s') ->
  well_formed acc -> well_formed raw.
Proof.
  induction paths as [| p t IH]; intros acc s raw s' Hrun Hwf; simpl in Hrun.
  - inversion Hrun; subst. assumption.
  - run_bind Hrun. apply (IH _ _ _ _ Hrun). clear Hrun IH.
    unfold compare_one in E. repeat run_bind E. inversion E; subst.
    destruct Hwf as [Hk He]. split.
    + apply set_NoDup. assumption.
    + apply (set_Forall (fun m => NoDup (keys m))); [| assumption].
      rewrite keys_numbers. eapply evaluate_returns_dict. eassumption.
Qed.

(** C5 (amended): when [compare_models] returns more than one result,
    every result, the first (baseline) one included, has gained an
    ["improvement"] mapping; its value at each metric key is that result's
    metric less the first result's same metric (for the first result, the
    metric less itself). *)
Theorem compare_models_improves_every_result
    (model_paths : list string) (test_dataset : option (dataset sample))
    (s s' : state) (results : dict (dict value)) :
  compare_models model_paths test_dataset s = (Ok results, s') ->
  1 < List.length results ->
  exists first,
    first_item (values results) = Ok first
    /\ forall name r, get name results = Some r -> improved_against first r.
Proof.
  intros Hrun Hlen. unfold compare_models in Hrun.
  unfold bind at 1 in Hrun. simpl in Hrun. unfold try_except in Hrun.
  match type of Hrun with
  | match ?c ?s0 with _ => _ end = _ => destruct (c s0) as [[res | e] s1] eqn:Hbody
  end.
  - inversion Hrun; subst res s1. clear Hrun.
    repeat run_bind Hbody.
    match type of E with fold_m _ _ _ _ = (Ok ?raw, _) =>
      assert (Hwf : well_formed raw)
        by (eapply compare_fold_well_formed;
            [eassumption | split; constructor]);
      destruct (Nat.ltb 1 (List.length raw)) eqn:Hmany
    end.
    + unfold lift_result in Hbody. inversion Hbody as [[Himp Hs]].
      eapply add_improvements_run; [eassumption | | eassumption].
      intros ->. discriminate.
    + unfold ret in Hbody. inversion Hbody; subst.
      apply Nat.ltb_ge in Hmany. lia.
  - unfold bind, on_model, raise in Hrun.
    destruct (load_state_dict _ (model s1)) as [[[] | e'] b]; discriminate.
Qed.

End Comparison.

(** ** [train] *)

Section Training.

Variable validation_set : dataset sample.
Variable filenames : list string.
Variable batches : list batch.
Variable loss_of : batch -> Q.
Variable tracked : list string.

(** The conversations directory lists [filenames], and the files that
    load hold at least one sample. *)
Hypothesis directory : listdir conversations_dir = Ok filenames.
Hypothesis training_data : nonempty (Some (ConcatDataset (successes filenames))) = true.

(** A validation set is given. *)
Hypothesis validation_data : nonempty (Some validation_set) = true.

(** The trainer yields [batches] in every epoch, and a training step on a
    batch [bt] gives the loss [loss_of bt]. *)
Hypothesis loader : forall b, exists b',
  get_data_loader (ConcatDataset (successes filenames)) b = (Ok batches, b').
Hypothesis step_loss : forall bt b, exists t b',
  train_step bt b = (Ok t, b') /\ item t = loss_of bt.

(** Nothing on the numeric side raises, nor does saving. *)
Hypothesis zero_grad_ok : succeeds zero_grad.
Hypothesis backward_ok : forall t, succeeds (backward t).
Hypothesis optimizer_step_ok : succeeds optimizer_step.
Hypothesis scheduler_step_ok : succeeds scheduler_step.
Hypothesis model_train_ok : succeeds model_train.
Hypothesis new_optimizer_ok : succeeds (new_optimizer 2).
Hypothesis model_save_ok : forall path, succeeds (model_save path).
Hypothesis memory_save_ok : forall path, succeeds (memory_save path).

(** The evaluator returns a dict with a value for every tracked name. *)
Hypothesis evaluation : forall b, exists m b',
  evaluate_dataset validation_set 100 b = (Ok m, b')
  /\ NoDup (keys m)
  /\ (forall k, In k tracked -> exists x, get k m = Some x).
Hypothesis tracked_names : NoDup tracked.

Lemma returns_logger l c lv msg args :
  returns (monitoring l c) (logger lv msg args) (fun _ => monitoring l c).
Proof. intros s H. exists tt. eexists. split; [reflexivity | exact H]. Qed.

Lemma returns_on_model {A} l c (op : M backend A) :
  succeeds op -> returns (monitoring l c) (on_model op) (fun _ => monitoring l c).
Proof.
  intros Hop s H. destruct (Hop (model s)) as (a & b' & E).
  exists a. eexists. unfold on_model. rewrite E. split; [reflexivity | exact H].
Qed.

Lemma returns_on_memory {A} l c (op : M memory A) :
  succeeds op -> returns (monitoring l c) (on_memory op) (fun _ => monitoring l c).
Proof.
  intros Hop s H. destruct (Hop (mem s)) as (a & m' & E).
  exists a. eexists. unfold on_memory. rewrite E. split; [reflexivity | exact H].
Qed.

Lemma returns_train_step l c bt :
  returns (monitoring l c) (on_model (train_step bt))
          (fun t s => item t = loss_of bt /\ monitoring l c s).
Proof.
  intros s H. destruct (step_loss bt (model s)) as (t & b' & E & Ht).
  exists t. eexists. unfold on_model. rewrite E. split; [reflexivity |].
  split; [exact Ht | exact H].
Qed.

Lemma returns_train_batch l c acc ib :
  returns (monitoring l c) (train_batch acc ib)
          (fun r s => r = (acc + loss_of (snd ib))%Q /\ monitoring l c s).
Proof.
  unfold train_batch.
  eapply returns_bind; [apply returns_on_model, zero_grad_ok | intros ?; cbv beta].
  eapply returns_bind; [apply returns_train_step | intros t; cbv beta].
  apply returns_fact. intros Ht.
  eapply returns_bind; [apply returns_on_model, backward_ok | intros ?; cbv beta].
  eapply returns_bind; [apply returns_on_model, optimizer_step_ok | intros ?; cbv beta].
  eapply returns_bind with (R := fun _ => monitoring l c).
  - destruct (Nat.eqb (fst ib mod 50) 0); [apply returns_logger |].
    apply returns_ret. auto.
  - intros ?. apply returns_ret. intros s H. rewrite Ht. auto.
Qed.

Lemma losses_of_enumerate (bs : list batch) :
  map (fun ib : nat * batch => loss_of (snd ib)) (enumerate bs) = map loss_of bs.
Proof.
  unfold enumerate. generalize 0.
  induction bs as [| b t IH]; intros n; simpl; [| rewrite IH]; reflexivity.
Qed.

Lemma fold_losses (ibs : list (nat * batch)) : forall acc,
  fold_left (fun a ib => (a + loss_of (snd ib))%Q) ibs acc
  = fold_left Qplus (map (fun ib => loss_of (snd ib)) ibs) acc.
Proof. induction ibs as [| ib t IH]; intros acc; simpl; [| rewrite IH]; reflexivity. Qed.

Lemma returns_batches l c :
  returns (monitoring l c) (fold_m train_batch (enumerate batches) 0%Q)
          (fun r s => r = total_of (map loss_of batches) /\ monitoring l c s).
Proof.
  eapply returns_post;
    [| apply (returns_fold (monitoring l c)
                (fun a (ib : nat * batch) => (a + loss_of (snd ib))%Q));
       intros; apply returns_train_batch].
  intros r s [-> H]. split; [| exact H].
  rewrite fold_losses, losses_of_enumerate. reflexivity.
Qed.

Lemma returns_evaluate l c :
  returns (monitoring l c) (evaluate (Some validation_set) 100)
          (fun m s => produced validation_set tracked m
                      /\ monitoring l (c ++ [(validation_set, 100%Z)]) s).
Proof.
  intros s (Hl & Hu & Hc). subst c. unfold evaluate. rewrite validation_data. simpl.
  unfold bind, record_call, modify, on_model. simpl.
  destruct (evaluation (model s)) as (m & b' & E & Hnd & Hall).
  rewrite E. exists m. eexists. split; [reflexivity |]. split.
  - repeat split; try assumption. eauto.
  - split; [exact Hl | split; [exact Hu | reflexivity]].
Qed.

Lemma returns_log_epoch n l c epoch loss m :
  Monitor.aligned n l ->
  keys (Monitor.metrics l) = tracked ->
  produced validation_set tracked m ->
  returns (monitoring l c)
          (on_monitor (Monitor.log_epoch epoch loss (Some m)))
          (fun _ => monitoring (Monitor.logged_epoch epoch loss (Some m) l) c).
Proof.
  intros Hal Hkeys (Hnd & Hall & _) s (Hl & Hu & Hc).
  destruct (MonitorFacts.log_epoch_returns n epoch loss m (monitor s) l Hl Hu Hal Hnd)
    as (ms' & Hrun & Hl' & Hu' & _).
  { rewrite Hkeys. exact Hall. }
  exists tt. eexists. unfold on_monitor. rewrite Hrun. split; [reflexivity |].
  split; [exact Hl' | split; [exact Hu' | exact Hc]].
Qed.

Lemma returns_loader l c :
  returns (monitoring l c)
          (on_model (get_data_loader (ConcatDataset (successes filenames))))
          (fun bs s => bs = batches /\ monitoring l c s).
Proof.
  intros s H. destruct (loader (model s)) as (b' & E).
  exists batches. eexists. unfold on_model. rewrite E. split; [reflexivity |].
  split; [reflexivity | exact H].
Qed.

Lemma returns_train_epoch n l c epoch :
  Monitor.aligned n l ->
  keys (Monitor.metrics l) = tracked ->
  returns (monitoring l c)
    (train_epoch (ConcatDataset (successes filenames)) (Some validation_set) epoch)
    (fun _ s => exists m,
         produced validation_set tracked m
         /\ monitoring (Monitor.logged_epoch (epoch + 1) (total_of (map loss_of batches))
                                             (Some m) l)
                       (c ++ [(validation_set, 100%Z)]) s).
Proof.
  intros Hal Hkeys. unfold train_epoch.
  eapply returns_bind; [apply returns_logger | intros ?; cbv beta].
  eapply returns_bind; [apply returns_on_model, model_train_ok | intros ?; cbv beta].
  apply returns_try.
  eapply returns_bind; [apply returns_loader | intros bs; cbv beta].
  apply returns_fact. intros ->.
  eapply returns_bind; [apply returns_batches | intros total; cbv beta].
  apply returns_fact. intros ->.
  eapply returns_bind; [apply returns_on_model, scheduler_step_ok | intros ?; cbv beta].
  rewrite validation_data.
  eapply returns_bind with
    (R := fun vm s => exists m, vm = Some m
                      /\ produced validation_set tracked m
                      /\ monitoring l (c ++ [(validation_set, 100%Z)]) s).
  - eapply returns_bind; [apply returns_logger | intros ?; cbv beta].
    eapply returns_bind; [apply returns_evaluate | intros m; cbv beta].
    apply returns_fact. intros Hm.
    eapply returns_bind; [apply returns_logger | intros ?; cbv beta].
    apply returns_ret. intros s H. exists m. auto.
  - intros val_metrics. apply returns_some. intros m.
    apply returns_fact. intros ->. apply returns_fact. intros Hm.
    eapply returns_bind;
      [apply (returns_log_epoch n); assumption | intros ?; cbv beta].
    eapply returns_post; [| apply returns_logger].
    intros ? s H. exists m. auto.
Qed.

Lemma returns_load l c :
  returns (monitoring l c) _load_all_datasets
          (fun r s => r = Some (ConcatDataset (successes filenames)) /\ monitoring l c s).
Proof.
  intros s H. rewrite (load_all_datasets_run filenames s directory).
  eexists. eexists. split; [reflexivity |]. split; [| exact H].
  destruct (successes filenames); [discriminate training_data | reflexivity].
Qed.

Lemma returns_get_best_epoch l c metric :
  returns (monitoring l c) (on_monitor (Monitor.get_best_epoch metric))
          (fun _ => monitoring l c).
Proof.
  intros s H. pose proof H as (Hl & _).
  destruct (MonitorFacts.get_best_epoch_returns metric (monitor s) l Hl) as (z & E).
  exists z. eexists. unfold on_monitor. rewrite E. split; [reflexivity | exact H].
Qed.

Lemma returns_current_log l c :
  returns (monitoring l c) (on_monitor Monitor.get_current_log)
          (fun r s => r = l /\ monitoring l c s).
Proof.
  intros s H. pose proof H as (Hl & _).
  exists l. eexists. unfold on_monitor, Monitor.get_current_log. rewrite Hl.
  split; [reflexivity |]. split; [reflexivity | exact H].
Qed.

Lemma returns_save l c : returns (monitoring l c) save (fun _ => monitoring l c).
Proof.
  unfold save. apply returns_try.
  eapply returns_bind; [apply returns_logger | intros ?; cbv beta].
  eapply returns_bind; [apply returns_on_model, model_save_ok | intros ?; cbv beta].
  eapply returns_bind; [apply returns_logger | intros ?; cbv beta].
  eapply returns_bind; [apply returns_logger | intros ?; cbv beta].
  eapply returns_bind; [apply returns_on_memory, memory_save_ok | intros ?; cbv beta].
  apply returns_logger.
Qed.

(** The run of [train] for two epochs, from a fresh log. *)
Lemma returns_train c :
  returns (monitoring (Monitor.fresh_log tracked) c)
    (train 2 (Some validation_set))
    (fun log s => exists m1 m2,
         produced validation_set tracked m1
         /\ produced validation_set tracked m2
         /\ log = Monitor.logged_epoch 2 (total_of (map loss_of batches)) (Some m2)
                    (Monitor.logged_epoch 1 (total_of (map loss_of batches)) (Some m1)
                       (Monitor.fresh_log tracked))
         /\ evaluator_calls s
            = c ++ [(validation_set, 100%Z); (validation_set, 100%Z);
                    (validation_set, 100%Z)]).
Proof.
  unfold train.
  eapply returns_bind; [apply returns_logger | intros ?; cbv beta].
  apply returns_try.
  eapply returns_bind; [apply returns_load | intros loaded; cbv beta].
  apply returns_fact. intros ->. rewrite training_data.
  eapply returns_bind with
    (R := fun r s => r = ConcatDataset (successes filenames)
                     /\ monitoring (Monitor.fresh_log tracked) c s);
    [apply returns_ret; auto | intros ds; cbv beta].
  apply returns_fact. intros ->.
  eapply returns_bind; [apply returns_logger | intros ?; cbv beta].
  rewrite validation_data.
  eapply returns_bind with
    (R := fun _ => monitoring (Monitor.fresh_log tracked)
                              (c ++ [(validation_set, 100%Z)])).
  { eapply returns_bind; [apply returns_logger | intros ?; cbv beta].
    eapply returns_bind; [apply returns_evaluate | intros m0; cbv beta].
    apply returns_fact. intros _. apply returns_logger. }
  intros ?.
  eapply returns_bind; [apply returns_on_model, new_optimizer_ok | intros ?; cbv beta].
  change (range 2) with [0%Z; 1%Z]. cbn [for_each].
  eapply returns_bind with
    (R := fun _ s => exists m1 m2,
            produced validation_set tracked m1
            /\ produced validation_set tracked m2
            /\ monitoring
                 (Monitor.logged_epoch 2 (total_of (map loss_of batches)) (Some m2)
                    (Monitor.logged_epoch 1 (total_of (map loss_of batches)) (Some m1)
                       (Monitor.fresh_log tracked)))
                 (((c ++ [(validation_set, 100%Z)]) ++ [(validation_set, 100%Z)])
                  ++ [(validation_set, 100%Z)]) s).
  { eapply returns_bind.
    - apply (returns_train_epoch 0).
      + apply MonitorFacts.fresh_log_aligned. exact tracked_names.
      + apply MonitorFacts.fresh_log_keys.
    - intros ?. cbv beta. apply returns_some. intros m1.
      apply returns_fact. intros Hm1.
      eapply returns_bind.
      + apply (returns_train_epoch 1).
        * destruct Hm1 as (Hnd & Hall & _).
          apply MonitorFacts.logged_epoch_aligned;
            [apply MonitorFacts.fresh_log_aligned; exact tracked_names | exact Hnd |].
          rewrite MonitorFacts.fresh_log_keys. exact Hall.
        * destruct (MonitorFacts.logged_epoch_fields (0 + 1)
                      (total_of (map loss_of batches)) (Some m1)
                      (Monitor.fresh_log tracked)) as (_ & _ & _ & Hk & _).
          rewrite Hk. apply MonitorFacts.fresh_log_keys.
      + intros ?. cbv beta. apply returns_some. intros m2.
        apply returns_fact. intros Hm2.
        apply returns_ret. intros s H. exists m1, m2. auto. }
  intros ?. cbv beta.
  apply returns_some. intros m1. apply returns_some. intros m2.
  apply returns_fact. intros Hm1. apply returns_fact. intros Hm2.
  eapply returns_bind; [apply returns_get_best_epoch | intros ?; cbv beta].
  eapply returns_bind; [apply returns_logger | intros ?; cbv beta].
  eapply returns_bind; [apply returns_save | intros ?; cbv beta].
  eapply returns_post; [| apply returns_current_log].
  intros log s [-> (_ & _ & Hcalls)]. exists m1, m2.
  split; [exact Hm1 | split; [exact Hm2 | split; [reflexivity |]]].
  rewrite Hcalls, <- !app_assoc. reflexivity.
Qed.


End Training.

End Facts.

(** A directory with a dialogue file, a malformed file, a text file and a file
    of another kind. *)
Lemma load_all_datasets_isolates_failures_witness :
  _load_all_datasets (C := toy) (toy_state Monitor.accuracy_log []) =
    (Ok (match successes (C := toy) ["a.json"; "bad.json"; "c.txt"; "notes.md"] with
         | [] => None
         | ds => Some (ConcatDataset ds)
         end),
     add_logged (failures (C := toy) ["a.json"; "bad.json"; "c.txt"; "notes.md"])
                (toy_state Monitor.accuracy_log []))
  /\ (fst (_load_all_datasets (C := toy) (toy_state Monitor.accuracy_log [])) = Ok None
      <-> successes (C := toy) ["a.json"; "bad.json"; "c.txt"; "notes.md"] = [])
  /\ (forall before f after e,
        ["a.json"; "bad.json"; "c.txt"; "notes.md"] = before ++ f :: after ->
        attempt (C := toy) f = Raise e ->
        successes (C := toy) ["a.json"; "bad.json"; "c.txt"; "notes.md"]
        = successes (C := toy) before ++ successes (C := toy) after
        /\ failures (C := toy) ["a.json"; "bad.json"; "c.txt"; "notes.md"]
           = failures (C := toy) before
             ++ (ERROR, "Error loading {}: {}", [f; str_exn e])
                :: failures (C := toy) after).
Proof.
  exact (load_all_datasets_isolates_failures (C := toy)
           ["a.json"; "bad.json"; "c.txt"; "notes.md"]
           (toy_state Monitor.accuracy_log []) eq_refl).
Defined.

(** Of three files one is malformed: the other two are combined, in
    order, and the malformed one is logged. *)
Example load_all_datasets_one_malformed :
  _load_all_datasets (C := toy) (toy_state Monitor.accuracy_log []) =
  (Ok (Some (ConcatDataset [Dataset [1; 2]; Dataset [3]])),
   add_logged [(ERROR, "Error loading {}: {}", ["bad.json"; "Expecting value"])]
              (toy_state Monitor.accuracy_log [])).
Proof. vm_compute. reflexivity. Qed.

(** No two of the eight snapshots have the same name. *)
Lemma eight_snapshots_names : NoDup (map name eight_snapshots).
Proof.
  simpl. repeat (constructor; [simpl; intuition discriminate |]). constructor.
Defined.

(** Eight versioned snapshots, one of the three oldest not removable, and
    [max_models = 5]. *)
Lemma cleanup_keeps_newest_pt_files_witness :
  let s := toy_state Monitor.accuracy_log eight_snapshots in
  let models := candidates (models_dir s) in
  let kept := firstn (Z.to_nat 5) models in
  let old := skipn (Z.to_nat 5) models in
  let s' := snd (_cleanup_old_models (C := toy) 5 s) in
  fst (_cleanup_old_models (C := toy) 5 s) = Ok tt
  /\ (forall f, In f models <->
                In f (models_dir s) /\ is_file f = true /\ endswith ".pt" (name f) = true)
  /\ List.length kept = Nat.min (Z.to_nat 5) (List.length models)
  /\ (forall k o, In k kept -> In o old -> (st_mtime o <= st_mtime k)%Q)
  /\ (forall k, In k kept -> In k (models_dir s'))
  /\ (forall f, In f (models_dir s') <->
                In f (models_dir s) /\ ~ (In f old /\ unlink_error f = None))
  /\ logged s' = logged s ++ map removal_record old.
Proof.
  apply (cleanup_keeps_newest_pt_files (C := toy) 5
           (toy_state Monitor.accuracy_log eight_snapshots)).
  - lia.
  - exact eight_snapshots_names.
Defined.

(** Eight versioned snapshots and [max_models = 5]: the three oldest are
    the ones to go; the one of them that cannot be deleted stays and is
    logged, the other two are removed. *)
Example cleanup_eight_snapshots :
  let r := _cleanup_old_models (C := toy) 5 (toy_state Monitor.accuracy_log eight_snapshots) in
  fst r = Ok tt
  /\ map name (models_dir (snd r)) = ["v2.pt"; "v4.pt"; "v5.pt"; "v6.pt"; "v7.pt"; "v8.pt"]
  /\ logged (snd r) =
     [ (INFO, "Removed old model: {}", ["v3.pt"]);
       (ERROR, "Failed to remove {}: {}", ["v2.pt"; "cannot access 'v2.pt'"]);
       (INFO, "Removed old model: {}", ["v1.pt"]) ].
Proof. vm_compute. repeat split; reflexivity. Qed.

(** C6 (as stated, refuted): with the canonical [sin_model.pt] written last
    beside five versioned snapshots, pruning with [max_models = 5] removes
    the versioned snapshot [v1.pt]: only four of the five versioned
    snapshots are retained, the canonical one taking the fifth place. *)
Lemma cleanup_counts_canonical_snapshot :
  let r := _cleanup_old_models (C := toy) 5 (toy_state Monitor.accuracy_log five_and_latest) in
  map name (filter versioned five_and_latest) = ["v1.pt"; "v2.pt"; "v3.pt"; "v4.pt"; "v5.pt"]
  /\ fst r = Ok tt
  /\ map name (filter versioned (models_dir (snd r))) = ["v2.pt"; "v3.pt"; "v4.pt"; "v5.pt"]
  /\ map name (models_dir (snd r)) = ["v2.pt"; "v3.pt"; "v4.pt"; "v5.pt"; "sin_model.pt"].
Proof. vm_compute. repeat split; reflexivity. Qed.

(** An empty dataset. *)
Lemma evaluate_calls_evaluator_iff_nonempty_witness :
  (nonempty (Some (Dataset (@nil nat))) = false ->
   evaluate (C := toy) (Some (Dataset [])) 100 (toy_state Monitor.accuracy_log [])
   = (Ok [], toy_state Monitor.accuracy_log []))
  /\ (nonempty (Some (Dataset (@nil nat))) = true ->
      exists ds, Some (Dataset []) = Some ds
        /\ evaluator_calls
             (snd (evaluate (C := toy) (Some (Dataset [])) 100
                            (toy_state Monitor.accuracy_log [])))
           = evaluator_calls (toy_state Monitor.accuracy_log []) ++ [(ds, 100%Z)]
        /\ fst (evaluate (C := toy) (Some (Dataset [])) 100
                         (toy_state Monitor.accuracy_log []))
           = fst (evaluate_dataset (Collaborators := toy) ds 100
                    (model (toy_state Monitor.accuracy_log [])))).
Proof.
  exact (evaluate_calls_evaluator_iff_nonempty (C := toy) (Some (Dataset [])) 100
           (toy_state Monitor.accuracy_log [])).
Defined.

(** In the small world, loading a state dict sets the weights to it. *)
(** Two files compared by a model whose parameters are [0]: the call
    returns and leaves the parameters of the second file, [3].  With a
    second path that cannot be loaded the call raises and leaves those of
    the first file, [1]. *)
Lemma compare_models_restore_is_void_witness :
  by_reference (C := torch_world)
  /\ model (snd (compare_models (C := torch_world) ["a.pt"; "models/b.pt"]
                                (Some (Dataset [0])) torch_state))
     = model (snd (fold_m (compare_one (C := torch_world) (Some (Dataset [0])))
                          ["a.pt"; "models/b.pt"] [] torch_state))
  /\ model torch_state = 0%Z
  /\ model (snd (compare_models (C := torch_world) ["a.pt"; "models/b.pt"]
                                (Some (Dataset [0])) torch_state)) = 3%Z
  /\ fst (compare_models (C := torch_world) ["a.pt"; "nope.pt"]
                         (Some (Dataset [0])) torch_state) = Raise (OSError "nope.pt")
  /\ model (snd (compare_models (C := torch_world) ["a.pt"; "nope.pt"]
                                (Some (Dataset [0])) torch_state)) = 1%Z.
Proof.
  assert (H : by_reference (C := torch_world)) by (split; reflexivity).
  split; [exact H |].
  split; [| repeat split].
  exact (compare_models_restore_is_void (C := torch_world) ["a.pt"; "models/b.pt"]
           (Some (Dataset [0])) torch_state H).
Defined.

(** In the small world, the evaluator reports accuracy alone. *)
Lemma toy_evaluator_returns_dict :
  forall ds n b m b',
    evaluate_dataset (Collaborators := toy) ds n b = (Ok m, b') -> NoDup (keys m).
Proof.
  intros ds n b m b' H. simpl in H. inversion H; subst. simpl.
  constructor; [intros [] | constructor].
Defined.

(** Two models, of accuracy 1/10 and 3/10. *)
Lemma compare_models_improves_every_result_witness :
  exists first,
    first_item (values toy_results) = Ok first
    /\ forall name r, get name toy_results = Some r -> improved_against first r.
Proof.
  apply (compare_models_improves_every_result (C := toy) toy_evaluator_returns_dict
           ["a.pt"; "models/b.pt"] (Some (Dataset [0]))
           (toy_state Monitor.accuracy_log [])
           (snd (compare_models (C := toy) ["a.pt"; "models/b.pt"] (Some (Dataset [0]))
                                (toy_state Monitor.accuracy_log [])))
           toy_results).
  - vm_compute. reflexivity.
  - simpl. lia.
Defined.

(** C5 (as stated, refuted): comparing two models returns two results,
    and the first of them, the baseline [a.pt], has gained an
    ["improvement"] mapping as well: its accuracy less itself. *)
Lemma compare_models_improves_baseline :
  fst (compare_models (C := toy) ["a.pt"; "models/b.pt"] (Some (Dataset [0]))
                      (toy_state Monitor.accuracy_log []))
  = Ok toy_results
  /\ keys toy_results = ["a.pt"; "b.pt"]
  /\ option_map (get "improvement") (get "a.pt" toy_results)
     = Some (Some (Mapping [("accuracy", ((1 # 10) - (1 # 10))%Q)])).
Proof. vm_compute. repeat split; reflexivity. Qed.



(** The scenario of the specification, run: two epochs, one batch of loss
    1 in each, a validation set. *)
Example train_two_epochs_run :
  fst (train (C := toy) 2 (Some (Dataset [7])) (toy_state Monitor.accuracy_log []))
  = Ok (Monitor.mk_log [1%Z; 2%Z] [1%Q; 1%Q] []
                       [("accuracy", [(1 # 10)%Q; (2 # 10)%Q])]).
Proof. vm_compute. reflexivity. Qed.

(** The reply of the model is cut after the last ["Sin:"] and at the first
    line break; an empty reply gives the fallback message. *)
Example chat_cleans_response :
  fst (chat (C := toy) "hi" (toy_state Monitor.accuracy_log [])) = Ok "hello".
Proof. vm_compute. reflexivity. Qed.

End SinFacts.

(* ================================================================== *)
(** * Properties of [PersonalityCore]                                  *)
(* ================================================================== *)

Module PersonalityFacts.
Import Personality.

Lemma add_traits_run (traits : list string) : forall self,
  add_traits traits self =
  (Ok tt, mk_core (current_archetype self) (custom_traits self ++ traits)).
Proof.
  unfold add_traits. induction traits as [| t rest IH]; intros self; simpl.
  - unfold ret. rewrite app_nil_r. destruct self; reflexivity.
  - unfold bind, add_trait at 1, modify. rewrite IH. simpl.
    rewrite <- app_assoc. reflexivity.
Qed.

(** X1: an instance on which no archetype has been set cannot format a
    response: [__init__] stores the string ['neutral'], not the dict of
    that name, so [format_response] raises [TypeError] for every message,
    whatever traits have been added. *)
Theorem fresh_core_cannot_format (traits : list string) (message : string) :
  fst (format_response message (snd (add_traits traits __init__)))
  = Raise (TypeError "string indices must be integers").
Proof. rewrite add_traits_run. reflexivity. Qed.

(** X2: [set_archetype] with a name that [ARCHETYPES] does not list stores
    the string ['neutral'] again, so the next [format_response] raises
    [TypeError]; the custom traits are kept. *)
Theorem unknown_archetype_cannot_format (name message : string) (self : PersonalityCore) :
  get name ARCHETYPES = None ->
  fst (format_response message (snd (set_archetype name self)))
  = Raise (TypeError "string indices must be integers")
  /\ custom_traits (snd (set_archetype name self)) = custom_traits self.
Proof.
  intros H. unfold set_archetype, modify. cbn [snd]. rewrite H.
  split; reflexivity.
Qed.

Lemma unknown_archetype_cannot_format_witness :
  fst (format_response "hi" (snd (set_archetype "poet" __init__)))
  = Raise (TypeError "string indices must be integers")
  /\ custom_traits (snd (set_archetype "poet" __init__)) = custom_traits __init__.
Proof. exact (unknown_archetype_cannot_format "poet" "hi" __init__ eq_refl). Defined.

(** X3: after [set_archetype] with one of the three listed names,
    [format_response] returns the message, with the thinking face before
    it exactly when the archetype is the scientist or the analytic trait
    is among the custom traits; it leaves the instance as it is. *)
Theorem known_archetype_formats (name message : string) (self : PersonalityCore)
    (d : dict (list string)) :
  get name ARCHETYPES = Some d ->
  let self' := snd (set_archetype name self) in
  format_response message self'
  = (Ok (if String.eqb name "scientist"
            || existsb (String.eqb analytic) (custom_traits self)
         then (thinking ++ message)%string
         else message),
     self').
Proof.
  intros H. simpl in H.
  destruct (String.eqb name "neutral") eqn:E1.
  { apply String.eqb_eq in E1. subst name. reflexivity. }
  destruct (String.eqb name "scientist") eqn:E2.
  { apply String.eqb_eq in E2. subst name. reflexivity. }
  destruct (String.eqb name "artist") eqn:E3; [| discriminate].
  apply String.eqb_eq in E3. subst name. reflexivity.
Qed.

Lemma known_archetype_formats_witness :
  format_response "hi" (snd (set_archetype "artist" (mk_core (Key "neutral") [analytic])))
  = (Ok (thinking ++ "hi")%string,
     snd (set_archetype "artist" (mk_core (Key "neutral") [analytic]))).
Proof.
  exact (known_archetype_formats "artist" "hi" (mk_core (Key "neutral") [analytic]) _ eq_refl).
Defined.

End PersonalityFacts.

(* ================================================================== *)
(** * Further properties of [TrainingMonitor]                          *)
(* ================================================================== *)

Module MonitorMore.
Import Monitor MonitorAux MonitorFacts.

(** [log_epoch] on a monitor that has a current log, case by case: the
    records are appended first; then the log is written, which needs a
    usable directory; then the figure is drawn and written. *)
Lemma log_epoch_cases epoch loss vm s l :
  current_log (self s) = Some l ->
  let l' := logged_epoch epoch loss vm l in
  let d := storage s in
  log_epoch epoch loss vm s =
  if dir_exists d && writable d
  then match draw l' with
       | Ok fig =>
           (Ok tt,
            left_with s l' (mk_disk (dir_exists d) (writable d) (Some l') (Some fig))
                      (DEBUG, "Logged epoch {} data", []))
       | Raise e =>
           (Raise e,
            left_with s l'
                      (mk_disk (dir_exists d) (writable d) (Some l') (training_progress_png d))
                      (ERROR, "Failed to log epoch {}: {}", [str_exn e]))
       end
  else (Raise (OSError (log_dir (self s) ++ "/training_log.json")),
        left_with s l' d
                  (ERROR, "Failed to log epoch {}: {}",
                   [str_exn (OSError (log_dir (self s) ++ "/training_log.json"))])).
Proof.
  intros Hlog l' d. subst d.
  destruct s as [[dir cl] [ex wr js png] lg]. simpl in *. subst cl.
  unfold log_epoch, try_except.
  unfold bind at 1. erewrite update_log_run by reflexivity.
  unfold bind at 1. erewrite update_log_run by reflexivity.
  unfold bind at 1. cbn [self log_dir storage logged].
  erewrite for_each_update_log by reflexivity.
  cbn [self log_dir storage logged].
  change (fold_left _ (metrics_given vm) _) with (logged_epoch epoch loss vm l).
  fold l'. clearbody l'.
  unfold _save_log, _plot_progress, open_w, logger, set_storage, get_current_log.
  unfold bind, gets, modify, lift_result, ret, raise, left_with. simpl.
  destruct ex, wr; simpl; try reflexivity.
  destruct (draw l') as [fig | e]; reflexivity.
Qed.

Lemma log_epoch_without_log epoch loss vm s :
  current_log (self s) = None ->
  fst (log_epoch epoch loss vm s) = Raise (AttributeError "current_log").
Proof.
  intros H. unfold log_epoch, try_except, update_log, get_current_log.
  unfold bind. rewrite H. reflexivity.
Qed.

(** X4: a [log_epoch] that returns has written what it holds, the new
    record included.  The monitor held a log; the log it holds now is that
    log with [epoch] appended to the epochs, [loss] to the training
    losses, and, to the series of every tracked name, the value that
    [val_metrics] gives for it, if any; the log file holds exactly this
    log, and the figure file holds the figure drawn from it. *)
Theorem log_epoch_success_is_persisted epoch loss vm s s' :
  log_epoch epoch loss vm s = (Ok tt, s') ->
  exists l l' fig,
    current_log (self s) = Some l
    /\ l' = logged_epoch epoch loss vm l
    /\ epochs l' = epochs l ++ [epoch]
    /\ train_loss l' = train_loss l ++ [loss]
    /\ val_loss l' = val_loss l
    /\ keys (metrics l') = keys (metrics l)
    /\ (forall name,
          get name (metrics l')
          = option_map (fun series => series ++ reported name vm) (get name (metrics l)))
    /\ current_log (self s') = Some l'
    /\ training_log_json (storage s') = Some l'
    /\ training_progress_png (storage s') = Some fig
    /\ draw l' = Ok fig.
Proof.
  intros Hrun. destruct (current_log (self s)) as [l |] eqn:Hlog.
  - rewrite (log_epoch_cases epoch loss vm s l Hlog) in Hrun.
    destruct (dir_exists (storage s) && writable (storage s)); [| discriminate].
    destruct (draw (logged_epoch epoch loss vm l)) as [fig | e] eqn:Hfig; [| discriminate].
    inversion Hrun; subst s'.
    destruct (logged_epoch_fields epoch loss vm l) as (E & T & V & K & G).
    exists l, (logged_epoch epoch loss vm l), fig.
    split; [reflexivity |]. split; [reflexivity |]. split; [exact E |].
    split; [exact T |]. split; [exact V |]. split; [exact K |]. split; [exact G |].
    simpl. auto.
  - pose proof (log_epoch_without_log epoch loss vm s Hlog) as Hno.
    rewrite Hrun in Hno. discriminate.
Qed.

(** A second epoch, validated, on a log that tracks ["accuracy"]. *)
Lemma log_epoch_success_is_persisted_witness :
  exists l l' fig,
    current_log (self (with_log one_epoch_log)) = Some l
    /\ l' = logged_epoch 2 1 (Some [("accuracy", (3 # 4)%Q)]) l
    /\ epochs l' = epochs l ++ [2%Z]
    /\ train_loss l' = train_loss l ++ [1%Q]
    /\ val_loss l' = val_loss l
    /\ keys (metrics l') = keys (metrics l)
    /\ (forall name,
          get name (metrics l')
          = option_map
              (fun series => series ++ reported name (Some [("accuracy", (3 # 4)%Q)]))
              (get name (metrics l)))
    /\ current_log
         (self (snd (log_epoch 2 1 (Some [("accuracy", (3 # 4)%Q)])
                               (with_log one_epoch_log)))) = Some l'
    /\ training_log_json
         (storage (snd (log_epoch 2 1 (Some [("accuracy", (3 # 4)%Q)])
                                  (with_log one_epoch_log)))) = Some l'
    /\ training_progress_png
         (storage (snd (log_epoch 2 1 (Some [("accuracy", (3 # 4)%Q)])
                                  (with_log one_epoch_log)))) = Some fig
    /\ draw l' = Ok fig.
Proof.
  apply (log_epoch_success_is_persisted 2 1 (Some [("accuracy", (3 # 4)%Q)])
           (with_log one_epoch_log)).
  vm_compute. reflexivity.
Defined.

(** X5: the log is written before the figure is drawn.  With a current
    log and a usable directory, a [log_epoch] whose figure cannot be drawn
    raises the exception of the drawing, after it has appended the record
    and written the log file; the figure file is left as it was, and the
    failure is logged. *)
Theorem log_epoch_persists_before_drawing epoch loss vm s l e :
  current_log (self s) = Some l ->
  usable (storage s) ->
  draw (logged_epoch epoch loss vm l) = Raise e ->
  exists s',
    log_epoch epoch loss vm s = (Raise e, s')
    /\ current_log (self s') = Some (logged_epoch epoch loss vm l)
    /\ training_log_json (storage s') = Some (logged_epoch epoch loss vm l)
    /\ training_progress_png (storage s') = training_progress_png (storage s)
    /\ logged s' = logged s ++ [(ERROR, "Failed to log epoch {}: {}", [str_exn e])].
Proof.
  intros Hlog [Hex Hwr] Hdraw.
  rewrite (log_epoch_cases epoch loss vm s l Hlog), Hex, Hwr, Hdraw. simpl.
  eexists. split; [reflexivity |]. simpl. auto.
Qed.

(** A second epoch without validation, after a first one with it. *)
Lemma log_epoch_persists_before_drawing_witness :
  exists s',
    log_epoch 2 1 None (with_log one_epoch_log)
    = (Raise (ValueError "x and y must have same first dimension"), s')
    /\ current_log (self s') = Some (logged_epoch 2 1 None one_epoch_log)
    /\ training_log_json (storage s') = Some (logged_epoch 2 1 None one_epoch_log)
    /\ training_progress_png (storage s') = training_progress_png (storage (with_log one_epoch_log))
    /\ logged s'
       = logged (with_log one_epoch_log)
         ++ [(ERROR, "Failed to log epoch {}: {}",
              [str_exn (ValueError "x and y must have same first dimension")])].
Proof.
  exact (log_epoch_persists_before_drawing 2 1 None (with_log one_epoch_log) one_epoch_log
           (ValueError "x and y must have same first dimension")
           eq_refl (conj eq_refl eq_refl) eq_refl).
Defined.



Lemma reported_at_most_one name vm :
  is_dict vm -> List.length (reported name vm) <= 1.
Proof.
  destruct vm as [m |]; simpl; intros H.
  - rewrite (reported_dict name m H). destruct (get name m); simpl; lia.
  - unfold reported. simpl. lia.
Qed.

Lemma logged_epoch_consistent epoch loss vm l :
  consistent l -> is_dict vm -> consistent (logged_epoch epoch loss vm l).
Proof.
  intros (Hlen & Hnd & Hall) Hvm.
  destruct (logged_epoch_fields epoch loss vm l) as (E & T & _ & K & G).
  unfold consistent. rewrite E, T, K, !length_app, Hlen. simpl.
  repeat split; try assumption; try lia.
  rewrite Forall_forall in *. intros [k series'] Hin. simpl.
  assert (Hget : get k (metrics (logged_epoch epoch loss vm l)) = Some series')
    by (apply in_get_unique; [rewrite K |]; assumption).
  rewrite G in Hget.
  destruct (get k (metrics l)) as [series |] eqn:Hold; [| discriminate].
  simpl in Hget. inversion Hget; subst series'.
  pose proof (Hall _ (get_In _ _ _ Hold)) as Hs. simpl in Hs.
  pose proof (reported_at_most_one k vm Hvm).
  rewrite length_app. lia.
Qed.

(** X7: [log_epoch] keeps the invariant of the log, whether it returns or
    raises: if the log has as many losses as epochs and no series longer
    than the list of epochs, and the metrics given are a dict (or [None]),
    the same holds afterwards. *)
Theorem log_epoch_keeps_consistent epoch loss vm s l :
  current_log (self s) = Some l ->
  consistent l ->
  is_dict vm ->
  exists l',
    current_log (self (snd (log_epoch epoch loss vm s))) = Some l'
    /\ consistent l'.
Proof.
  intros Hlog Hc Hvm. exists (logged_epoch epoch loss vm l).
  rewrite (log_epoch_self _ _ _ _ _ Hlog). split; [reflexivity |].
  apply logged_epoch_consistent; assumption.
Qed.

Lemma accuracy_log_consistent : consistent accuracy_log.
Proof.
  unfold consistent. simpl. repeat split.
  - constructor; [intros [] | constructor].
  - constructor; [simpl; lia | constructor].
Defined.

Lemma accuracy_dict : is_dict (Some [("accuracy", (1 # 2)%Q)]).
Proof. simpl. constructor; [intros [] | constructor]. Defined.

Lemma log_epoch_keeps_consistent_witness :
  exists l',
    current_log (self (snd (log_epoch 1 1 (Some [("accuracy", (1 # 2)%Q)])
                                      (with_log accuracy_log)))) = Some l'
    /\ consistent l'.
Proof.
  exact (log_epoch_keeps_consistent 1 1 (Some [("accuracy", (1 # 2)%Q)])
           (with_log accuracy_log) accuracy_log eq_refl
           accuracy_log_consistent accuracy_dict).
Defined.

(** X8: the log only grows, in call order.  After any sequence of
    [log_epoch] calls, failed ones included, the epochs and the losses are
    those held before followed by the arguments of the calls, one per
    call, and the tracked names are unchanged: [log_epoch] neither checks
    nor renumbers the epoch it is given. *)
Theorem run_calls_appends (calls : list call) : forall s l,
  current_log (self s) = Some l ->
  exists l',
    current_log (self (run_calls calls s)) = Some l'
    /\ epochs l' = epochs l ++ map (fun c : call => fst (fst c)) calls
    /\ train_loss l' = train_loss l ++ map (fun c : call => snd (fst c)) calls
    /\ keys (metrics l') = keys (metrics l).
Proof.
  induction calls as [| [[e x] vm] rest IH]; intros s l Hlog; simpl.
  - exists l. rewrite !app_nil_r. auto.
  - destruct (IH (snd (log_epoch e x vm s)) (logged_epoch e x vm l)) as (l' & H1 & H2 & H3 & H4).
    { rewrite (log_epoch_self _ _ _ _ _ Hlog). reflexivity. }
    destruct (logged_epoch_fields e x vm l) as (E & T & _ & K & _).
    exists l'. unfold run_calls in H1. simpl in H1.
    rewrite H2, H3, H4, E, T, K, <- !app_assoc. auto.
Qed.

Lemma run_calls_appends_witness :
  exists l',
    current_log (self (run_calls [(1%Z, 1%Q, None); (2%Z, 1%Q, None)]
                                 (with_log accuracy_log))) = Some l'
    /\ epochs l' = epochs accuracy_log ++ [1%Z; 2%Z]
    /\ train_loss l' = train_loss accuracy_log ++ [1%Q; 1%Q]
    /\ keys (metrics l') = keys (metrics accuracy_log).
Proof.
  exact (run_calls_appends [(1%Z, 1%Q, None); (2%Z, 1%Q, None)]
           (with_log accuracy_log) accuracy_log eq_refl).
Defined.

Lemma plot_metrics_misaligned (x : list Z) (ms : list (string * list Q)) :
  (exists k vals, In (k, vals) ms /\ vals <> []
                  /\ List.length vals <> List.length x) ->
  (forall kv, In kv ms -> snd kv = [] \/ List.length (snd kv) <> List.length x) ->
  plot_metrics x ms = Raise (ValueError "x and y must have same first dimension").
Proof.
  induction ms as [| [k0 v0] rest IH]; intros (k & vals & Hin & Hne & Hlen) Hall.
  - contradiction.
  - simpl. destruct v0 as [| y ys]; cbn [truthy].
    + apply IH.
      * destruct Hin as [Heq | Hin]; [inversion Heq; subst; contradiction |].
        exists k, vals. auto.
      * intros kv Hkv. apply Hall. right. assumption.
    + destruct (Hall (k0, y :: ys) (or_introl eq_refl)) as [Hnil | Hbad];
        [discriminate |].
      unfold plt_plot. cbn [snd] in Hbad.
      destruct (Nat.eqb (List.length x) (List.length (y :: ys))) eqn:E; [| reflexivity].
      apply Nat.eqb_eq in E. congruence.
Qed.

(** X9: an epoch logged without validation metrics, on an aligned log
    that already holds values of a tracked metric, makes [log_epoch]
    raise: the series is then shorter than the list of epochs and the
    figure cannot be drawn.  The record is appended and written to the
    log file before that. *)
Theorem log_epoch_without_validation_raises n epoch loss s l k series :
  current_log (self s) = Some l ->
  usable (storage s) ->
  aligned n l ->
  In (k, series) (metrics l) ->
  series <> [] ->
  exists s',
    log_epoch epoch loss None s
    = (Raise (ValueError "x and y must have same first dimension"), s')
    /\ training_log_json (storage s') = Some (logged_epoch epoch loss None l)
    /\ epochs (logged_epoch epoch loss None l) = epochs l ++ [epoch].
Proof.
  intros Hlog Hu (He & Ht & Hv & Hnd & Hall) Hin Hne.
  assert (Hdraw : draw (logged_epoch epoch loss None l)
                  = Raise (ValueError "x and y must have same first dimension")).
  { unfold logged_epoch, draw. simpl. unfold plt_plot. simpl.
    rewrite !length_app, He, Ht, Nat.eqb_refl, Hv. simpl.
    rewrite plot_metrics_misaligned; [reflexivity | |].
    - exists k, series. rewrite Forall_forall in Hall.
      pose proof (Hall _ Hin) as Hlen. simpl in Hlen.
      repeat split; try assumption. rewrite length_app, He. simpl. lia.
    - intros kv Hkv. right. rewrite Forall_forall in Hall.
      rewrite (Hall _ Hkv), length_app, He. simpl. lia. }
  destruct Hu as [Hex Hwr].
  rewrite (log_epoch_cases epoch loss None s l Hlog), Hex, Hwr, Hdraw. simpl.
  eexists. split; [reflexivity |]. simpl. split; [reflexivity |].
  destruct (logged_epoch_fields epoch loss None l) as (E & _). exact E.
Qed.

Lemma one_epoch_log_aligned : aligned 1 one_epoch_log.
Proof.
  unfold aligned. simpl. repeat split.
  - constructor; [intros [] | constructor].
  - constructor; [reflexivity | constructor].
Defined.

Lemma log_epoch_without_validation_raises_witness :
  exists s',
    log_epoch 2 1 None (with_log one_epoch_log)
    = (Raise (ValueError "x and y must have same first dimension"), s')
    /\ training_log_json (storage s') = Some (logged_epoch 2 1 None one_epoch_log)
    /\ epochs (logged_epoch 2 1 None one_epoch_log) = epochs one_epoch_log ++ [2%Z].
Proof.
  apply (log_epoch_without_validation_raises 1 2 1 (with_log one_epoch_log) one_epoch_log
           "accuracy" [(1 # 2)%Q]).
  - reflexivity.
  - split; reflexivity.
  - exact one_epoch_log_aligned.
  - left. reflexivity.
  - discriminate.
Defined.

End MonitorMore.

(* ================================================================== *)
(** * Further properties of [Sin]                                      *)
(* ================================================================== *)

Module SinMore.
Import Sin SinRest SinFacts.

Section More.
Context `{C : Collaborators}.

(** ** What leaves the monitor alone *)

Lemma keeps_monitor_ret {A} (a : A) : keeps_monitor (ret a).
Proof. intros s. reflexivity. Qed.

Lemma keeps_monitor_raise {A} e : keeps_monitor (@raise state A e).
Proof. intros s. reflexivity. Qed.

Lemma keeps_monitor_gets {A} (f : state -> A) : keeps_monitor (gets f).
Proof. intros s. reflexivity. Qed.

Lemma keeps_monitor_lift {A} (r : result A) : keeps_monitor (lift_result r).
Proof. intros s. reflexivity. Qed.

Lemma keeps_monitor_bind {A B} (c : M state A) (k : A -> M state B) :
  keeps_monitor c -> (forall a, keeps_monitor (k a)) -> keeps_monitor (bind c k).
Proof.
  intros Hc Hk s. unfold bind.
  specialize (Hc s). destruct (c s) as [[a | e] s1]; simpl in *.
  - rewrite Hk. exact Hc.
  - exact Hc.
Qed.

Lemma keeps_monitor_try {A} (c : M state A) (h : exn -> M state A) :
  keeps_monitor c -> (forall e, keeps_monitor (h e)) -> keeps_monitor (try_except c h).
Proof.
  intros Hc Hh s. unfold try_except.
  specialize (Hc s). destruct (c s) as [[a | e] s1]; simpl in *.
  - exact Hc.
  - rewrite Hh. exact Hc.
Qed.

Lemma keeps_monitor_if {A} (b : bool) (c1 c2 : M state A) :
  keeps_monitor c1 -> keeps_monitor c2 -> keeps_monitor (if b then c1 else c2).
Proof. destruct b; auto. Qed.

Lemma keeps_monitor_logger lv msg args : keeps_monitor (logger lv msg args).
Proof. intros s. reflexivity. Qed.

Lemma keeps_monitor_on_model {A} (op : M backend A) : keeps_monitor (on_model op).
Proof. intros s. unfold on_model. destruct (op (model s)). reflexivity. Qed.

Lemma keeps_monitor_on_memory {A} (op : M memory A) : keeps_monitor (on_memory op).
Proof. intros s. unfold on_memory. destruct (op (mem s)). reflexivity. Qed.

Lemma keeps_monitor_record_call d n : keeps_monitor (record_call d n).
Proof. intros s. reflexivity. Qed.

Lemma keeps_monitor_set_models_dir l : keeps_monitor (set_models_dir l).
Proof. intros s. reflexivity. Qed.

Lemma keeps_monitor_fold {A B} (body : B -> A -> M state B) (l : list A) :
  (forall acc x, keeps_monitor (body acc x)) ->
  forall acc, keeps_monitor (fold_m body l acc).
Proof.
  intros Hbody. induction l as [| x t IH]; intros acc; simpl.
  - apply keeps_monitor_ret.
  - apply keeps_monitor_bind; [apply Hbody | intros a; apply IH].
Qed.

Lemma keeps_monitor_for_each {A} (body : A -> M state unit) (l : list A) :
  (forall x, keeps_monitor (body x)) -> keeps_monitor (for_each l body).
Proof.
  intros Hbody. induction l as [| x t IH]; simpl.
  - apply keeps_monitor_ret.
  - apply keeps_monitor_bind; [apply Hbody | intros a; apply IH].
Qed.

Create HintDb frame discriminated.
#[local] Hint Resolve keeps_monitor_ret keeps_monitor_raise keeps_monitor_gets
  keeps_monitor_lift keeps_monitor_logger keeps_monitor_on_model keeps_monitor_on_memory
  keeps_monitor_record_call keeps_monitor_set_models_dir : frame.
#[local] Hint Extern 2 (keeps_monitor (bind _ _)) =>
  apply keeps_monitor_bind; [ | intros ] : frame.
#[local] Hint Extern 2 (keeps_monitor (try_except _ _)) =>
  apply keeps_monitor_try; [ | intros ] : frame.
#[local] Hint Extern 2 (keeps_monitor (if _ then _ else _)) =>
  apply keeps_monitor_if : frame.
#[local] Hint Extern 2 (keeps_monitor (match ?x with _ => _ end)) => destruct x : frame.

Lemma keeps_monitor_evaluate d n : keeps_monitor (evaluate d n).
Proof. unfold evaluate. auto 10 with frame. Qed.

Lemma keeps_monitor_save : keeps_monitor save.
Proof. unfold save. auto 20 with frame. Qed.

Lemma keeps_monitor_train_batch acc ib : keeps_monitor (train_batch acc ib).
Proof. unfold train_batch. auto 20 with frame. Qed.

Lemma keeps_monitor_load_all : keeps_monitor _load_all_datasets.
Proof.
  unfold _load_all_datasets.
  apply keeps_monitor_bind; [auto with frame | intros filenames].
  apply keeps_monitor_bind; [| intros; auto with frame].
  apply keeps_monitor_fold. intros acc f. unfold load_file. auto 20 with frame.
Qed.

(** ** [train] without data *)

(** X10: when no file of the conversations directory loads, or the ones
    that load hold no sample, [train] raises [ValueError] before anything
    else happens: the evaluator is not called, and the model, the memory,
    the monitor and the models directory are left as they are.  The log
    gets the failures of the files, then an error and a critical record. *)
Theorem train_without_data (filenames : list string) (epochs : Z)
    (val_dataset : option (dataset sample)) (s : state) :
  listdir conversations_dir = Ok filenames ->
  nonempty (match successes filenames with
            | [] => None
            | ds => Some (ConcatDataset ds)
            end) = false ->
  exists s',
    train epochs val_dataset s = (Raise (ValueError "No training data found"), s')
    /\ model s' = model s /\ mem s' = mem s /\ monitor s' = monitor s
    /\ evaluator_calls s' = evaluator_calls s /\ models_dir s' = models_dir s
    /\ logged s'
       = logged s ++ [(INFO, "Starting training for {} epochs", [])]
         ++ failures filenames
         ++ [(ERROR, "No training data found", []);
             (CRITICAL, "Training failed: {}", ["No training data found"])].
Proof.
  intros Hdir Hempty. unfold train.
  unfold bind at 1. unfold logger at 1, modify.
  unfold try_except. unfold bind at 1.
  rewrite (load_all_datasets_run filenames _ Hdir).
  destruct (successes filenames) as [| d ds] eqn:Hs.
  - unfold bind, logger, modify, raise. simpl.
    eexists. split; [reflexivity |]. simpl.
    repeat split. rewrite <- !app_assoc. reflexivity.
  - rewrite Hempty. unfold bind, logger, modify, raise. simpl.
    eexists. split; [reflexivity |]. simpl.
    repeat split. rewrite <- !app_assoc. reflexivity.
Qed.

(** ** [save] *)

(** X11: when saving the model raises, [save] raises the same exception
    and the memory is not saved: nothing after the failing call runs.  The
    monitor and the memory are left as they are, and the failure is
    logged as an error. *)
Theorem save_stops_at_model_failure (s : state) (e : exn) (b : backend) :
  model_save (the_models_dir ++ "/" ++ canonical_model) (model s) = (Raise e, b) ->
  exists s',
    save s = (Raise e, s')
    /\ model s' = b /\ mem s' = mem s /\ monitor s' = monitor s
    /\ logged s'
       = logged s ++ [(INFO, "Saving model...", []);
                      (ERROR, "Failed to save: {}", [str_exn e])].
Proof.
  intros H. unfold save, try_except.
  unfold bind at 1. unfold logger at 1, modify.
  unfold bind at 1. unfold on_model at 1.
  cbn [model mem monitor evaluator_calls models_dir logged fst snd].
  rewrite H. unfold bind, logger, modify, raise.
  cbn [model mem monitor evaluator_calls models_dir logged fst snd].
  eexists. split; [reflexivity |].
  cbn [model mem monitor evaluator_calls models_dir logged].
  rewrite <- app_assoc. auto.
Qed.

(** ** [load] *)

Section Load.
Variable memory_exists : bool.
Variable memory_load : string -> M memory unit.
Variable new_memory : result memory.

(** X12: [load] does not raise as long as a new memory can be made.  With
    no memory file it does nothing at all; when loading the file raises,
    the memory is replaced by a new one, whatever the failed load had done
    to the old one; otherwise the memory is what the load left.  The model
    and the monitor are never touched. *)
Theorem load_falls_back_to_new_memory (m0 : memory) (s : state) :
  new_memory = Ok m0 ->
  exists s',
    load memory_exists memory_load new_memory s = (Ok tt, s')
    /\ model s' = model s /\ monitor s' = monitor s
    /\ (memory_exists = false -> s' = s)
    /\ mem s' = (if memory_exists
                 then match memory_load (data_dir ++ "/memory.json") (mem s) with
                      | (Ok _, m') => m'
                      | (Raise _, _) => m0
                      end
                 else mem s).
Proof.
  intros Hnew. unfold load, try_except. destruct memory_exists.
  - unfold bind at 1. unfold logger at 1, modify.
    unfold bind at 1. unfold on_memory at 1.
    cbn [model mem monitor evaluator_calls models_dir logged fst snd].
    destruct (memory_load _ (mem s)) as [[[] | e] m'].
    + unfold logger, modify.
      eexists. split; [reflexivity |]. simpl.
      repeat split. intros; discriminate.
    + rewrite Hnew. unfold bind, logger, modify, lift_result, set_memory, modify.
      eexists. split; [reflexivity |]. simpl.
      repeat split. intros; discriminate.
  - unfold ret. exists s. repeat split.
Qed.

End Load.

(** ** [list_models] *)

Section ListModels.
Variable stat_other : dir_entry -> result Q.

Lemma insert_desc_fst_perm {A} (x : Q * A) (l : list (Q * A)) :
  Permutation (insert_desc fst x l) (x :: l).
Proof.
  induction l as [| y t IH]; simpl.
  - apply Permutation_refl.
  - destruct (Qle_bool (fst y) (fst x)).
    + apply Permutation_refl.
    + eapply Permutation_trans; [apply perm_skip, IH | apply perm_swap].
Qed.

Lemma sorted_desc_fst_perm {A} (l : list (Q * A)) : Permutation (sorted_desc fst l) l.
Proof.
  induction l as [| x t IH]; simpl.
  - apply Permutation_refl.
  - eapply Permutation_trans; [apply insert_desc_fst_perm | apply perm_skip, IH].
Qed.

Lemma insert_desc_fst_sorted {A} (x : Q * A) (l : list (Q * A)) :
  StronglySorted (fun a b => (fst b <= fst a)%Q) l ->
  StronglySorted (fun a b => (fst b <= fst a)%Q) (insert_desc fst x l).
Proof.
  induction l as [| y t IH]; simpl; intros Hs.
  - constructor; constructor.
  - apply StronglySorted_inv in Hs. destruct Hs as [Ht Hy].
    destruct (Qle_bool (fst y) (fst x)) eqn:Hcmp.
    + apply Qle_bool_iff in Hcmp.
      constructor; [constructor; assumption |].
      constructor; [assumption |].
      rewrite Forall_forall in *. intros z Hz.
      eapply Qle_trans; [apply Hy; assumption | assumption].
    + assert (Hlt : (fst x < fst y)%Q).
      { apply Qnot_le_lt. intros Hle. apply Qle_bool_iff in Hle. congruence. }
      constructor; [apply IH; assumption |].
      rewrite Forall_forall in *. intros z Hz.
      apply (Permutation_in _ (insert_desc_fst_perm x t)) in Hz.
      destruct Hz as [<- | Hz]; [apply Qlt_le_weak; assumption | apply Hy; assumption].
Qed.

Lemma sorted_desc_fst_sorted {A} (l : list (Q * A)) :
  StronglySorted (fun a b => (fst b <= fst a)%Q) (sorted_desc fst l).
Proof.
  induction l as [| x t IH]; simpl.
  - constructor.
  - apply insert_desc_fst_sorted. assumption.
Qed.

(** When every item has a key, [keyed] pairs each item with its key. *)
Lemma keyed_ok (l : list dir_entry) :
  (forall f, In f l -> exists t, stat_mtime stat_other f = Ok t) ->
  exists ranked,
    keyed stat_other l = Ok ranked
    /\ map snd ranked = l
    /\ forall kf, In kf ranked -> stat_mtime stat_other (snd kf) = Ok (fst kf).
Proof.
  induction l as [| f t IH]; intros H; simpl.
  - exists []. repeat split. intros kf [].
  - destruct (H f (or_introl eq_refl)) as (k & Hk).
    destruct IH as (kt & Hkt & Hsnd & Hkeys); [intros g Hg; apply H; right; exact Hg |].
    rewrite Hk, Hkt. exists ((k, f) :: kt).
    split; [reflexivity |]. split; [simpl; rewrite Hsnd; reflexivity |].
    intros kf [<- | Hin]; [exact Hk | apply Hkeys; exact Hin].
Qed.

(** The first item without a key ends the call. *)
Lemma keyed_raises (before : list dir_entry) (f : dir_entry) (after : list dir_entry) e :
  (forall g, In g before -> exists t, stat_mtime stat_other g = Ok t) ->
  stat_mtime stat_other f = Raise e ->
  keyed stat_other (before ++ f :: after) = Raise e.
Proof.
  induction before as [| g t IH]; intros Hbefore Hf; simpl.
  - rewrite Hf. reflexivity.
  - destruct (Hbefore g (or_introl eq_refl)) as (k & Hk). rewrite Hk.
    rewrite IH; [reflexivity | | exact Hf].
    intros h Hh. apply Hbefore. right. exact Hh.
Qed.

(** X13: [list_models] asks [stat()] of every entry of the models directory
    whose name ends in [.pt], directories and links included, with no
    [is_file()] test.  When each of them can be examined, it returns their
    names, one for each entry, the most recently modified first, and
    changes nothing.  When one of them cannot, as a link whose target is
    missing, it raises what [stat()] raises on the first such entry in
    directory order. *)
Theorem list_models_newest_first (s : state) :
  ((forall f, In f (glob_pt (models_dir s)) ->
              exists t, stat_mtime stat_other f = Ok t) ->
   exists ranked,
     list_models stat_other s = (Ok (map (fun kf => name (snd kf)) ranked), s)
     /\ Permutation (map snd ranked) (glob_pt (models_dir s))
     /\ (forall kf, In kf ranked -> stat_mtime stat_other (snd kf) = Ok (fst kf))
     /\ StronglySorted (fun a b => (fst b <= fst a)%Q) ranked
     /\ forall f, In f (map snd ranked)
                  <-> In f (models_dir s) /\ endswith ".pt" (name f) = true)
  /\ (forall before f after e,
        glob_pt (models_dir s) = before ++ f :: after ->
        (forall g, In g before -> exists t, stat_mtime stat_other g = Ok t) ->
        stat_mtime stat_other f = Raise e ->
        list_models stat_other s = (Raise e, s)).
Proof.
  split.
  - intros Hall. destruct (keyed_ok _ Hall) as (ranked & Hk & Hsnd & Hkeys).
    exists (sorted_desc fst ranked).
    assert (Hperm : Permutation (map snd (sorted_desc fst ranked)) (glob_pt (models_dir s))).
    { rewrite <- Hsnd. apply Permutation_map, sorted_desc_fst_perm. }
    split; [unfold list_models, bind, gets, lift_result; rewrite Hk; reflexivity |].
    split; [exact Hperm |].
    split.
    { intros kf Hin. apply Hkeys.
      apply (Permutation_in _ (sorted_desc_fst_perm ranked)). exact Hin. }
    split; [apply sorted_desc_fst_sorted |].
    intros f. unfold glob_pt in *.
    rewrite <- (filter_In (fun f => endswith ".pt" (name f)) f (models_dir s)). split.
    + apply Permutation_in. exact Hperm.
    + apply Permutation_in, Permutation_sym. exact Hperm.
  - intros before f after e Hsplit Hbefore Hf.
    unfold list_models, bind, gets, lift_result.
    rewrite Hsplit, (keyed_raises before f after e Hbefore Hf). reflexivity.
Qed.


(** ** [_cleanup_old_models], then [list_models] *)

Lemma insert_desc_front (x : dir_entry) (l : list dir_entry) :
  Forall (fun y => (st_mtime y <= st_mtime x)%Q) l ->
  insert_desc st_mtime x l = x :: l.
Proof.
  destruct l as [| y t]; simpl; intros H; [reflexivity |].
  inversion H as [| ? ? Hy _]; subst.
  apply Qle_bool_iff in Hy. rewrite Hy. reflexivity.
Qed.

Lemma filter_insert_desc (P : dir_entry -> bool) (x : dir_entry) (l : list dir_entry) :
  newest_first l ->
  filter P (insert_desc st_mtime x l)
  = if P x then insert_desc st_mtime x (filter P l) else filter P l.
Proof.
  unfold newest_first. induction l as [| a t IH]; intros Hs.
  - simpl. destruct (P x); reflexivity.
  - apply StronglySorted_inv in Hs. destruct Hs as [Ht Ha].
    cbn [insert_desc].
    destruct (Qle_bool (st_mtime a) (st_mtime x)) eqn:E.
    + cbn [filter]. destruct (P x) eqn:Px; [| reflexivity].
      symmetry. apply (insert_desc_front x (filter P (a :: t))).
      apply Qle_bool_iff in E.
      rewrite Forall_forall in *. intros y Hy.
      apply filter_In in Hy. destruct Hy as [[<- | Hy] _]; [exact E |].
      eapply Qle_trans; [apply Ha; exact Hy | exact E].
    + cbn [filter]. rewrite (IH Ht).
      destruct (P a) eqn:Pa, (P x) eqn:Px; cbn [insert_desc]; try rewrite E; reflexivity.
Qed.

(** Sorting and filtering commute: the sort is stable. *)
Lemma filter_sorted_desc (P : dir_entry -> bool) (l : list dir_entry) :
  filter P (sorted_desc st_mtime l) = sorted_desc st_mtime (filter P l).
Proof.
  induction l as [| a t IH]; simpl; [reflexivity |].
  rewrite filter_insert_desc by apply sorted_desc_sorted.
  rewrite IH. destruct (P a); reflexivity.
Qed.

Lemma filter_keeps_all {A} (f : A -> bool) (l : list A) :
  (forall x, In x l -> f x = true) -> filter f l = l.
Proof.
  induction l as [| a t IH]; simpl; intros H; [reflexivity |].
  rewrite (H a (or_introl eq_refl)), IH; [reflexivity |].
  intros x Hx. apply H. right. exact Hx.
Qed.

Lemma filter_keeps_none {A} (f : A -> bool) (l : list A) :
  (forall x, In x l -> f x = false) -> filter f l = [].
Proof.
  induction l as [| a t IH]; simpl; intros H; [reflexivity |].
  rewrite (H a (or_introl eq_refl)). apply IH.
  intros x Hx. apply H. right. exact Hx.
Qed.

Lemma cleanup_run (max_models : Z) (s : state) :
  (0 <= max_models)%Z ->
  let old := skipn (Z.to_nat max_models) (candidates (models_dir s)) in
  _cleanup_old_models max_models s =
  (Ok tt,
   mk_state (model s) (mem s) (monitor s) (evaluator_calls s)
            (filter (fun f => negb (removed_by old f)) (models_dir s))
            (logged s ++ map removal_record old)).
Proof.
  intros Hmax old. unfold _cleanup_old_models, bind, gets, slice_from.
  destruct (max_models <? 0)%Z eqn:Hneg; [apply Z.ltb_lt in Hneg; lia |].
  apply remove_all_run.
Qed.

(** What pruning leaves of the ranked files, when every one of them can
    be removed: the first [max_models]. *)
Lemma cleanup_candidates (max_models : Z) (s : state) :
  (0 <= max_models)%Z ->
  NoDup (map name (models_dir s)) ->
  (forall f, In f (models_dir s) -> endswith ".pt" (name f) = true ->
             is_file f = true -> unlink_error f = None) ->
  candidates (models_dir (snd (_cleanup_old_models max_models s)))
  = firstn (Z.to_nat max_models) (candidates (models_dir s)).
Proof.
  intros Hmax Hnd Hall.
  rewrite (cleanup_run max_models s Hmax). cbn [snd models_dir].
  set (n := Z.to_nat max_models).
  set (L := candidates (models_dir s)).
  assert (HL : forall f, In f L ->
                 In f (models_dir s) /\ is_file f = true /\ endswith ".pt" (name f) = true)
    by (intros f; apply candidates_In).
  assert (HndL : NoDup L) by (apply candidates_NoDup; exact Hnd).
  transitivity (filter (fun f => negb (removed_by (skipn n L) f)) L).
  { unfold L, candidates, glob_pt.
    rewrite filter_sorted_desc. f_equal.
    rewrite !filter_twice. apply filter_ext. intros f.
    destruct (negb (removed_by _ f)), (endswith ".pt" (name f)), (is_file f); reflexivity. }
  transitivity (filter (fun f => negb (removed_by (skipn n L) f))
                       (firstn n L ++ skipn n L));
    [rewrite firstn_skipn; reflexivity |].
  rewrite filter_app.
  rewrite (filter_keeps_none _ (skipn n L)), app_nil_r.
  - apply filter_keeps_all. intros f Hf.
    destruct (removed_by (skipn n L) f) eqn:Hrem; [| reflexivity].
    exfalso. apply removed_by_iff in Hrem. destruct Hrem as (o & Ho & Hname & _).
    assert (HfL : In f L)
      by (rewrite <- (firstn_skipn n L); apply in_or_app; left; exact Hf).
    assert (HoL : In o L)
      by (rewrite <- (firstn_skipn n L); apply in_or_app; right; exact Ho).
    assert (f = o)
      by (apply (same_name_same_entry (models_dir s) Hnd);
          [apply HL, HfL | apply HL, HoL | exact Hname]).
    subst o. apply (NoDup_app_disjoint (firstn n L) (skipn n L) f); try assumption.
    rewrite firstn_skipn. exact HndL.
  - intros f Hf. apply negb_false_iff. apply removed_by_iff.
    exists f. split; [exact Hf |]. split; [reflexivity |].
    assert (HfL : In f L)
      by (rewrite <- (firstn_skipn n L); apply in_or_app; right; exact Hf).
    destruct (HL f HfL) as (Hin & Hfile & Hpt). apply (Hall f Hin Hpt Hfile).
Qed.

Lemma cleanup_keeps_entries (max_models : Z) (s : state) (f : dir_entry) :
  (0 <= max_models)%Z ->
  In f (models_dir (snd (_cleanup_old_models max_models s))) -> In f (models_dir s).
Proof.
  intros Hmax. rewrite (cleanup_run max_models s Hmax). cbn [snd models_dir].
  intros H. apply filter_In in H. tauto.
Qed.

(** With regular files only, the ranking is the one of [sorted] on the
    modification times. *)
Lemma insert_desc_decorated (x : dir_entry) (l : list dir_entry) :
  insert_desc fst (st_mtime x, x) (map (fun f => (st_mtime f, f)) l)
  = map (fun f => (st_mtime f, f)) (insert_desc st_mtime x l).
Proof.
  induction l as [| y t IH]; simpl; [reflexivity |].
  destruct (Qle_bool (st_mtime y) (st_mtime x)); simpl; [reflexivity |].
  rewrite IH. reflexivity.
Qed.

Lemma sorted_desc_decorated (l : list dir_entry) :
  sorted_desc fst (map (fun f => (st_mtime f, f)) l)
  = map (fun f => (st_mtime f, f)) (sorted_desc st_mtime l).
Proof.
  induction l as [| x t IH]; simpl; [reflexivity |].
  rewrite IH. apply insert_desc_decorated.
Qed.

Lemma keyed_files (l : list dir_entry) :
  (forall f, In f l -> is_file f = true) ->
  keyed stat_other l = Ok (map (fun f => (st_mtime f, f)) l).
Proof.
  induction l as [| f t IH]; intros H; simpl; [reflexivity |].
  unfold stat_mtime. rewrite (H f (or_introl eq_refl)).
  rewrite IH; [reflexivity |]. intros g Hg. apply H. right. exact Hg.
Qed.

Lemma list_models_files (s : state) :
  (forall f, In f (models_dir s) -> endswith ".pt" (name f) = true -> is_file f = true) ->
  list_models stat_other s = (Ok (map name (candidates (models_dir s))), s).
Proof.
  intros Hdir. unfold list_models, bind, gets, lift_result.
  rewrite keyed_files.
  - rewrite sorted_desc_decorated, map_map. simpl. unfold ret. do 3 f_equal.
    unfold candidates. f_equal. symmetry. apply filter_keeps_all.
    intros f Hf. unfold glob_pt in Hf. apply filter_In in Hf.
    destruct Hf as [Hin Hpt]. apply (Hdir f Hin Hpt).
  - intros f Hf. unfold glob_pt in Hf. apply filter_In in Hf.
    destruct Hf as [Hin Hpt]. apply (Hdir f Hin Hpt).
Qed.

(** X14: pruning and listing agree when every [*.pt] entry of the models
    directory is a regular file that can be removed: after
    [_cleanup_old_models] with [max_models >= 0], [list_models] returns
    the first [max_models] names of what it returned before. *)
Theorem cleanup_then_list_models (max_models : Z) (s : state) :
  (0 <= max_models)%Z ->
  NoDup (map name (models_dir s)) ->
  (forall f, In f (models_dir s) -> endswith ".pt" (name f) = true ->
             is_file f = true /\ unlink_error f = None) ->
  exists names,
    fst (list_models stat_other s) = Ok names
    /\ fst (list_models stat_other (snd (_cleanup_old_models max_models s)))
       = Ok (firstn (Z.to_nat max_models) names).
Proof.
  intros Hmax Hnd Hall.
  exists (map name (candidates (models_dir s))).
  rewrite !list_models_files.
  - split; [reflexivity |]. cbn [fst]. rewrite firstn_map. do 2 f_equal.
    apply cleanup_candidates; [exact Hmax | exact Hnd |].
    intros f Hin Hpt _. apply (Hall f Hin Hpt).
  - intros f Hin Hpt. apply (Hall f (cleanup_keeps_entries _ _ _ Hmax Hin) Hpt).
  - intros f Hin Hpt. apply (Hall f Hin Hpt).
Qed.

End ListModels.

(** ** [train], then [get_training_report] *)

Lemma bind_ok {S A B} (c : M S A) (k : A -> M S B) s b s' :
  bind c k s = (Ok b, s') ->
  exists a s1, c s = (Ok a, s1) /\ k a s1 = (Ok b, s').
Proof.
  unfold bind. destruct (c s) as [[a | e] s1]; intros H; [| discriminate].
  exists a, s1. auto.
Qed.

Lemma try_reraise_ok {S A} (c : M S A) (h : exn -> M S unit) s a s' :
  try_except c (fun e => h e ;; raise e) s = (Ok a, s') -> c s = (Ok a, s').
Proof.
  unfold try_except. destruct (c s) as [[a0 | e] s1]; intros H; [exact H |].
  unfold bind, raise in H. destruct (h e s1) as [[[] | e'] s2]; discriminate.
Qed.

Lemma for_each_last_ok {S A} (body : A -> M S unit) (x : A) (l : list A) :
  forall s s', for_each (l ++ [x]) body s = (Ok tt, s') ->
  exists s1, body x s1 = (Ok tt, s').
Proof.
  induction l as [| y t IH]; intros s s' H; simpl in H.
  - apply bind_ok in H. destruct H as ([] & s1 & Hx & Hret).
    inversion Hret; subst. exists s. exact Hx.
  - apply bind_ok in H. destruct H as ([] & s1 & _ & H). apply (IH _ _ H).
Qed.

Lemma keeps_monitor_run {A} (c : M state A) s r s1 :
  keeps_monitor c -> c s = (r, s1) -> monitor s1 = monitor s.
Proof. intros Hc H. specialize (Hc s). rewrite H in Hc. exact Hc. Qed.

Lemma on_monitor_reads {A} (op : M Monitor.state A) :
  (forall m, snd (op m) = m) -> keeps_monitor (on_monitor op).
Proof.
  intros Hop s. unfold on_monitor. specialize (Hop (monitor s)).
  destruct (op (monitor s)) as [r m]. exact Hop.
Qed.

Lemma get_best_epoch_reads metric m : snd (Monitor.get_best_epoch metric m) = m.
Proof.
  unfold Monitor.get_best_epoch, Monitor.get_current_log, bind, lift_result, ret.
  destruct (Monitor.current_log (Monitor.self m)) as [l |]; [| reflexivity].
  destruct (get metric (Monitor.metrics l)) as [[| x t] |]; reflexivity.
Qed.

Lemma log_epoch_ok_in_step epoch loss vm m m' :
  Monitor.log_epoch epoch loss vm m = (Ok tt, m') ->
  exists l, Monitor.current_log (Monitor.self m') = Some l
            /\ Monitor.training_log_json (Monitor.storage m') = Some l.
Proof.
  intros Hrun. destruct (Monitor.current_log (Monitor.self m)) as [l |] eqn:Hlog.
  - rewrite (MonitorMore.log_epoch_cases epoch loss vm m l Hlog) in Hrun.
    destruct (Monitor.dir_exists (Monitor.storage m) && Monitor.writable (Monitor.storage m));
      [| discriminate].
    destruct (Monitor.draw (Monitor.logged_epoch epoch loss vm l)) as [fig | e];
      [| discriminate].
    inversion Hrun; subst m'. eexists. split; reflexivity.
  - pose proof (MonitorMore.log_epoch_without_log epoch loss vm m Hlog) as Hno.
    rewrite Hrun in Hno. discriminate.
Qed.

(** An epoch that returns leaves the log file in step with the log. *)
Lemma train_epoch_ok_in_step ds val epoch s s' :
  train_epoch ds val epoch s = (Ok tt, s') -> in_step s'.
Proof.
  unfold train_epoch. intros H.
  apply bind_ok in H. destruct H as (? & s1 & _ & H).
  apply bind_ok in H. destruct H as (? & s2 & _ & H).
  apply try_reraise_ok in H.
  apply bind_ok in H. destruct H as (bs & s3 & _ & H).
  apply bind_ok in H. destruct H as (total & s4 & _ & H).
  apply bind_ok in H. destruct H as (? & s5 & _ & H).
  apply bind_ok in H. destruct H as (vm & s6 & _ & H).
  apply bind_ok in H. destruct H as (? & s7 & Hlog & H).
  unfold on_monitor in Hlog.
  destruct (Monitor.log_epoch (epoch + 1) total vm (monitor s6)) as [[[] | e] m'] eqn:Hrun;
    [| discriminate].
  apply log_epoch_ok_in_step in Hrun.
  inversion Hlog; subst s7. inversion H; subst s'. exact Hrun.
Qed.

(** [train] never changes the directory of the monitor. *)
Lemma keeps_log_dir_frame {A} (c : M state A) : keeps_monitor c -> keeps_log_dir c.
Proof. intros H s. rewrite H. reflexivity. Qed.

Lemma keeps_log_dir_bind {A B} (c : M state A) (k : A -> M state B) :
  keeps_log_dir c -> (forall a, keeps_log_dir (k a)) -> keeps_log_dir (bind c k).
Proof.
  intros Hc Hk s. unfold bind.
  specialize (Hc s). destruct (c s) as [[a | e] s1]; simpl in *.
  - rewrite Hk. exact Hc.
  - exact Hc.
Qed.

Lemma keeps_log_dir_try {A} (c : M state A) (h : exn -> M state A) :
  keeps_log_dir c -> (forall e, keeps_log_dir (h e)) -> keeps_log_dir (try_except c h).
Proof.
  intros Hc Hh s. unfold try_except.
  specialize (Hc s). destruct (c s) as [[a | e] s1]; simpl in *.
  - exact Hc.
  - rewrite Hh. exact Hc.
Qed.

Lemma keeps_log_dir_for_each {A} (body : A -> M state unit) (l : list A) :
  (forall x, keeps_log_dir (body x)) -> keeps_log_dir (for_each l body).
Proof.
  intros Hbody. induction l as [| x t IH]; simpl.
  - apply keeps_log_dir_frame, keeps_monitor_ret.
  - apply keeps_log_dir_bind; [apply Hbody | intros a; apply IH].
Qed.

Lemma log_epoch_log_dir epoch loss vm m :
  Monitor.log_dir (Monitor.self (snd (Monitor.log_epoch epoch loss vm m)))
  = Monitor.log_dir (Monitor.self m).
Proof.
  destruct (Monitor.current_log (Monitor.self m)) as [l |] eqn:Hlog.
  - rewrite (MonitorFacts.log_epoch_self _ _ _ _ _ Hlog). reflexivity.
  - unfold Monitor.log_epoch, try_except, Monitor.update_log, Monitor.get_current_log.
    unfold bind. rewrite Hlog. reflexivity.
Qed.

Lemma keeps_log_dir_log_epoch epoch loss vm :
  keeps_log_dir (on_monitor (Monitor.log_epoch epoch loss vm)).
Proof.
  intros s. unfold on_monitor.
  pose proof (log_epoch_log_dir epoch loss vm (monitor s)) as H.
  destruct (Monitor.log_epoch epoch loss vm (monitor s)) as [r m']. exact H.
Qed.

Lemma keeps_log_dir_train_epoch ds val epoch : keeps_log_dir (train_epoch ds val epoch).
Proof.
  unfold train_epoch.
  apply keeps_log_dir_bind; [apply keeps_log_dir_frame; auto with frame | intros ?].
  apply keeps_log_dir_bind; [apply keeps_log_dir_frame; auto with frame | intros ?].
  apply keeps_log_dir_try.
  - apply keeps_log_dir_bind; [apply keeps_log_dir_frame; auto with frame | intros ?].
    apply keeps_log_dir_bind.
    { apply keeps_log_dir_frame, keeps_monitor_fold. intros. apply keeps_monitor_train_batch. }
    intros ?.
    apply keeps_log_dir_bind; [apply keeps_log_dir_frame; auto with frame | intros ?].
    apply keeps_log_dir_bind.
    { apply keeps_log_dir_frame. apply keeps_monitor_if; [| apply keeps_monitor_ret].
      apply keeps_monitor_bind; [apply keeps_monitor_logger | intros ?].
      apply keeps_monitor_bind; [apply keeps_monitor_evaluate | intros ?].
      auto with frame. }
    intros ?.
    apply keeps_log_dir_bind; [apply keeps_log_dir_log_epoch | intros ?].
    apply keeps_log_dir_frame; auto with frame.
  - intros e. apply keeps_log_dir_frame; auto with frame.
Qed.

Lemma keeps_log_dir_train epochs val : keeps_log_dir (train epochs val).
Proof.
  unfold train.
  apply keeps_log_dir_bind; [apply keeps_log_dir_frame; auto with frame | intros ?].
  apply keeps_log_dir_try.
  - apply keeps_log_dir_bind; [apply keeps_log_dir_frame, keeps_monitor_load_all | intros loaded].
    apply keeps_log_dir_bind.
    { apply keeps_log_dir_frame. destruct loaded as [d |].
      - apply keeps_monitor_if; [apply keeps_monitor_ret |].
        apply keeps_monitor_bind; [apply keeps_monitor_logger | intros ?].
        apply keeps_monitor_raise.
      - apply keeps_monitor_bind; [apply keeps_monitor_logger | intros ?].
        apply keeps_monitor_raise. }
    intros ?.
    apply keeps_log_dir_bind; [apply keeps_log_dir_frame; auto with frame | intros ?].
    apply keeps_log_dir_bind.
    { apply keeps_log_dir_frame. apply keeps_monitor_if; [| apply keeps_monitor_ret].
      apply keeps_monitor_bind; [apply keeps_monitor_logger | intros ?].
      apply keeps_monitor_bind; [apply keeps_monitor_evaluate | intros ?].
      apply keeps_monitor_logger. }
    intros ?.
    apply keeps_log_dir_bind; [apply keeps_log_dir_frame; auto with frame | intros ?].
    apply keeps_log_dir_bind;
      [apply keeps_log_dir_for_each; intros; apply keeps_log_dir_train_epoch | intros ?].
    apply keeps_log_dir_bind.
    { apply keeps_log_dir_frame, on_monitor_reads. intros m. apply get_best_epoch_reads. }
    intros ?.
    apply keeps_log_dir_bind; [apply keeps_log_dir_frame; auto with frame | intros ?].
    apply keeps_log_dir_bind; [apply keeps_log_dir_frame, keeps_monitor_save | intros ?].
    apply keeps_log_dir_frame, on_monitor_reads. intros m.
    unfold Monitor.get_current_log. destruct (Monitor.current_log (Monitor.self m)); reflexivity.
  - intros e. apply keeps_log_dir_frame; auto with frame.
Qed.

Section Report.
Variable report_elsewhere : state -> result (option Monitor.training_log).

(** X15: what [train] returns is what [get_training_report] then reads,
    when the monitor writes to [data/logs], the directory that
    [get_training_report] reads from.  When [train] then returns a log,
    after at least one epoch or from a state where the log file was in
    step with the log, the log file holds exactly the log returned, and
    the report is that log. *)
Theorem train_then_report (epochs : Z) (val_dataset : option (dataset sample))
    (s s' : state) (log : Monitor.training_log) :
  posix_str (Monitor.log_dir (Monitor.self (monitor s))) = "data/logs" ->
  train epochs val_dataset s = (Ok log, s') ->
  (0 < epochs)%Z \/ in_step s ->
  get_training_report report_elsewhere s' = (Ok (Some log), s').
Proof.
  intros Hdir H Hstart.
  assert (Hdir' : posix_str (Monitor.log_dir (Monitor.self (monitor s'))) = "data/logs").
  { pose proof (keeps_log_dir_train epochs val_dataset s) as Hkeep.
    rewrite H in Hkeep. simpl in Hkeep. rewrite Hkeep. exact Hdir. }
  unfold train in H.
  apply bind_ok in H. destruct H as (? & s0 & Hs0 & H).
  apply try_reraise_ok in H.
  apply bind_ok in H. destruct H as (loaded & s1 & Hs1 & H).
  apply bind_ok in H. destruct H as (ds & s2 & Hs2 & H).
  apply bind_ok in H. destruct H as (? & s3 & Hs3 & H).
  apply bind_ok in H. destruct H as (? & s4 & Hs4 & H).
  apply bind_ok in H. destruct H as (? & s5 & Hs5 & H).
  apply bind_ok in H. destruct H as ([] & s6 & Hloop & H).
  apply bind_ok in H. destruct H as (best & s7 & Hs7 & H).
  apply bind_ok in H. destruct H as (? & s8 & Hs8 & H).
  apply bind_ok in H. destruct H as (? & s9 & Hs9 & H).
  assert (Hstep : in_step s6).
  { destruct (Z.ltb_spec 0 epochs) as [Hpos | Hnone].
    - unfold range in Hloop.
      destruct (Z.to_nat epochs) as [| n] eqn:Hn; [lia |].
      rewrite seq_S, map_app in Hloop. simpl in Hloop.
      apply for_each_last_ok in Hloop. destruct Hloop as (sx & Hlast).
      apply (train_epoch_ok_in_step _ _ _ _ _ Hlast).
    - destruct Hstart as [Hpos | Hin]; [lia |].
      unfold range in Hloop.
      replace (Z.to_nat epochs) with 0 in Hloop by lia.
      simpl in Hloop. inversion Hloop; subst s6.
      unfold in_step.
      rewrite (keeps_monitor_run _ _ _ _ (keeps_monitor_on_model _) Hs5).
      assert (Hs4' : monitor s4 = monitor s3).
      { eapply keeps_monitor_run; [| exact Hs4].
        apply keeps_monitor_if; [| apply keeps_monitor_ret].
        apply keeps_monitor_bind; [apply keeps_monitor_logger | intros ?].
        apply keeps_monitor_bind; [apply keeps_monitor_evaluate | intros ?].
        apply keeps_monitor_logger. }
      rewrite Hs4'.
      rewrite (keeps_monitor_run _ _ _ _ (keeps_monitor_logger _ _ _) Hs3).
      assert (Hs2' : monitor s2 = monitor s1).
      { eapply keeps_monitor_run; [| exact Hs2].
        destruct loaded as [d |].
        - apply keeps_monitor_if; [apply keeps_monitor_ret |].
          apply keeps_monitor_bind; [apply keeps_monitor_logger | intros ?].
          apply keeps_monitor_raise.
        - apply keeps_monitor_bind; [apply keeps_monitor_logger | intros ?].
          apply keeps_monitor_raise. }
      rewrite Hs2'.
      rewrite (keeps_monitor_run _ _ _ _ keeps_monitor_load_all Hs1).
      rewrite (keeps_monitor_run _ _ _ _ (keeps_monitor_logger _ _ _) Hs0).
      exact Hin. }
  assert (Hmon : monitor s9 = monitor s6).
  { rewrite (keeps_monitor_run _ _ _ _ keeps_monitor_save Hs9).
    rewrite (keeps_monitor_run _ _ _ _ (keeps_monitor_logger _ _ _) Hs8).
    eapply keeps_monitor_run; [| exact Hs7].
    apply on_monitor_reads. intros m. apply get_best_epoch_reads. }
  destruct Hstep as (l & Hcur & Hfile). rewrite <- Hmon in Hcur, Hfile.
  unfold on_monitor, Monitor.get_current_log in H. rewrite Hcur in H.
  inversion H; subst log s'.
  unfold get_training_report. rewrite Hdir'. cbn [monitor]. rewrite Hfile.
  destruct s9; reflexivity.
Qed.

End Report.

(** ** [train] when a training step fails *)

Lemma bind_run_ok {S A B} (c : M S A) (k : A -> M S B) s a s1 :
  c s = (Ok a, s1) -> bind c k s = k a s1.
Proof. intros H. unfold bind. rewrite H. reflexivity. Qed.

Lemma bind_run_raise {S A B} (c : M S A) (k : A -> M S B) s e s1 :
  c s = (Raise e, s1) -> bind c k s = (Raise e, s1).
Proof. intros H. unfold bind. rewrite H. reflexivity. Qed.

Lemma try_run_raise {S A} (c : M S A) (h : exn -> M S A) s e s1 :
  c s = (Raise e, s1) -> try_except c h s = h e s1.
Proof. intros H. unfold try_except. rewrite H. reflexivity. Qed.

Lemma on_model_run {A} (op : M backend A) s r b :
  op (model s) = (r, b) ->
  on_model op s
  = (r, mk_state b (mem s) (monitor s) (evaluator_calls s) (models_dir s) (logged s)).
Proof. intros H. unfold on_model. rewrite H. reflexivity. Qed.

(** The epoch in which the step on the first batch raises. *)
Lemma train_epoch_failed_step ds val epoch (bt : batch) (rest : list batch) e s0 :
  succeeds model_train ->
  succeeds zero_grad ->
  (forall b, exists b', get_data_loader ds b = (Ok (bt :: rest), b')) ->
  (forall b, exists b', train_step bt b = (Raise e, b')) ->
  train_epoch ds val epoch s0
  = (Raise e,
     mk_state (model (snd (train_epoch ds val epoch s0)))
              (mem s0) (monitor s0) (evaluator_calls s0) (models_dir s0)
              (logged s0 ++ [(INFO, "Starting epoch {}/{}", []);
                             (ERROR, "Error during epoch {}: {}", [str_exn e])])).
Proof.
  intros Htrain Hzero Hloader Hstep.
  destruct (Htrain (model s0)) as ([] & b2 & E2).
  destruct (Hloader b2) as (b3 & E3).
  destruct (Hzero b3) as ([] & b4 & E4).
  destruct (Hstep b4) as (b5 & E5).
  enough (E : train_epoch ds val epoch s0
              = (Raise e,
                 mk_state b5 (mem s0) (monitor s0) (evaluator_calls s0) (models_dir s0)
                          (logged s0 ++ [(INFO, "Starting epoch {}/{}", []);
                                         (ERROR, "Error during epoch {}: {}",
                                          [str_exn e])])))
    by (rewrite E; reflexivity).
  unfold train_epoch.
  erewrite bind_run_ok by reflexivity.
  erewrite bind_run_ok by (apply on_model_run; exact E2).
  erewrite try_run_raise; cycle 1.
  - erewrite bind_run_ok by (apply on_model_run; exact E3).
    apply bind_run_raise. unfold enumerate. cbn [List.length seq combine fold_m].
    apply bind_run_raise. unfold train_batch.
    erewrite bind_run_ok by (apply on_model_run; exact E4).
    apply bind_run_raise. apply on_model_run. exact E5.
  - unfold bind, logger, modify, raise.
    cbn [model mem monitor evaluator_calls models_dir logged].
    rewrite <- app_assoc. reflexivity.
Qed.

(** X16: a training step that raises ends the training.  With training
    data, no validation set and at least one epoch, if the step on the
    first batch raises [e], then [train] raises [e] in the first epoch:
    no epoch is logged to the monitor, the evaluator is not called, the
    memory is left as it is, and the failure is logged twice, as an error
    of the epoch and as a critical error of the training. *)
Theorem train_stops_at_failed_step (filenames : list string) (epochs : Z)
    (val_dataset : option (dataset sample)) (bt : batch) (rest : list batch)
    (e : exn) (s : state) :
  listdir conversations_dir = Ok filenames ->
  nonempty (Some (ConcatDataset (successes filenames))) = true ->
  nonempty val_dataset = false ->
  (0 < epochs)%Z ->
  succeeds (new_optimizer epochs) ->
  succeeds model_train ->
  succeeds zero_grad ->
  (forall b, exists b',
     get_data_loader (ConcatDataset (successes filenames)) b = (Ok (bt :: rest), b')) ->
  (forall b, exists b', train_step bt b = (Raise e, b')) ->
  exists s',
    train epochs val_dataset s = (Raise e, s')
    /\ monitor s' = monitor s /\ mem s' = mem s
    /\ evaluator_calls s' = evaluator_calls s /\ models_dir s' = models_dir s
    /\ logged s'
       = logged s ++ [(INFO, "Starting training for {} epochs", [])]
         ++ failures filenames
         ++ [(INFO, "Loaded dataset with {} samples", []);
             (INFO, "Starting epoch {}/{}", []);
             (ERROR, "Error during epoch {}: {}", [str_exn e]);
             (CRITICAL, "Training failed: {}", [str_exn e])].
Proof.
  intros Hdir Hdata Hval Hpos Hopt Htrain Hzero Hloader Hstep.
  destruct (Hopt (model s)) as ([] & b1 & E1).
  destruct (successes filenames) as [| d ds] eqn:Hs; [discriminate Hdata |].
  destruct (Z.to_nat epochs) as [| n] eqn:Hn; [lia |].
  unfold train.
  erewrite bind_run_ok by reflexivity.
  erewrite try_run_raise; cycle 1.
  - erewrite bind_run_ok by (apply load_all_datasets_run; exact Hdir).
    rewrite Hs, Hdata, Hval.
    erewrite bind_run_ok by reflexivity.
    erewrite bind_run_ok by reflexivity.
    erewrite bind_run_ok by reflexivity.
    erewrite bind_run_ok by (apply on_model_run; exact E1).
    unfold range. rewrite Hn.
    cbn [seq map for_each].
    apply bind_run_raise. apply bind_run_raise.
    apply (train_epoch_failed_step _ _ _ bt rest e _ Htrain Hzero Hloader Hstep).
  - unfold bind, logger, modify, raise. eexists. split; [reflexivity |].
    cbn [model mem monitor evaluator_calls models_dir logged add_logged].
    repeat split. rewrite <- !app_assoc. reflexivity.
Qed.

(** ** [train] for any number of epochs, on any aligned log *)

Lemma key_has_value {V} (k : string) (d : dict V) :
  In k (keys d) -> exists v, get k d = Some v.
Proof.
  unfold keys. induction d as [| [k' v'] t IH]; simpl; intros H; [contradiction |].
  destruct (String.eqb k k') eqn:E; [eauto |].
  destruct H as [H | H]; [| auto].
  subst. rewrite String.eqb_refl in E. discriminate.
Qed.

Section Epochs.

Variable validation_set : dataset sample.
Variable filenames : list string.
Variable batches : list batch.
Variable loss_of : batch -> Q.
Variable tracked : list string.

(** The conversations directory lists [filenames], the files that load
    hold at least one sample, and a validation set is given. *)
Hypothesis directory : listdir conversations_dir = Ok filenames.
Hypothesis training_data : nonempty (Some (ConcatDataset (successes filenames))) = true.
Hypothesis validation_data : nonempty (Some validation_set) = true.

(** The trainer yields [batches] in every epoch, a training step on a
    batch [bt] gives the loss [loss_of bt], and nothing on the numeric
    side raises, nor does saving. *)
Hypothesis loader : forall b, exists b',
  get_data_loader (ConcatDataset (successes filenames)) b = (Ok batches, b').
Hypothesis step_loss : forall bt b, exists t b',
  train_step bt b = (Ok t, b') /\ item t = loss_of bt.
Hypothesis zero_grad_ok : succeeds zero_grad.
Hypothesis backward_ok : forall t, succeeds (backward t).
Hypothesis optimizer_step_ok : succeeds optimizer_step.
Hypothesis scheduler_step_ok : succeeds scheduler_step.
Hypothesis model_train_ok : succeeds model_train.
Hypothesis new_optimizer_ok : forall epochs, succeeds (new_optimizer epochs).
Hypothesis model_save_ok : forall path, succeeds (model_save path).
Hypothesis memory_save_ok : forall path, succeeds (memory_save path).

(** The evaluator returns a dict with a value for every tracked name. *)
Hypothesis evaluation : forall b, exists m b',
  evaluate_dataset validation_set 100 b = (Ok m, b')
  /\ NoDup (keys m)
  /\ (forall k, In k tracked -> exists x, get k m = Some x).

Local Notation "'total'" := (total_of (map loss_of batches)).
Local Notation "'call'" := (validation_set, 100%Z).

(** The loop over the epochs [i + 1 .. i + n]. *)
Lemma returns_epochs (n : nat) : forall (i k : nat) l c,
  Monitor.aligned k l ->
  keys (Monitor.metrics l) = tracked ->
  returns (monitoring l c)
    (for_each (map Z.of_nat (seq i n))
              (train_epoch (ConcatDataset (successes filenames)) (Some validation_set)))
    (fun _ s => exists ms,
         List.length ms = n
         /\ Forall (produced validation_set tracked) ms
         /\ monitoring (logged_epochs (Z.of_nat i + 1) total ms l) (c ++ repeat call n) s).
Proof.
  induction n as [| n IH]; intros i k l c Hal Hkeys.
  - simpl. apply returns_ret. intros s H. exists []. simpl. rewrite app_nil_r. auto.
  - cbn [seq map for_each].
    eapply returns_bind.
    + apply (returns_train_epoch validation_set filenames batches loss_of tracked
               validation_data loader step_loss zero_grad_ok backward_ok
               optimizer_step_ok scheduler_step_ok model_train_ok evaluation k);
        assumption.
    + intros ?. cbv beta. apply returns_some. intros m.
      apply returns_fact. intros Hm.
      eapply returns_post; [| apply (IH (S i) (S k))].
      * intros ? s (ms & Hlen & Hall & Hmon). exists (m :: ms).
        split; [simpl; congruence |]. split; [constructor; assumption |].
        cbn [logged_epochs repeat].
        replace (Z.of_nat i + 1 + 1)%Z with (Z.of_nat (S i) + 1)%Z by lia.
        rewrite <- app_assoc in Hmon. exact Hmon.
      * destruct Hm as (Hnd & Hallm & _).
        apply MonitorFacts.logged_epoch_aligned; [exact Hal | exact Hnd |].
        rewrite Hkeys. exact Hallm.
      * destruct (MonitorFacts.logged_epoch_fields (Z.of_nat i + 1) total (Some m) l)
          as (_ & _ & _ & K & _).
        rewrite K. exact Hkeys.
Qed.

Lemma returns_train_epochs (n k : nat) l c :
  Monitor.aligned k l ->
  keys (Monitor.metrics l) = tracked ->
  returns (monitoring l c) (train (Z.of_nat n) (Some validation_set))
    (fun log s => exists ms,
         List.length ms = n
         /\ Forall (produced validation_set tracked) ms
         /\ log = logged_epochs 1 total ms l
         /\ evaluator_calls s = c ++ repeat call (S n)).
Proof.
  intros Hal Hkeys. unfold train.
  eapply returns_bind; [apply returns_logger | intros ?; cbv beta].
  apply returns_try.
  eapply returns_bind;
    [apply (returns_load filenames batches directory training_data loader)
    | intros loaded; cbv beta].
  apply returns_fact. intros ->. rewrite training_data.
  eapply returns_bind with
    (R := fun r s => r = ConcatDataset (successes filenames) /\ monitoring l c s);
    [apply returns_ret; auto | intros ds; cbv beta].
  apply returns_fact. intros ->.
  eapply returns_bind; [apply returns_logger | intros ?; cbv beta].
  rewrite validation_data.
  eapply returns_bind with (R := fun _ => monitoring l (c ++ [call])).
  { eapply returns_bind; [apply returns_logger | intros ?; cbv beta].
    eapply returns_bind;
      [apply (returns_evaluate validation_set tracked validation_data evaluation)
      | intros m0; cbv beta].
    apply returns_fact. intros _. apply returns_logger. }
  intros ?.
  eapply returns_bind; [apply returns_on_model, new_optimizer_ok | intros ?; cbv beta].
  unfold range. rewrite Nat2Z.id.
  eapply returns_bind; [apply (returns_epochs n 0 k); assumption | intros ?; cbv beta].
  apply returns_some. intros ms.
  apply returns_fact. intros Hlen. apply returns_fact. intros Hall.
  eapply returns_bind; [apply returns_get_best_epoch | intros ?; cbv beta].
  eapply returns_bind; [apply returns_logger | intros ?; cbv beta].
  eapply returns_bind;
    [apply (returns_save model_save_ok memory_save_ok) | intros ?; cbv beta].
  eapply returns_post; [| apply returns_current_log].
  intros log s [-> (_ & _ & Hcalls)]. exists ms.
  split; [exact Hlen |]. split; [exact Hall |]. split; [reflexivity |].
  rewrite Hcalls, <- app_assoc. reflexivity.
Qed.

Lemma logged_epochs_fields (ms : list (dict Q)) : forall (i : nat) l,
  Forall (fun m => NoDup (keys m)) ms ->
  Monitor.epochs (logged_epochs (Z.of_nat i + 1) total ms l)
  = Monitor.epochs l ++ map Z.of_nat (seq (S i) (List.length ms))
  /\ Monitor.train_loss (logged_epochs (Z.of_nat i + 1) total ms l)
     = Monitor.train_loss l ++ repeat total (List.length ms)
  /\ keys (Monitor.metrics (logged_epochs (Z.of_nat i + 1) total ms l))
     = keys (Monitor.metrics l)
  /\ forall name,
       get name (Monitor.metrics (logged_epochs (Z.of_nat i + 1) total ms l))
       = option_map (fun old => old ++ reported_by name ms)
                    (get name (Monitor.metrics l)).
Proof.
  induction ms as [| m ms IH]; intros i l Hnd.
  - simpl. rewrite !app_nil_r. repeat split.
    intros name. destruct (get name (Monitor.metrics l)); simpl;
      [rewrite app_nil_r |]; reflexivity.
  - inversion Hnd as [| ? ? Hm Hms]; subst.
    cbn [logged_epochs].
    replace (Z.of_nat i + 1 + 1)%Z with (Z.of_nat (S i) + 1)%Z by lia.
    destruct (IH (S i) (Monitor.logged_epoch (Z.of_nat i + 1) total (Some m) l) Hms)
      as (E & T & K & G).
    destruct (MonitorFacts.logged_epoch_fields (Z.of_nat i + 1) total (Some m) l)
      as (E1 & T1 & _ & K1 & G1).
    rewrite E, T, K, E1, T1, K1, <- !app_assoc.
    cbn [List.length seq map repeat app].
    split; [replace (Z.of_nat i + 1)%Z with (Z.of_nat (S i)) by lia; reflexivity |].
    split; [reflexivity |]. split; [reflexivity |].
    intros name. rewrite G, G1, (MonitorFacts.reported_dict name m Hm).
    destruct (get name (Monitor.metrics l)) as [old |]; [| reflexivity].
    simpl. rewrite <- app_assoc. reflexivity.
Qed.


End Epochs.

(** ** Strings *)

Lemma chars_app (a b : string) :
  list_ascii_of_string (a ++ b) = list_ascii_of_string a ++ list_ascii_of_string b.
Proof. induction a as [| c a IH]; simpl; [| rewrite IH]; reflexivity. Qed.

Lemma string_of_chars_app (l1 l2 : list ascii) :
  string_of_list_ascii (l1 ++ l2)
  = (string_of_list_ascii l1 ++ string_of_list_ascii l2)%string.
Proof. induction l1 as [| c l1 IH]; simpl; [| rewrite IH]; reflexivity. Qed.

Lemma append_assoc (a b c : string) : ((a ++ b) ++ c = a ++ b ++ c)%string.
Proof. induction a as [| x a IH]; simpl; [| rewrite IH]; reflexivity. Qed.

Lemma rev_string_app (a b : string) :
  rev_string (a ++ b) = (rev_string b ++ rev_string a)%string.
Proof.
  unfold rev_string. rewrite chars_app, rev_app_distr. apply string_of_chars_app.
Qed.

Lemma chars_rev_string (a : string) :
  list_ascii_of_string (rev_string a) = rev (list_ascii_of_string a).
Proof. unfold rev_string. apply list_ascii_of_string_of_list_ascii. Qed.

Lemma drop_prefix_app (p r : string) : drop_prefix p (p ++ r) = Some r.
Proof.
  induction p as [| c p IH]; simpl; [reflexivity |].
  rewrite Ascii.eqb_refl. exact IH.
Qed.

Lemma endswith_app (suffix s : string) : endswith suffix (s ++ suffix) = true.
Proof.
  unfold endswith, startswith. rewrite rev_string_app, drop_prefix_app. reflexivity.
Qed.

(** ** [save_model] *)

Section SaveModel.
Variable stamp : string.
Variable saved : string -> list dir_entry -> list dir_entry.

Lemma snapshot_name_pt (model_name : option string) :
  endswith ".pt" (snapshot_name stamp model_name) = true.
Proof.
  unfold snapshot_name.
  assert (Hstamp : endswith ".pt" ("sin_model_" ++ stamp ++ ".pt") = true)
    by (rewrite <- append_assoc; apply endswith_app).
  destruct model_name as [n |]; [| exact Hstamp].
  destruct (String.eqb n ""); [exact Hstamp |].
  destruct (endswith ".pt" n) eqn:E; simpl; [exact E | apply endswith_app].
Qed.


(** X19: after a [save_model] that returns, at most five regular [*.pt]
    files are left, the five most recently modified of those the
    directory held once the model was saved, provided each of them can be
    removed. *)
Theorem save_model_keeps_five (model_name : option string) (s : state) (b : backend) :
  model_save (joined the_models_dir (snapshot_name stamp model_name)) (model s)
  = (Ok tt, b) ->
  NoDup (map name (saved (joined the_models_dir (snapshot_name stamp model_name))
                         (models_dir s))) ->
  (forall f,
     In f (saved (joined the_models_dir (snapshot_name stamp model_name)) (models_dir s)) ->
     endswith ".pt" (name f) = true -> is_file f = true -> unlink_error f = None) ->
  exists s',
    save_model stamp saved model_name s
    = (Ok (joined the_models_dir (snapshot_name stamp model_name)), s')
    /\ model s' = b
    /\ candidates (models_dir s')
       = firstn 5 (candidates (saved (joined the_models_dir
                                             (snapshot_name stamp model_name))
                                     (models_dir s)))
    /\ List.length (candidates (models_dir s')) <= 5.
Proof.
  intros Hsave Hnd Hall.
  set (path := joined the_models_dir (snapshot_name stamp model_name)) in *.
  set (s1 := mk_state b (mem s) (monitor s) (evaluator_calls s)
                      (saved path (models_dir s))
                      (logged s ++ [(INFO, "Model manually saved to {}", [path])])).
  assert (Hrun : save_model stamp saved model_name s
                 = (Ok path, snd (_cleanup_old_models 5 s1))).
  { unfold save_model, try_except. fold path.
    unfold bind at 1. unfold on_model at 1. rewrite Hsave.
    unfold bind at 1. unfold gets at 1.
    unfold bind at 1. unfold set_models_dir at 1, modify.
    unfold bind at 1. unfold logger at 1, modify.
    cbn [model mem monitor evaluator_calls models_dir logged].
    fold s1. unfold bind. rewrite (cleanup_run 5 s1) by lia. reflexivity. }
  exists (snd (_cleanup_old_models 5 s1)).
  split; [exact Hrun |].
  split; [rewrite (cleanup_run 5 s1) by lia; reflexivity |].
  assert (Hkept : candidates (models_dir (snd (_cleanup_old_models 5 s1)))
                  = firstn 5 (candidates (saved path (models_dir s)))).
  { apply (cleanup_candidates 5 s1); [lia | exact Hnd | exact Hall]. }
  split; [exact Hkept |].
  rewrite Hkept, length_firstn. lia.
Qed.

End SaveModel.

(** ** The keys of what [compare_models] returns *)

Lemma keys_set {V} (k : string) (v : V) (d : dict V) :
  keys (set k v d)
  = if existsb (String.eqb k) (keys d) then keys d else keys d ++ [k].
Proof.
  unfold keys. induction d as [| [k' v'] t IH]; simpl; [reflexivity |].
  destruct (String.eqb k k') eqn:E; simpl.
  - apply String.eqb_eq in E. subst. reflexivity.
  - rewrite IH. destruct (existsb (String.eqb k) (map fst t)); reflexivity.
Qed.

Lemma compare_one_ok test results path s results' s' :
  compare_one test results path s = (Ok results', s') ->
  exists metrics, results' = set (path_name path) metrics results.
Proof.
  unfold compare_one. intros H.
  apply bind_ok in H. destruct H as (sd & s1 & _ & H).
  apply bind_ok in H. destruct H as (? & s2 & _ & H).
  apply bind_ok in H. destruct H as (m & s3 & _ & H).
  inversion H. eexists. reflexivity.
Qed.

Lemma compare_fold_keys test (paths : list string) : forall acc s results s',
  fold_m (compare_one test) paths acc s = (Ok results, s') ->
  keys results = keys acc ++ first_occurrences (keys acc) (map path_name paths).
Proof.
  induction paths as [| p rest IH]; intros acc s results s' H; simpl in H.
  - inversion H. simpl. rewrite app_nil_r. reflexivity.
  - apply bind_ok in H. destruct H as (acc1 & s1 & Hone & H).
    apply compare_one_ok in Hone. destruct Hone as (metrics & ->).
    rewrite (IH _ _ _ _ H), keys_set. cbn [map first_occurrences].
    destruct (existsb (String.eqb (path_name p)) (keys acc)); [reflexivity |].
    rewrite <- app_assoc. reflexivity.
Qed.

Lemma add_improvements_keys (names : list string) : forall results results',
  add_improvements results names = Ok results' -> keys results' = keys results.
Proof.
  induction names as [| n rest IH]; intros results results' H; simpl in H.
  - inversion H. reflexivity.
  - destruct (add_improvement results n) as [r1 | e] eqn:E1; [| discriminate].
    rewrite (IH _ _ H). unfold add_improvement, getitem in E1.
    destruct (first_item (values results)) as [base | e]; [| discriminate].
    destruct (get n results) as [metrics |] eqn:Hn; [| discriminate].
    destruct (differences base (items metrics) []) as [imp | e]; [| discriminate].
    inversion E1. eapply PyFacts.keys_set_present. exact Hn.
Qed.

(** X20: what [compare_models] returns has one entry for each file name
    among the paths, in the order in which the names first occur: two
    paths with the same file name, in whatever directories, share one
    entry. *)
Theorem compare_models_one_entry_per_name (model_paths : list string)
    (test_dataset : option (dataset sample)) (s : state) (results : dict (dict value)) :
  fst (compare_models model_paths test_dataset s) = Ok results ->
  keys results = first_occurrences [] (map path_name model_paths).
Proof.
  intros H.
  destruct (compare_models model_paths test_dataset s) as [r s'] eqn:Hrun.
  simpl in H. subst r. unfold compare_models in Hrun.
  apply bind_ok in Hrun. destruct Hrun as (w & s0 & _ & Hrun).
  apply (try_reraise_ok _ (fun _ => on_model (load_state_dict w))) in Hrun.
  apply bind_ok in Hrun. destruct Hrun as (r0 & s1 & Hfold & Hrun).
  apply bind_ok in Hrun. destruct Hrun as (? & s2 & _ & Hrun).
  apply compare_fold_keys in Hfold. simpl in Hfold.
  destruct (Nat.ltb 1 (List.length r0)).
  - unfold lift_result in Hrun.
    destruct (add_improvements r0 (keys r0)) as [r1 | e] eqn:E; [| discriminate].
    inversion Hrun; subst. rewrite (add_improvements_keys _ _ _ E). exact Hfold.
  - inversion Hrun; subst. exact Hfold.
Qed.

(** ** [chat]: the reply is one line *)

Lemma one_line_check (x : string) :
  existsb (Ascii.eqb (ascii_of_nat 10)) (list_ascii_of_string x) = false -> one_line x.
Proof.
  intros H Hin.
  assert (existsb (Ascii.eqb (ascii_of_nat 10)) (list_ascii_of_string x) = true);
    [| congruence].
  apply existsb_exists. exists (ascii_of_nat 10). split; [exact Hin |].
  apply Ascii.eqb_refl.
Qed.

Lemma drop_prefix_chars (c : ascii) (p : string) : forall x r,
  drop_prefix p x = Some r ->
  In c (list_ascii_of_string r) -> In c (list_ascii_of_string x).
Proof.
  induction p as [| a p IH]; intros x r H Hin; simpl in H.
  - inversion H; subst. exact Hin.
  - destruct x as [| b x]; [discriminate |].
    destruct (Ascii.eqb a b); [| discriminate].
    right. apply (IH _ _ H Hin).
Qed.

Lemma drop_one_chars (c : ascii) (chars : list string) (x r : string) :
  drop_one chars x = Some r ->
  In c (list_ascii_of_string r) -> In c (list_ascii_of_string x).
Proof.
  induction chars as [| p t IH]; simpl; intros H Hin; [discriminate |].
  destruct (drop_prefix p x) as [r' |] eqn:E.
  - inversion H; subst. apply (drop_prefix_chars c p _ _ E Hin).
  - apply (IH H Hin).
Qed.

Lemma lstrip_chars_chars (c : ascii) (chars : list string) (fuel : nat) : forall x,
  In c (list_ascii_of_string (lstrip_chars chars fuel x)) ->
  In c (list_ascii_of_string x).
Proof.
  induction fuel as [| f IH]; intros x H; simpl in H; [exact H |].
  destruct (drop_one chars x) as [r |] eqn:E; [| exact H].
  apply (drop_one_chars c chars x r E). apply IH. exact H.
Qed.

(** [strip] adds no character. *)
Lemma strip_chars (c : ascii) (x : string) :
  In c (list_ascii_of_string (strip x)) -> In c (list_ascii_of_string x).
Proof.
  unfold strip, rstrip, lstrip. intros H.
  rewrite chars_rev_string in H. apply in_rev in H.
  apply lstrip_chars_chars in H.
  rewrite chars_rev_string in H. apply in_rev in H.
  apply lstrip_chars_chars in H. exact H.
Qed.

(** The first piece of a split at line feeds holds no line feed. *)
Lemma split_first_line (x : string) : forall cur piece,
  one_line cur ->
  first_item (split_from (bytes [10]) 0 cur x) = Ok piece ->
  one_line piece.
Proof.
  induction x as [| c x IH]; intros cur piece Hcur H.
  - simpl in H. inversion H; subst. exact Hcur.
  - cbn [split_from] in H.
    destruct (startswith (bytes [10]) (String c x)) eqn:E.
    + simpl in H. inversion H; subst. exact Hcur.
    + apply (IH (cur ++ String c "")%string piece); [| exact H].
      unfold one_line. rewrite chars_app. simpl. intros Hin.
      apply in_app_or in Hin. destruct Hin as [Hin | [Heq | []]]; [exact (Hcur Hin) |].
      subst c. unfold startswith in E. simpl in E. discriminate.
Qed.

Lemma keeps_monitor_chat user_input : keeps_monitor (chat user_input).
Proof. unfold chat. auto 40 with frame. Qed.

(** Splits a hypothesis on a [bind] that returned into its parts. *)
Ltac split_bind H :=
  match type of H with
  | bind ?c ?k ?s = (Ok _, _) =>
      let r := fresh "r" in
      let s1 := fresh "s" in
      let E := fresh "E" in
      unfold bind at 1 in H;
      destruct (c s) as [r s1] eqn:E;
      destruct r; [| discriminate H]
  end.

(** X21: whatever the model generates, the reply of [chat] is one line:
    it holds no line feed.  The monitor is left as it is. *)
Theorem chat_reply_is_one_line (user_input : string) (s : state) :
  exists (r : string) (s' : state),
    chat user_input s = (Ok r, s') /\ one_line r /\ monitor s' = monitor s.
Proof.
  destruct (chat user_input s) as [[r | e] s'] eqn:Hrun.
  - exists r, s'. split; [reflexivity |].
    split; [| exact (keeps_monitor_run _ _ _ _ (keeps_monitor_chat user_input) Hrun)].
    unfold chat in Hrun. unfold bind at 1 in Hrun. simpl in Hrun.
    match type of Hrun with try_except ?c ?h ?s0 = _ =>
      unfold try_except in Hrun; destruct (c s0) as [[r0 | e] s1] eqn:E
    end.
    + repeat split_bind E.
      unfold ret in E. inversion E; subst. inversion Hrun; subst.
      match goal with |- one_line (if String.eqb ?x "" then _ else _) =>
        destruct (String.eqb x "")
      end.
      * apply one_line_check. reflexivity.
      * intros Hin. apply strip_chars in Hin. revert Hin.
        match goal with
        | H : lift_result (first_item (split _ _)) _ = (Ok _, _) |- _ =>
            unfold lift_result in H; inversion H as [[Hfirst Hstate]]
        end.
        apply (split_first_line _ ""%string _ (fun H => H) Hfirst).
    + unfold bind, logger, modify, ret in Hrun. inversion Hrun; subst.
      apply one_line_check. reflexivity.
  - exfalso. unfold chat in Hrun. unfold bind at 1 in Hrun. simpl in Hrun.
    match type of Hrun with try_except ?c ?h ?s0 = _ =>
      unfold try_except in Hrun; destruct (c s0) as [[r0 | e0] s1]
    end; discriminate.
Qed.

(** ** [__init__] *)

Lemma bind_raises_right {S A B} (c : M S A) (k : A -> M S B) :
  (forall a s, exists e, fst (k a s) = Raise e) ->
  forall s, exists e, fst (bind c k s) = Raise e.
Proof.
  intros Hk s. unfold bind. destruct (c s) as [[a | e] s1].
  - apply Hk.
  - exists e. reflexivity.
Qed.

Lemma bind_raises_left {S A B} (c : M S A) (k : A -> M S B) :
  (forall s, exists e, fst (c s) = Raise e) ->
  forall s, exists e, fst (bind c k s) = Raise e.
Proof.
  intros Hc s. unfold bind. destruct (Hc s) as (e & He).
  destruct (c s) as [[a | e'] s1]; simpl in He; [discriminate |].
  exists e'. reflexivity.
Qed.

(** [TrainingMonitor()] raises on every disk. *)
Lemma new_monitor_raises (d : Monitor.disk) (monitor_logged lg : list log_record) :
  exists e, fst (new_monitor d monitor_logged lg) = Raise e.
Proof.
  unfold new_monitor. destruct d as [[] [] js png]; eexists; reflexivity.
Qed.

Section Init.
Variable memory_exists : bool.
Variable memory_load : string -> M memory unit.
Variable new_memory : result memory.
Variable mkdir_models : result unit.
Variable mkdir_conversations : result unit.
Variable model_exists : bool.
Variable SinModel_load : string -> result backend.
Variable SinModel_new : result backend.
Variable SinTrainer_new : backend -> result unit.
Variable tokenizer_of : backend -> result unit.
Variable ModelEvaluator_new : backend -> result unit.

(** X22: no [Sin] object can be built.  Whatever the directories, the
    model, the memory, the trainer and the evaluator do, [__init__]
    raises, and the last thing it does is to log the exception as
    critical: when every step before it returns, [TrainingMonitor()]
    raises. *)
Theorem init_always_raises (d : Monitor.disk) (monitor_logged : list log_record)
    (dir : list dir_entry) (lg : list log_record) :
  exists e before,
    __init__ memory_exists memory_load new_memory mkdir_models mkdir_conversations
             model_exists SinModel_load SinModel_new SinTrainer_new tokenizer_of
             ModelEvaluator_new d monitor_logged dir lg
    = (Raise e, before ++ [(CRITICAL, "Initialization failed: {}", [str_exn e])]).
Proof.
  unfold __init__, try_except.
  match goal with |- context [match ?body lg with _ => _ end] =>
    assert (Hbody : exists e, fst (body lg) = Raise e);
      [| destruct (body lg) as [[built | e] lg1]]
  end.
  - revert lg.
    do 12 (apply bind_raises_right; intros ?).
    apply bind_raises_left. apply new_monitor_raises.
  - destruct Hbody as (e & He). discriminate He.
  - exists e, lg1. reflexivity.
Qed.

End Init.

End More.

(** ** The theorems at work in the small worlds *)

Ltac distinct_names :=
  vm_compute;
  repeat (constructor;
          [let H := fresh "H" in
           intros H; simpl in H;
           repeat (destruct H as [H | H]; [discriminate H |]); exact H |]);
  constructor.

(** A directory where one file is of no known kind and the other is
    malformed. *)
Lemma train_without_data_witness :
  exists s',
    train (C := with_files ["notes.md"; "bad.json"] toy) 2 None
          (state_with_files ["notes.md"; "bad.json"] Monitor.accuracy_log)
    = (Raise (ValueError "No training data found"), s')
    /\ model s' = model (state_with_files ["notes.md"; "bad.json"] Monitor.accuracy_log)
    /\ mem s' = mem (state_with_files ["notes.md"; "bad.json"] Monitor.accuracy_log)
    /\ monitor s' = monitor (state_with_files ["notes.md"; "bad.json"] Monitor.accuracy_log)
    /\ evaluator_calls s'
       = evaluator_calls (state_with_files ["notes.md"; "bad.json"] Monitor.accuracy_log)
    /\ models_dir s'
       = models_dir (state_with_files ["notes.md"; "bad.json"] Monitor.accuracy_log)
    /\ logged s'
       = logged (state_with_files ["notes.md"; "bad.json"] Monitor.accuracy_log)
         ++ [(INFO, "Starting training for {} epochs", [])]
         ++ failures (C := with_files ["notes.md"; "bad.json"] toy) ["notes.md"; "bad.json"]
         ++ [(ERROR, "No training data found", []);
             (CRITICAL, "Training failed: {}", ["No training data found"])].
Proof.
  apply (train_without_data (C := with_files ["notes.md"; "bad.json"] toy)
           ["notes.md"; "bad.json"] 2 None
           (state_with_files ["notes.md"; "bad.json"] Monitor.accuracy_log));
    reflexivity.
Defined.

(** A disk that is full. *)
Lemma save_stops_at_model_failure_witness :
  exists s',
    save (C := broken) broken_state = (Raise (OSError "No space left on device"), s')
    /\ model s' = 0%Z /\ mem s' = mem broken_state /\ monitor s' = monitor broken_state
    /\ logged s'
       = logged broken_state
         ++ [(INFO, "Saving model...", []);
             (ERROR, "Failed to save: {}", [str_exn (OSError "No space left on device")])].
Proof.
  exact (save_stops_at_model_failure (C := broken) broken_state
           (OSError "No space left on device") 0%Z eq_refl).
Defined.

(** A memory file that is malformed: the load raises half way. *)
Lemma load_falls_back_to_new_memory_witness :
  exists s',
    load (C := toy) true
         (fun _ m => (Raise (ValueError "Expecting value"), m ++ ["half"])) (Ok [])
         (toy_state Monitor.accuracy_log [])
    = (Ok tt, s')
    /\ model s' = model (toy_state Monitor.accuracy_log [])
    /\ monitor s' = monitor (toy_state Monitor.accuracy_log [])
    /\ (true = false -> s' = toy_state Monitor.accuracy_log [])
    /\ mem s' = [].
Proof.
  exact (load_falls_back_to_new_memory (C := toy) true
           (fun _ m => (Raise (ValueError "Expecting value"), m ++ ["half"])) (Ok [])
           [] (toy_state Monitor.accuracy_log []) eq_refl).
Defined.

(** A directory with two snapshots, a directory and a link whose target
    is missing: the listing raises at the link.  Without the link, the
    directory, examined at time 5, is listed first. *)
Lemma list_models_newest_first_witness :
  list_models (C := toy) broken_link (toy_state Monitor.accuracy_log with_link)
  = (Raise (OSError "gone.pt"), toy_state Monitor.accuracy_log with_link)
  /\ list_models (C := toy) broken_link
       (toy_state Monitor.accuracy_log (removelast with_link))
     = (Ok ["runs.pt"; "v2.pt"; "v1.pt"],
        toy_state Monitor.accuracy_log (removelast with_link)).
Proof.
  split.
  - apply (proj2 (list_models_newest_first (C := toy) broken_link
                    (toy_state Monitor.accuracy_log with_link))
             [snapshot "v1.pt" 1 None; mk_entry "runs.pt" false 0 None;
              snapshot "v2.pt" 2 None]
             (mk_entry "gone.pt" false 0 None) []).
    + reflexivity.
    + intros g Hg. simpl in Hg.
      repeat (destruct Hg as [<- | Hg]; [eexists; reflexivity |]). contradiction.
    + reflexivity.
  - reflexivity.
Defined.

(** Six snapshots, pruned to five. *)
Lemma cleanup_then_list_models_witness :
  exists names,
    fst (list_models (C := toy) broken_link
           (toy_state Monitor.accuracy_log five_and_latest))
    = Ok names
    /\ fst (list_models (C := toy) broken_link
              (snd (_cleanup_old_models 5 (toy_state Monitor.accuracy_log five_and_latest))))
       = Ok (firstn (Z.to_nat 5) names).
Proof.
  apply (cleanup_then_list_models (C := toy) broken_link 5
           (toy_state Monitor.accuracy_log five_and_latest)).
  - lia.
  - distinct_names.
  - intros f Hin _. simpl in Hin.
    repeat (destruct Hin as [<- | Hin]; [split; reflexivity |]). contradiction.
Defined.

(** Two epochs in the small world, whose monitor writes to [data/logs],
    then the report. *)
Lemma train_then_report_witness :
  get_training_report (C := toy) (fun _ => Ok None)
    (snd (train (C := toy) 2 (Some (Dataset [7])) (toy_state Monitor.accuracy_log [])))
  = (Ok (Some (Monitor.mk_log [1%Z; 2%Z] [1%Q; 1%Q] []
                              [("accuracy", [(1 # 10)%Q; (2 # 10)%Q])])),
     snd (train (C := toy) 2 (Some (Dataset [7])) (toy_state Monitor.accuracy_log []))).
Proof.
  apply (train_then_report (C := toy) (fun _ => Ok None) 2 (Some (Dataset [7]))
           (toy_state Monitor.accuracy_log [])).
  - reflexivity.
  - vm_compute. reflexivity.
  - left. lia.
Defined.

(** A trainer whose steps fail. *)
Lemma train_stops_at_failed_step_witness :
  exists s',
    train (C := broken) 2 None broken_state = (Raise (Failure "CUDA out of memory"), s')
    /\ monitor s' = monitor broken_state /\ mem s' = mem broken_state
    /\ evaluator_calls s' = evaluator_calls broken_state
    /\ models_dir s' = models_dir broken_state
    /\ logged s'
       = logged broken_state ++ [(INFO, "Starting training for {} epochs", [])]
         ++ failures (C := broken) ["c.txt"]
         ++ [(INFO, "Loaded dataset with {} samples", []);
             (INFO, "Starting epoch {}/{}", []);
             (ERROR, "Error during epoch {}: {}",
              [str_exn (Failure "CUDA out of memory")]);
             (CRITICAL, "Training failed: {}", [str_exn (Failure "CUDA out of memory")])].
Proof.
  apply (train_stops_at_failed_step (C := broken) ["c.txt"] 2 None tt []
           (Failure "CUDA out of memory") broken_state).
  all: try reflexivity.
  all: try (intros b; eexists; eexists; reflexivity).
  all: try (intros b; eexists; reflexivity).
Defined.


(** A seventh snapshot, saved beside six. *)
Lemma save_model_keeps_five_witness :
  exists s',
    save_model (C := toy) "20250101_000000" written None
               (toy_state Monitor.accuracy_log five_and_latest)
    = (Ok (joined the_models_dir (snapshot_name "20250101_000000" None)), s')
    /\ model s' = 0%Z
    /\ candidates (models_dir s')
       = firstn 5 (candidates
                     (written (joined the_models_dir (snapshot_name "20250101_000000" None))
                              (models_dir (toy_state Monitor.accuracy_log five_and_latest))))
    /\ List.length (candidates (models_dir s')) <= 5.
Proof.
  apply (save_model_keeps_five (C := toy) "20250101_000000" written None
           (toy_state Monitor.accuracy_log five_and_latest) 0%Z).
  - reflexivity.
  - distinct_names.
  - intros f Hin _ _. vm_compute in Hin.
    repeat (destruct Hin as [<- | Hin]; [reflexivity |]). contradiction.
Defined.

(** Two paths with the same file name. *)
Lemma compare_models_one_entry_per_name_witness :
  fst (compare_models (C := broken) ["old/m.pt"; "new/m.pt"] (Some (Dataset [7]))
                      broken_state)
  = Ok [("m.pt", [("accuracy", Num (1 # 10))])]
  /\ keys [("m.pt", [("accuracy", Num (1 # 10))])]
     = first_occurrences [] (map path_name ["old/m.pt"; "new/m.pt"]).
Proof.
  split; [vm_compute; reflexivity |].
  apply (compare_models_one_entry_per_name (C := broken) ["old/m.pt"; "new/m.pt"]
           (Some (Dataset [7])) broken_state).
  vm_compute. reflexivity.
Defined.

End SinMore.
